(** * Verification of the honey game server core (leverage_service.py)

    A shallow embedding of the [ConnectionManager] class of
    [src/python/leverage_service.py]: the leverage scoring engine, the
    battle simulation and its coordinator, the throttled state broadcast
    and the session teardown.

    Conventions of the embedding.
    - Python [int] values are [Z]. Python [float] values are modelled as
      exact rationals ([Q]) in the scoring engine, the world mutation and
      the handlers, where the properties stated are bounds, orderings and
      frames; [int(x)] on a float truncates toward zero and is [py_int].
      Counterexamples below are chosen at inputs where binary rounding does
      not change the truncated result.
    - Where an integer depends on how the doubles round - the tier, the
      survivor counts and the tick count of a battle - the arithmetic is
      modelled once more in module [F64], on IEEE 754 binary64 numbers
      with rounding to nearest even and with the [OverflowError] of an
      [int] that has no double.
    - Python dictionaries that are looked up by key ([characters],
      [leverage_data], [active_battles], ...) are [gmap]s; dictionaries and
      lists that are iterated ([temp_buffs], [research], [bonuses],
      [territories]) are insertion-ordered association lists.
    - Clock reads ([time.time()]), the random draw ([random.random()]) and
      the success of a transport send are explicit parameters.
    - [async] functions are modelled twice where a claim needs it: as the
      function computed by one uninterrupted run, and as atomic segments
      (the code between two [await]s) of a step relation. *)

From Stdlib Require Import ZArith QArith Qminmax Qround Lqa Lia SpecFloat.
From stdpp Require Import gmap strings list fin_maps pretty.

Local Open Scope Q_scope.

(** ** Python numerics *)

(** [int(x)] for a float [x]: truncation toward zero. *)
Definition py_int (q : Q) : Z := Z.quot (Qnum q) (Zpos (Qden q)).

(** [x < y] on floats. *)
Definition Qlt_bool (x y : Q) : bool := negb (Qle_bool y x).

(** ** Python dictionaries iterated in insertion order *)

Definition dict (V : Type) : Type := list (string * V).

(** [d[k] = v]: overwrite in place when the key exists, append otherwise. *)
Fixpoint dict_set {V : Type} (k : string) (v : V) (d : dict V) : dict V :=
  match d with
  | [] => [(k, v)]
  | (k', v') :: d' =>
      if String.eqb k k' then (k', v) :: d' else (k', v') :: dict_set k v d'
  end.

Fixpoint dict_get {V : Type} (k : string) (d : dict V) : option V :=
  match d with
  | [] => None
  | (k', v') :: d' => if String.eqb k k' then Some v' else dict_get k d'
  end.

Definition dict_values {V : Type} (d : dict V) : list V := map snd d.

(** [sum(xs)] over floats, left to right from 0. *)
Definition py_sum (xs : list Q) : Q := fold_left Qplus xs 0.

(** ** Data model *)

(** A WebSocket object, identified by its identity. *)
Definition websocket : Type := nat.

(** An [asyncio.Task] object, identified by its identity. *)
Definition task_handle : Type := nat.

(** Entry of [active_connections]. *)
Record conn_info : Type := mk_conn_info {
  is_connected : bool;
  last_ping : Q;
  last_pong : Q;
  client_id : string;
  connect_time : Q;
  keep_alive_task : option task_handle
}.

Record character : Type := mk_character {
  ch_name : string;
  ch_level : Z;
  ch_experience : Z;
  ch_resources : dict Q
}.

(** Entry of the flat [territories] list; ["defense"] may be absent. *)
Record territory : Type := mk_territory {
  t_id : string;
  t_controlledBy : option string;
  t_defense : option Z
}.

(** A planet of the universe. *)
Record planet : Type := mk_planet {
  p_id : string;
  p_name : string;
  p_controlledBy : option string;
  p_defense : option Z
}.

Record mission : Type := mk_mission {
  ms_id : string;
  ms_progress : Q
}.

(** Entry of a [temp_buffs] dictionary. *)
Record buff : Type := mk_buff {
  b_level : Q;
  b_expires_at : Z
}.

(** Entry of [leverage_data]: the stored leverage profile of a player.
    Keys written by [calculate_leverage_multiplier] only after the first
    call are optional. *)
Record profile : Type := mk_profile {
  territory_bonus : Q;
  resource_bonus : option Q;
  mission_bonus : Q;
  level_bonus : Q;
  achievement_bonus : option Q;
  research : option (dict Q);
  temp_buffs : option (dict buff)
}.

(** The [ConnectionManager] object. The nested universe
    (galaxies, systems, planets) is kept as the list of its planets in
    traversal order; a planet object is referred to by its position. *)
Record manager : Type := mk_manager {
  active_connections : gmap websocket conn_info;
  connection_count : Z;
  characters : gmap string character;
  territories : list territory;
  missions : gmap string (list mission);
  leverage_data : gmap string profile;
  achievements : gmap string (list string);
  last_game_state_send : gmap string Q;
  game_state_throttle_seconds : Q;
  universe : list planet;
  active_battles : gmap string task_handle
}.

Definition set_leverage_data (m : manager) (ld : gmap string profile) : manager :=
  mk_manager (active_connections m) (connection_count m) (characters m)
    (territories m) (missions m) ld (achievements m)
    (last_game_state_send m) (game_state_throttle_seconds m) (universe m)
    (active_battles m).

Definition set_last_game_state_send (m : manager) (ls : gmap string Q) : manager :=
  mk_manager (active_connections m) (connection_count m) (characters m)
    (territories m) (missions m) (leverage_data m) (achievements m)
    ls (game_state_throttle_seconds m) (universe m) (active_battles m).

Definition set_connections (m : manager) (ac : gmap websocket conn_info)
    (cnt : Z) : manager :=
  mk_manager ac cnt (characters m) (territories m) (missions m)
    (leverage_data m) (achievements m) (last_game_state_send m)
    (game_state_throttle_seconds m) (universe m) (active_battles m).

Definition set_world (m : manager) (u : list planet) (ts : list territory)
    : manager :=
  mk_manager (active_connections m) (connection_count m) (characters m)
    ts (missions m) (leverage_data m) (achievements m)
    (last_game_state_send m) (game_state_throttle_seconds m) u
    (active_battles m).

Definition set_active_battles (m : manager) (ab : gmap string task_handle)
    : manager :=
  mk_manager (active_connections m) (connection_count m) (characters m)
    (territories m) (missions m) (leverage_data m) (achievements m)
    (last_game_state_send m) (game_state_throttle_seconds m) (universe m) ab.

(** ** Scoring engine: [calculate_leverage_multiplier] *)

(** One entry of the [bonuses] breakdown. *)
Record bonus : Type := mk_bonus {
  value : Q;
  description : string;
  max : Q;
  progress : Q
}.

(** The keys of the success dictionary beyond ["total"] and ["bonuses"]. *)
Record leverage_detail : Type := mk_detail {
  base_rate : Q;
  efficiency : Q;
  potential_increase : Q;
  temp_buffs_detail : dict buff
}.

(** A returned dictionary: it always has ["total"] and ["bonuses"]. *)
Record leverage_dict : Type := mk_leverage {
  total : Q;
  bonuses : dict bonus;
  detail : option leverage_detail
}.

(** What the function can return: a dictionary, or a bare float. *)
Inductive py_result : Type :=
| RDict (r : leverage_dict)
| RFloat (x : Q).

(** [if v > 0: bonuses[key] = {...}] *)
Definition add_bonus (key : string) (v cap : Q) (descr : string)
    (bs : dict bonus) : dict bonus :=
  if Qlt_bool 0 v then dict_set key (mk_bonus v descr cap (v / cap)) bs else bs.

Definition territory_count (m : manager) (wallet : string) : Z :=
  Z.of_nat (length (filter (fun t => t_controlledBy t = Some wallet) (territories m))).

Definition unique_resources (c : character) : Z :=
  Z.of_nat (length (filter (fun ra : string * Q => Qlt_bool 0 (snd ra) = true)
                           (ch_resources c))).

Definition completed_missions (ms : list mission) : Z :=
  Z.of_nat (length (filter (fun x => Qeq_bool (ms_progress x) 100 = true) ms)).

Definition active_missions (ms : list mission) : Z :=
  Z.of_nat (length (filter (fun x => Qlt_bool 0 (ms_progress x)
                                     && Qlt_bool (ms_progress x) 100 = true) ms)).

Definition achievement_count (m : manager) (wallet : string) : Z :=
  Z.of_nat (length (default [] (achievements m !! wallet))).

(** The loop over [data.get('research') or {}]. *)
Definition research_sum (p : profile) : Q :=
  fold_left (fun acc kv => acc + snd kv) (default [] (research p)) 0.

(** The loop over [data.get('temp_buffs') or {}]: accumulates
    [(temp_total, cleaned)]. *)
Definition temp_step (now_ts : Z) (acc : Q * dict buff) (kb : string * buff)
    : Q * dict buff :=
  let lvl := b_level (snd kb) in
  let exp := b_expires_at (snd kb) in
  if (now_ts <? exp)%Z && Qlt_bool 0 lvl
  then (fst acc + lvl, dict_set (fst kb) (snd kb) (snd acc))
  else acc.

Definition temp_loop (now_ts : Z) (p : profile) : Q * dict buff :=
  fold_left (temp_step now_ts) (default [] (temp_buffs p)) (0, []).

Definition territory_bonus_of (m : manager) (wallet : string) : Q :=
  Qmin (inject_Z (territory_count m wallet) * 0.05) 0.3.

Definition resource_bonus_of (c : character) : Q :=
  Qmin (inject_Z (unique_resources c) * 0.05) 0.2.

Definition mission_bonus_of (ms : list mission) : Q :=
  Qmin (inject_Z (completed_missions ms) * 0.025
        + inject_Z (active_missions ms) * 0.01) 0.25.

Definition level_bonus_of (c : character) : Q :=
  Qmin ((inject_Z (ch_level c) - 1) * 0.05) 0.25.

Definition achievement_bonus_of (m : manager) (wallet : string) : Q :=
  Qmin (inject_Z (achievement_count m wallet) * 0.02) 0.2.

Definition research_total_of (p : profile) : Q := Qmin (research_sum p) 0.3.

Definition temp_total_of (now_ts : Z) (p : profile) : Q :=
  Qmin (fst (temp_loop now_ts p)) 0.2.

(** The [bonuses] dictionary, filled in source order. *)
Definition build_bonuses (m : manager) (now_ts : Z) (wallet : string)
    (data : profile) (c : character) : dict bonus :=
  let b1 := add_bonus "territory" (territory_bonus_of m wallet) 0.3
              ("Controlling " +:+ pretty (territory_count m wallet)
               +:+ " territories") [] in
  let b2 := match ch_resources c with
            | [] => b1
            | _ => add_bonus "resources" (resource_bonus_of c) 0.2
                     ("Diversified " +:+ pretty (unique_resources c)
                      +:+ " resource types") b1
            end in
  let b3 := match missions m !! wallet with
            | Some ms => add_bonus "missions" (mission_bonus_of ms) 0.25
                           (pretty (completed_missions ms) +:+ " completed, "
                            +:+ pretty (active_missions ms)
                            +:+ " active missions") b2
            | None => b2
            end in
  let b4 := add_bonus "level" (level_bonus_of c) 0.25
              ("Level " +:+ pretty (ch_level c) +:+ " progression") b3 in
  let b5 := add_bonus "achievements" (achievement_bonus_of m wallet) 0.2
              (pretty (achievement_count m wallet)
               +:+ " achievements unlocked") b4 in
  let b6 := add_bonus "research" (research_total_of data) 0.3
              "Technology advancements" b5 in
  add_bonus "temp_buffs" (temp_total_of now_ts data) 0.2
    "Recent research deployments" b6.

(** The writes to the stored profile [data] (an alias of
    [leverage_data[wallet]]). *)
Definition update_profile (m : manager) (now_ts : Z) (wallet : string)
    (data : profile) (c : character) : profile :=
  mk_profile
    (territory_bonus_of m wallet)
    (match ch_resources c with
     | [] => resource_bonus data
     | _ => Some (resource_bonus_of c)
     end)
    (match missions m !! wallet with
     | Some ms => mission_bonus_of ms
     | None => mission_bonus data
     end)
    (level_bonus_of c)
    (Some (achievement_bonus_of m wallet))
    (research data)
    (Some (snd (temp_loop now_ts data))).

Definition neutral_result : leverage_dict := mk_leverage 1 [] None.

(** [calculate_leverage_multiplier(wallet)], with [now_ts = int(time.time())].
    Returns the manager after the writes to the stored profile, and the
    returned Python value. A missing [leverage_data[wallet]] raises
    [KeyError], which the [except Exception] clause turns into the bare
    float [1.0]. *)
Definition calculate_leverage_multiplier (m : manager) (now_ts : Z)
    (wallet : string) : manager * py_result :=
  match leverage_data m !! wallet with
  | None => (m, RFloat 1)
  | Some data =>
      match characters m !! wallet with
      | None => (m, RDict neutral_result)
      | Some c =>
          let bs := build_bonuses m now_ts wallet data c in
          let total_multiplier := 1 + py_sum (map value (dict_values bs)) in
          let scaled_multiplier := Qmin (Qmax total_multiplier 1) 2 in
          let max_possible := 2 in
          let data' := update_profile m now_ts wallet data c in
          (set_leverage_data m (<[wallet := data']> (leverage_data m)),
           RDict (mk_leverage scaled_multiplier bs
                    (Some (mk_detail 1
                             ((scaled_multiplier - 1) / (max_possible - 1))
                             (max_possible - scaled_multiplier)
                             (snd (temp_loop now_ts data))))))
      end
  end.

(** ** Combat resolution: the arithmetic of [_simulate_battle] *)

Record outcome : Type := mk_outcome {
  success : bool;
  attacker_survivors : Z;
  defender_survivors : Z
}.

(** [defender_count = target.get("defense", 0) * 40] *)
Definition defender_count_of (target : planet) : Z :=
  (default 0 (p_defense target) * 40)%Z.

(** [power_ratio = attacker_count * a_total / max(1, defender_count)] *)
Definition power_ratio (attacker_count defender_count : Z) (a_total : Q) : Q :=
  (inject_Z attacker_count * a_total) / inject_Z (Z.max 1 defender_count).

(** The four tiers. [rnd] is the value of the single [random.random()]
    call a tier below 2.0 makes. The products are exact here;
    [F64.battle_outcome] below is the same code on doubles. *)
Definition battle_outcome (attacker_count defender_count : Z) (a_total rnd : Q)
    : outcome :=
  let ratio := power_ratio attacker_count defender_count a_total in
  let a := inject_Z attacker_count in
  let d := inject_Z defender_count in
  if Qle_bool 2 ratio then
    mk_outcome true (Z.max 1 (py_int (a * 0.7))) 0
  else if Qle_bool 1.5 ratio then
    let ok := Qlt_bool rnd 0.85 in
    mk_outcome ok
      (if ok then Z.max 1 (py_int (a * 0.5)) else Z.max 0 (py_int (a * 0.2)))
      (if ok then 0 else Z.max 1 (py_int (d * 0.6)))
  else if Qle_bool 1 ratio then
    let ok := Qlt_bool rnd 0.45 in
    mk_outcome ok
      (if ok then Z.max 1 (py_int (a * 0.3)) else Z.max 0 (py_int (a * 0.1)))
      (if ok then 0 else Z.max 1 (py_int (d * 0.4)))
  else
    let ok := Qlt_bool rnd 0.15 in
    mk_outcome ok
      (if ok then Z.max 1 (py_int (a * 0.2)) else 0)
      (if ok then 0 else Z.max 1 (py_int (d * 0.8))).

(** [duration = min(5, max(2, int(10 * (1 / max(0.1, power_ratio)))))],
    with an exact quotient; [F64.duration] below is the same on doubles. *)
Definition duration (ratio : Q) : Z :=
  Z.min 5 (Z.max 2 (py_int (10 * (1 / Qmax 0.1 ratio)))).

(** Counts reported by tick [i] (0-based) of [n]. *)
Definition tick_count (start final : Z) (i n : Z) : Z :=
  let progress := inject_Z (i + 1) / inject_Z n in
  py_int (inject_Z start * (1 - progress) + inject_Z final * progress).

(** The mutation of the target planet object after the tick loop.
    Returns the planet and [final_defense]. *)
Definition apply_outcome (attacker_wallet : string) (o : outcome)
    (target : planet) : planet * Z :=
  if success o then
    let final_defense := Z.max 1 (py_int (inject_Z (attacker_survivors o) / 20)) in
    (mk_planet (p_id target) (p_name target) (Some attacker_wallet)
       (Some final_defense), final_defense)
  else
    let final_defense := (Z.max 1 (default 1 (p_defense target) - 1))%Z in
    (mk_planet (p_id target) (p_name target) (p_controlledBy target)
       (Some final_defense), final_defense).

(** The [for t in self.territories: if t.get("id") == target_id: ...; break]
    loops: the first territory with the id is updated. *)
Fixpoint mirror_territory (target_id : string) (owner : option string)
    (final_defense : Z) (ts : list territory) : list territory :=
  match ts with
  | [] => []
  | t :: ts' =>
      if String.eqb (t_id t) target_id then
        mk_territory (t_id t)
          (match owner with Some w => Some w | None => t_controlledBy t end)
          (Some final_defense) :: ts'
      else t :: mirror_territory target_id owner final_defense ts'
  end.

(** ** Outbound events *)

Record attack_result : Type := mk_attack_result {
  ar_planet_id : string;
  ar_success : bool;
  ar_new_owner : option string;
  ar_current_owner : option string;
  ar_defense : Z;
  ar_attack_power : Z;
  ar_defense_power : Z;
  ar_leverage_used : Q;
  ar_attacking_units : Z;
  ar_defending_units : Z;
  ar_source_planets : list string;
  ar_attacker_id : string;
  ar_defender_id : option string;
  ar_battle_duration : Z;
  ar_final_attacker_count : Z;
  ar_final_defender_count : Z
}.

Inductive message : Type :=
| MsgError (payload : string)
| MsgGameStateUpdate (c : character) (ts : list territory)
    (ms : list mission) (leverageMultiplier : py_result)
| MsgBattleStarted (from_id to_id : string) (attacker : string)
    (attackers : Z) (defender : option string) (defenders : Z)
| MsgBattleUpdate (planet_id : string) (attacker : string) (attackers : Z)
    (defender : option string) (defenders : Z)
| MsgAttackResult (r : attack_result).

(** ** State broadcast: [send_game_state] *)

(** The throttle test on entry. *)
Definition throttled (m : manager) (wallet : string) (current_time : Q) : bool :=
  match last_game_state_send m !! wallet with
  | Some last => Qlt_bool (current_time - last) (game_state_throttle_seconds m)
  | None => false
  end.

(** The snapshot assembled for a player. *)
Definition game_state (m : manager) (wallet : string) (c : character)
    (lev : py_result) : message :=
  MsgGameStateUpdate c
    (filter (fun t => t_controlledBy t = Some wallet) (territories m))
    (default [] (missions m !! wallet)) lev.

(** [send_game_state(websocket, wallet)]. [current_time] is the value of
    [time.time()] on entry, [now_ts] the clock read inside the scoring
    call, [send_ok] tells whether [websocket.send_json] returns normally.
    The result lists the messages delivered. *)
Definition send_game_state (m : manager) (ws : websocket) (wallet : string)
    (current_time : Q) (now_ts : Z) (send_ok : bool) : manager * list message :=
  if throttled m wallet current_time then (m, [])
  else
    match active_connections m !! ws with
    | None => (m, [])
    | Some ci =>
        match characters m !! wallet with
        | None => (m, [])
        | Some c =>
            let '(m1, lev) := calculate_leverage_multiplier m now_ts wallet in
            let state := game_state m wallet c lev in
            if is_connected ci then
              if send_ok then
                (set_last_game_state_send m1
                   (<[wallet := current_time]> (last_game_state_send m1)),
                 [state])
              else (m1, [])
            else (m1, [])
        end
    end.

(** ** Session teardown: [disconnect] *)

Inductive effect : Type :=
| TaskCancelled (h : task_handle)
| TransportClosed (ws : websocket) (reason : string).

Definition mark_inactive (ci : conn_info) : conn_info :=
  mk_conn_info false (last_ping ci) (last_pong ci) (client_id ci)
    (connect_time ci) (keep_alive_task ci).

(** The state reached just before the transport is closed: the entry is
    marked and the counter decremented. *)
Definition disconnect_mark (m : manager) (ws : websocket) (ci : conn_info)
    : manager :=
  set_connections m (<[ws := mark_inactive ci]> (active_connections m))
    (Z.max 0 (connection_count m - 1)).

(** [disconnect(websocket)], run without interleaving. An exception of
    [keep_alive_task] or of [websocket.close] is caught and logged, and does
    not change the state. *)
Definition disconnect (m : manager) (ws : websocket) : manager * list effect :=
  match active_connections m !! ws with
  | None => (m, [])
  | Some ci =>
      let cancelled := match keep_alive_task ci with
                       | Some h => [TaskCancelled h]
                       | None => []
                       end in
      let m1 := disconnect_mark m ws ci in
      (set_connections m1 (delete ws (active_connections m1))
         (connection_count m1),
       cancelled ++ [TransportClosed ws "Normal closure"])
  end.

(** ** Battle coordinator: [attack_planet] and [_simulate_battle] *)

(** The payload of an [attack_planet] command. *)
Record attack_msg : Type := mk_attack_msg {
  from_id : option string;
  planet_id : option string;
  amount : option Z
}.

(** The planet search of [attack_planet]: the whole universe is scanned
    and the last planet with the id is kept. *)
Fixpoint find_planet_from (i : nat) (pid : option string) (ps : list planet)
    (found : option (nat * planet)) : option (nat * planet) :=
  match ps with
  | [] => found
  | p :: ps' =>
      find_planet_from (S i) pid ps'
        (if decide (Some (p_id p) = pid) then Some (i, p) else found)
  end.

Definition find_planet (m : manager) (pid : option string)
    : option (nat * planet) :=
  find_planet_from 0 pid (universe m) None.

(** Life cycle of a battle. *)
Inductive battle_state : Type := Started | Ticking | Resolved.

(** A battle task created by [asyncio.create_task]: the arguments of the
    call and how far it has run. The task is [done()] once [Resolved]. *)
Record battle_task : Type := mk_battle_task {
  bt_websocket : websocket;
  bt_attacker : string;
  bt_source : nat;
  bt_target : nat;
  bt_target_id : string;
  bt_attacker_count : Z;
  bt_state : battle_state
}.

Definition set_state (bt : battle_task) (st : battle_state) : battle_task :=
  mk_battle_task (bt_websocket bt) (bt_attacker bt) (bt_source bt)
    (bt_target bt) (bt_target_id bt) (bt_attacker_count bt) st.

(** The manager together with the event loop's battle tasks. *)
Record sched : Type := mk_sched {
  mgr : manager;
  tasks : gmap task_handle battle_task;
  next_handle : task_handle
}.

Definition is_resolved (st : battle_state) : bool :=
  match st with Resolved => true | _ => false end.

(** [task.done()] *)
Definition task_done (s : sched) (h : task_handle) : bool :=
  match tasks s !! h with
  | Some bt => is_resolved (bt_state bt)
  | None => true
  end.

(** [target_id in self.active_battles and not self.active_battles[target_id].done()] *)
Definition battle_in_progress (s : sched) (target_id : string) : bool :=
  match active_battles (mgr s) !! target_id with
  | Some h => negb (task_done s h)
  | None => false
  end.

(** [attack_planet(websocket, message)]. Every write to the state happens
    before the handler's only [await] (the sending of an error), so the
    handler is one atomic segment. *)
Definition attack_planet (s : sched) (ws : websocket) (msg : attack_msg)
    : sched * list message :=
  match active_connections (mgr s) !! ws with
  | None => (s, [MsgError "KeyError"])
  | Some ci =>
      let wallet := client_id ci in
      let amount := default 20%Z (amount msg) in
      match find_planet (mgr s) (from_id msg),
            find_planet (mgr s) (planet_id msg) with
      | Some (si, source), Some (ti, target) =>
          let target_id := p_id target in
          if battle_in_progress s target_id then
            (s, [MsgError "Battle already in progress at this planet."])
          else
            let battle_task := next_handle s in
            (mk_sched
               (set_active_battles (mgr s)
                  (<[target_id := battle_task]> (active_battles (mgr s))))
               (<[battle_task :=
                    mk_battle_task ws wallet si ti target_id amount Started]>
                  (tasks s))
               (S (next_handle s)),
             [])
      | _, _ => (s, [MsgError "Source or target planet not found"])
      end
  end.

(** The [finally] clause of [_simulate_battle]. *)
Definition battle_finally (m : manager) (target_id : string) : manager :=
  set_active_battles m (delete target_id (active_battles m)).

(** What one run of [_simulate_battle] reads from outside. [fail_at] is the
    position of the first battle event whose send raises (0 is
    [battle_started], [1..duration] the updates, [duration + 1] the
    result), if any. *)
Record battle_env : Type := mk_battle_env {
  env_now_ts : Z;
  env_rnd : Q;
  env_fail_at : option nat;
  env_state_time : Q;
  env_state_now_ts : Z;
  env_state_send_ok : bool
}.

Definition a_total_of (a_mult : py_result) : Q :=
  match a_mult with
  | RDict r => total r
  | RFloat _ => 1
  end.

Definition battle_updates (target_id attacker_wallet : string)
    (defender_wallet : option string) (attacker_count defender_count : Z)
    (o : outcome) (dur : Z) : list message :=
  (fun i => MsgBattleUpdate target_id attacker_wallet
              (tick_count attacker_count (attacker_survivors o) i dur)
              defender_wallet
              (tick_count defender_count (defender_survivors o) i dur))
  <$> seqZ 0 dur.

(** The world mutation of [_simulate_battle] after the tick loop: the
    target planet object and its mirror in [territories]. Returns the
    manager, [final_owner] and [final_defense]. *)
Definition resolve_world (m : manager) (attacker_wallet : string)
    (target : nat) (tgt : planet) (o : outcome)
    : manager * option string * Z :=
  let '(tgt', final_defense) := apply_outcome attacker_wallet o tgt in
  (set_world m (<[target := tgt']> (universe m))
     (mirror_territory (p_id tgt)
        (if success o then Some attacker_wallet else None)
        final_defense (territories m)),
   p_controlledBy tgt', final_defense).

(** [_simulate_battle(websocket, attacker_wallet, source, target,
    attacker_count, source_ids)] run without interleaving. A send that
    raises leaves the [try] block: what follows it is skipped, and the
    [finally] clause still runs. *)
Definition _simulate_battle (m : manager) (ws : websocket)
    (attacker_wallet : string) (source target : nat) (attacker_count : Z)
    (source_ids : list string) (env : battle_env) : manager * list message :=
  match universe m !! source, universe m !! target with
  | Some src, Some tgt =>
      let target_id := p_id tgt in
      let defender_wallet := p_controlledBy tgt in
      let defender_count := defender_count_of tgt in
      let initial_defense := default 0%Z (p_defense tgt) in
      let source_ids := match source_ids with
                        | [] => [p_id src]
                        | _ => source_ids
                        end in
      let started := MsgBattleStarted (p_id src) target_id attacker_wallet
                       attacker_count defender_wallet defender_count in
      if decide (env_fail_at env = Some 0%nat) then
        (battle_finally m target_id, [])
      else
        let '(m1, a_mult) :=
          calculate_leverage_multiplier m (env_now_ts env) attacker_wallet in
        let a_total := a_total_of a_mult in
        let ratio := power_ratio attacker_count defender_count a_total in
        let o := battle_outcome attacker_count defender_count a_total
                   (env_rnd env) in
        let dur := duration ratio in
        let updates := battle_updates target_id attacker_wallet
                         defender_wallet attacker_count defender_count o dur in
        let tick_failure :=
          match env_fail_at env with
          | Some k => if decide (k ≤ Z.to_nat dur)%nat then Some k else None
          | None => None
          end in
        match tick_failure with
        | Some k => (battle_finally m1 target_id, started :: take (k - 1) updates)
        | None =>
            let '(m2, final_owner, final_defense) :=
              resolve_world m1 attacker_wallet target tgt o in
            let result := MsgAttackResult
                  (mk_attack_result target_id (success o)
                     (if success o then final_owner else None) final_owner
                     final_defense (py_int (a_total * 100)) initial_defense
                     a_total attacker_count defender_count source_ids
                     attacker_wallet defender_wallet dur
                     (attacker_survivors o) (defender_survivors o)) in
            if decide (env_fail_at env = Some (S (Z.to_nat dur))) then
              (battle_finally m2 target_id, started :: updates)
            else
              let '(m3, sent) :=
                send_game_state m2 ws attacker_wallet (env_state_time env)
                  (env_state_now_ts env) (env_state_send_ok env) in
              (battle_finally m3 target_id,
               started :: updates ++ result :: sent)
        end
  | _, _ => (m, [])
  end.

(** One step of the cooperative scheduler: the code run between two
    suspension points. Only [attack_planet] and the [finally] clause of
    [_simulate_battle] access [active_battles]; every other segment,
    whatever it does to the rest of the manager, leaves it as it is. *)
Inductive sched_step : sched → sched → Prop :=
| step_attack s ws msg :
    sched_step s (fst (attack_planet s ws msg))
| step_battle_tick s h bt m' :
    tasks s !! h = Some bt →
    bt_state bt ≠ Resolved →
    active_battles m' = active_battles (mgr s) →
    sched_step s
      (mk_sched m' (<[h := set_state bt Ticking]> (tasks s)) (next_handle s))
| step_battle_end s h bt m' :
    tasks s !! h = Some bt →
    bt_state bt ≠ Resolved →
    active_battles m' = active_battles (mgr s) →
    sched_step s
      (mk_sched (battle_finally m' (bt_target_id bt))
         (<[h := set_state bt Resolved]> (tasks s)) (next_handle s))
| step_handler s m' :
    active_battles m' = active_battles (mgr s) →
    sched_step s (mk_sched m' (tasks s) (next_handle s)).

(** The state after [__init__]: no task, no active battle. *)
Definition initial (s : sched) : Prop :=
  tasks s = ∅ ∧ active_battles (mgr s) = ∅.

Definition reachable (s : sched) : Prop :=
  ∃ s0, initial s0 ∧ rtc sched_step s0 s.

(** Per-target exclusivity: two unresolved battles on one target id are
    the same battle. *)
Definition exclusive (s : sched) : Prop :=
  ∀ h1 h2 b1 b2,
    tasks s !! h1 = Some b1 → tasks s !! h2 = Some b2 →
    bt_state b1 ≠ Resolved → bt_state b2 ≠ Resolved →
    bt_target_id b1 = bt_target_id b2 → h1 = h2.

(** ** The specification's tick formula *)

(** Python's [round]: to the nearest integer, ties to the even one. *)
Definition py_round (q : Q) : Z :=
  let f := Qfloor q in
  let r := q - inject_Z f in
  if Qlt_bool r (1 # 2) then f
  else if Qlt_bool (1 # 2) r then (f + 1)%Z
  else if Z.even f then f else (f + 1)%Z.

(** The tick count as the specification words it:
    [clamp(round(10 / max(0.1, ratio)), 2, 5)]. To be compared with
    [duration], which is what the source computes. *)
Definition spec_tick_count (ratio : Q) : Z :=
  Z.min 5 (Z.max 2 (py_round (10 / Qmax 0.1 ratio))).

(** ** Auxiliary views used in the statements *)

Definition dict_keys {V : Type} (d : dict V) : list string := map fst d.

(** A buff still running at [now_ts]. *)
Definition unexpired (now_ts : Z) (kb : string * buff) : Prop :=
  (now_ts < b_expires_at (snd kb))%Z.

#[global] Instance unexpired_dec (now_ts : Z) (kb : string * buff) :
  Decision (unexpired now_ts kb).
Proof. unfold unexpired. apply _. Defined.

(** A buff that counts: still running and of positive level. *)
Definition counted (now_ts : Z) (kb : string * buff) : bool :=
  (now_ts <? b_expires_at (snd kb))%Z && Qlt_bool 0 (b_level (snd kb)).

(** The profile with the buffs that expired by [now_ts] left out. *)
Definition drop_expired (now_ts : Z) (p : profile) : profile :=
  mk_profile (territory_bonus p) (resource_bonus p) (mission_bonus p)
    (level_bonus p) (achievement_bonus p) (research p)
    (Some (filter (unexpired now_ts) (default [] (temp_buffs p)))).

(** Every reported bonus is positive and within its cap. *)
Definition within_cap (b : bonus) : Prop := 0 < value b ∧ value b <= max b.

(** The seven contributions that enter the total: each is capped from
    above; the level and research contributions count only when
    positive. *)
Definition contributions (m : manager) (now_ts : Z) (wallet : string)
    (data : profile) (c : character) : list Q :=
  [ territory_bonus_of m wallet;
    resource_bonus_of c;
    mission_bonus_of (default [] (missions m !! wallet));
    Qmax 0 (level_bonus_of c);
    achievement_bonus_of m wallet;
    Qmax 0 (research_total_of data);
    temp_total_of now_ts data ].

(** The caps of the seven contributions, in the same order. *)
Definition caps : list Q := [0.3; 0.2; 0.25; 0.25; 0.2; 0.3; 0.2].

(** ** Sample states *)

Definition empty_manager : manager :=
  mk_manager ∅ 0 ∅ [] ∅ ∅ ∅ ∅ 300 [] ∅.

(** The scenario of the specification: three owned territories, three
    resource types held, level 4, nothing else. *)
Definition alice_character : character :=
  mk_character "Commander 1" 4 0
    [("energy"%string, 1000); ("minerals"%string, 500);
     ("crystals"%string, 250); ("gas"%string, 0)].

Definition alice_profile : profile :=
  mk_profile 0 None 0 0 None (Some []) None.

Definition alice_territory (i : string) : territory :=
  mk_territory i (Some "alice"%string) None.

Definition alice_manager : manager :=
  mk_manager ∅ 0 {[ "alice"%string := alice_character ]}
    [alice_territory "territory-0"; alice_territory "territory-1";
     alice_territory "territory-2"]
    ∅ {[ "alice"%string := alice_profile ]} ∅ ∅ 300 [] ∅.

(** A level-1 player with one buff expiring at 100 and one at 160. *)
Definition bob_character : character := mk_character "Commander 2" 1 0 [].

Definition bob_profile : profile :=
  mk_profile 0 None 0 0 None None
    (Some [("attack_boost"%string, mk_buff 0.05 100);
           ("shield"%string, mk_buff 0.10 160)]).

Definition bob_manager : manager :=
  mk_manager ∅ 0 {[ "bob"%string := bob_character ]} [] ∅
    {[ "bob"%string := bob_profile ]} ∅ ∅ 300 [] ∅.

(** A connected player owning a home planet, next to a planet held by a
    bot. *)
Definition carol_conn : conn_info :=
  mk_conn_info true 0 0 "carol" 0 (Some 1%nat).

Definition carol_home : planet :=
  mk_planet "planet-system-0-0" "P1 of SYSTEM-0" (Some "carol"%string)
    (Some 3%Z).

Definition bot_planet : planet :=
  mk_planet "planet-system-0-1" "P2 of SYSTEM-0" (Some "bot_1"%string)
    (Some 1%Z).

Definition carol_manager : manager :=
  mk_manager {[ 7%nat := carol_conn ]} 1 {[ "carol"%string := bob_character ]}
    [] ∅ {[ "carol"%string := alice_profile ]} ∅ ∅ 300
    [carol_home; bot_planet] ∅.

Definition carol_attack : attack_msg :=
  mk_attack_msg (Some "planet-system-0-0"%string)
    (Some "planet-system-0-1"%string) (Some 100%Z).

(** The scheduler right after start-up, and after Carol's attack command
    has been accepted. *)
Definition carol_sched : sched := mk_sched carol_manager ∅ 0%nat.

Definition carol_attacking : sched :=
  fst (attack_planet carol_sched 7%nat carol_attack).

(** What the coordinator keeps true: every task handle is below the next
    fresh handle, and every unresolved battle is the one registered in
    [active_battles] under its target id. *)
Definition coordinator_inv (s : sched) : Prop :=
  (∀ h bt, tasks s !! h = Some bt → (h < next_handle s)%nat)
  ∧ (∀ h bt, tasks s !! h = Some bt → bt_state bt ≠ Resolved →
       active_battles (mgr s) !! bt_target_id bt = Some h).

(** ** Further definitions *)

(** [_find_planet(planet_id)]: the first planet with the id, as a
    reference (position and object). *)
Fixpoint _find_planet_from (i : nat) (pid : option string) (ps : list planet)
    : option (nat * planet) :=
  match ps with
  | [] => None
  | p :: ps' =>
      if decide (Some (p_id p) = pid) then Some (i, p)
      else _find_planet_from (S i) pid ps'
  end.

Definition _find_planet (m : manager) (pid : option string)
    : option (nat * planet) :=
  _find_planet_from 0 pid (universe m).

(** What the registry of battles keeps true besides exclusivity: handles
    are below the next fresh one, and a registered task fights over the
    target id it is registered under. *)
Definition registry_inv (s : sched) : Prop :=
  (∀ tid h, active_battles (mgr s) !! tid = Some h → (h < next_handle s)%nat)
  ∧ (∀ h bt, tasks s !! h = Some bt → (h < next_handle s)%nat)
  ∧ (∀ tid h bt, active_battles (mgr s) !! tid = Some h →
       tasks s !! h = Some bt → bt_target_id bt = tid).


Definition lossy_env : battle_env :=
  mk_battle_env 1000 (1 # 2) (Some 1%nat) 1000 1000 true.

(** ** Command handlers *)

(** The exceptions a handler turns into an [error] event; the payload of
    the event is [str(e)]. [NotEnough what need have] stands for the
    [ValueError] whose text is built from the resource name, the amount
    needed and the amount held; [TransportError] for whatever
    [send_json] raised. *)
Inductive py_error : Type :=
| ValueError (text : string)
| NotEnough (what : string) (need : Z) (have : Q)
| KeyError (key : string)
| KeyErrorSession (ws : websocket)
| TransportError.

(** The events a handler delivers. The free-text ["message"] fields and
    positions are left out. *)
Inductive reply : Type :=
| ReplyError (e : py_error)
| ReplyState (msg : message)
| ReplyLeverageChanged (data : py_result)
| ReplyResearchDeployed (tech : string) (level : Q) (temp_level : Q)
| ReplyResearchCompleted (tech : string) (level : Q) (cost : Z)
| ReplyPlanetUpdated (planet_id : string) (defense : Z) (owner : option string)
| ReplyHarvest (planet_id : string) (energy minerals : Z)
| ReplyDefense (upgraded : Z) (cost : Z)
| ReplyExploration (discovered : list territory)
| ReplyConnectionStatus (client_id : string).

(** The transport as a handler meets it: [Healthy], or [Broken], in which
    case the first [send_json] of the handler raises, and the error
    report of the [except] clause is delivered or not. *)
Inductive transport : Type :=
| Healthy
| Broken (error_delivered : bool).

(** What a handler reads from outside: the transport, and the clock reads
    and send results of the [send_game_state] and
    [_emit_leverage_changed] calls that close it. *)
Record handler_env : Type := mk_handler_env {
  he_transport : transport;
  he_state_time : Q;
  he_state_now_ts : Z;
  he_state_send_ok : bool;
  he_emit_now_ts : Z;
  he_emit_send_ok : bool
}.

(** What the synchronous part of a handler (the code before its first
    [await]) ends with: an exception, or the first event to send. *)
Inductive segment_end : Type :=
| Raised (e : py_error)
| Sends (first : reply)
| Silent.

Definition set_characters (m : manager) (cs : gmap string character)
    : manager :=
  mk_manager (active_connections m) (connection_count m) cs (territories m)
    (missions m) (leverage_data m) (achievements m) (last_game_state_send m)
    (game_state_throttle_seconds m) (universe m) (active_battles m).

Definition set_missions (m : manager) (ms : gmap string (list mission))
    : manager :=
  mk_manager (active_connections m) (connection_count m) (characters m)
    (territories m) ms (leverage_data m) (achievements m)
    (last_game_state_send m) (game_state_throttle_seconds m) (universe m)
    (active_battles m).

Definition set_resources (c : character) (r : dict Q) : character :=
  mk_character (ch_name c) (ch_level c) (ch_experience c) r.

(** [self.characters[wallet]["resources"][key] += x] on a character that
    exists: [KeyError] when the resource is missing. *)
Definition add_resource (m : manager) (wallet : string) (c : character)
    (key : string) (x : Q) : option manager :=
  match dict_get key (ch_resources c) with
  | Some v =>
      Some (set_characters m
              (<[wallet := set_resources c
                             (dict_set key (v + x) (ch_resources c))]>
                 (characters m)))
  | None => None
  end.

(** The closing [await self.send_game_state(websocket, wallet)]. *)
Definition push_state (env : handler_env) (ws : websocket) (wallet : string)
    (m : manager) : manager * list reply :=
  let r := send_game_state m ws wallet (he_state_time env)
             (he_state_now_ts env) (he_state_send_ok env) in
  (r.1, ReplyState <$> r.2).

(** [_emit_leverage_changed(websocket, wallet)]: a failing send is
    swallowed. *)
Definition _emit_leverage_changed (env : handler_env) (wallet : string)
    (m : manager) : manager * list reply :=
  let r := calculate_leverage_multiplier m (he_emit_now_ts env) wallet in
  (r.1, if he_emit_send_ok env then [ReplyLeverageChanged r.2] else []).

Definition push_then_emit (env : handler_env) (ws : websocket)
    (wallet : string) (m : manager) : manager * list reply :=
  let r1 := push_state env ws wallet m in
  let r2 := _emit_leverage_changed env wallet r1.1 in
  (r2.1, r1.2 ++ r2.2).

(** A handler: its synchronous part, then either the error report of the
    [except] clause, or the first send followed by the closing calls. *)
Definition run_handler (env : handler_env) (seg : manager * segment_end)
    (closing : manager → manager * list reply) : manager * list reply :=
  match seg.2 with
  | Raised e =>
      (seg.1, match he_transport env with
              | Healthy => [ReplyError e]
              | Broken _ => []
              end)
  | Sends first =>
      match he_transport env with
      | Healthy => let r := closing seg.1 in (r.1, first :: r.2)
      | Broken error_delivered =>
          (seg.1, if error_delivered then [ReplyError TransportError] else [])
      end
  | Silent => closing seg.1
  end.

Record research_msg : Type := mk_research_msg {
  rm_tech : option string;
  rm_cost : option Z
}.

Definition set_research_and_buffs (p : profile) (r : dict Q) (tb : dict buff)
    : profile :=
  mk_profile (territory_bonus p) (resource_bonus p) (mission_bonus p)
    (level_bonus p) (achievement_bonus p) (Some r) (Some tb).

(** [deploy_research] up to its first [await]; [now_ts] is
    [int(time.time())]. *)
Definition deploy_research_segment (m : manager) (ws : websocket)
    (msg : research_msg) (now_ts : Z) : manager * segment_end :=
  match active_connections m !! ws with
  | None => (m, Raised (KeyErrorSession ws))
  | Some ci =>
      let wallet := client_id ci in
      let tech := default "attack_boost"%string (rm_tech msg) in
      let cost := default 20%Z (rm_cost msg) in
      match characters m !! wallet with
      | None => (m, Raised (KeyError wallet))
      | Some c =>
          match dict_get "energy" (ch_resources c) with
          | None => (m, Raised (KeyError "energy"))
          | Some energy =>
              if Qlt_bool energy (inject_Z cost) then
                (m, Raised (ValueError "Not enough energy"))
              else
                let m1 := set_characters m
                            (<[wallet := set_resources c
                                 (dict_set "energy" (energy - inject_Z cost)
                                    (ch_resources c))]> (characters m)) in
                match leverage_data m1 !! wallet with
                | None => (m1, Raised (KeyError wallet))
                | Some data =>
                    let research0 := default [] (research data) in
                    let level_r := default 0 (dict_get tech research0) + 0.05 in
                    let tbuffs := default [] (temp_buffs data) in
                    let level := match dict_get tech tbuffs with
                                 | Some b => b_level b
                                 | None => 0
                                 end + 0.05 in
                    let data' :=
                      set_research_and_buffs data
                        (dict_set tech level_r research0)
                        (dict_set tech (mk_buff level (now_ts + 60)) tbuffs) in
                    (set_leverage_data m1
                       (<[wallet := data']> (leverage_data m1)),
                     Sends (ReplyResearchDeployed tech level_r level))
                end
          end
      end
  end.

Definition wallet_of (m : manager) (ws : websocket) : string :=
  match active_connections m !! ws with
  | Some ci => client_id ci
  | None => ""
  end.

(** [deploy_research(websocket, message)] *)
Definition deploy_research (m : manager) (ws : websocket)
    (msg : research_msg) (now_ts : Z) (env : handler_env)
    : manager * list reply :=
  run_handler env (deploy_research_segment m ws msg now_ts)
    (push_then_emit env ws (wallet_of m ws)).

Record planet_msg : Type := mk_planet_msg {
  pm_planet_id : option string;
  pm_cost : option Z
}.

Definition set_defense (p : planet) (d : Z) : planet :=
  mk_planet (p_id p) (p_name p) (p_controlledBy p) (Some d).

(** [build_satellite] up to its first [await]. *)
Definition build_satellite_segment (m : manager) (ws : websocket)
    (msg : planet_msg) : manager * segment_end :=
  match active_connections m !! ws with
  | None => (m, Raised (KeyErrorSession ws))
  | Some ci =>
      let wallet := client_id ci in
      let cost := default 25%Z (pm_cost msg) in
      match _find_planet m (pm_planet_id msg) with
      | None => (m, Raised (ValueError "Planet not found"))
      | Some (i, planet) =>
          if decide (p_controlledBy planet = Some wallet) then
            match characters m !! wallet with
            | None => (m, Raised (KeyError wallet))
            | Some c =>
                match dict_get "minerals" (ch_resources c) with
                | None => (m, Raised (KeyError "minerals"))
                | Some minerals =>
                    if Qlt_bool minerals (inject_Z cost) then
                      (m, Raised (ValueError "Not enough minerals"))
                    else
                      let m1 := set_characters m
                                  (<[wallet := set_resources c
                                       (dict_set "minerals"
                                          (minerals - inject_Z cost)
                                          (ch_resources c))]> (characters m)) in
                      let defense := (default 0 (p_defense planet) + 1)%Z in
                      (set_world m1
                         (<[i := set_defense planet defense]> (universe m1))
                         (mirror_territory (p_id planet) None defense
                            (territories m1)),
                       Sends (ReplyPlanetUpdated (p_id planet) defense
                                (p_controlledBy planet)))
                end
            end
          else (m, Raised (ValueError "You do not control this planet"))
      end
  end.

(** [build_satellite(websocket, message)] *)
Definition build_satellite (m : manager) (ws : websocket) (msg : planet_msg)
    (env : handler_env) : manager * list reply :=
  run_handler env (build_satellite_segment m ws msg)
    (push_state env ws (wallet_of m ws)).

(** [harvest_planet] up to its first [await]. [now_ts] is the clock read
    of the scoring call, [r_energy] and [r_minerals] the values of
    [random.randint(8, 18)] and [random.randint(5, 12)]. *)
Definition harvest_planet_segment (m : manager) (ws : websocket)
    (msg : planet_msg) (now_ts : Z) (r_energy r_minerals : Z)
    : manager * segment_end :=
  match active_connections m !! ws with
  | None => (m, Raised (KeyErrorSession ws))
  | Some ci =>
      let wallet := client_id ci in
      match _find_planet m (pm_planet_id msg) with
      | None => (m, Raised (ValueError "Planet not found"))
      | Some (i, planet) =>
          if decide (p_controlledBy planet = Some wallet) then
            let '(m1, mult_data) :=
              calculate_leverage_multiplier m now_ts wallet in
            let total_mult := a_total_of mult_data in
            let gain_energy := py_int (inject_Z r_energy * total_mult) in
            let gain_minerals := py_int (inject_Z r_minerals * total_mult) in
            match characters m1 !! wallet with
            | None => (m1, Raised (KeyError wallet))
            | Some c =>
                match add_resource m1 wallet c "energy" (inject_Z gain_energy) with
                | None => (m1, Raised (KeyError "energy"))
                | Some m2 =>
                    match characters m2 !! wallet with
                    | None => (m2, Raised (KeyError wallet))
                    | Some c2 =>
                        match add_resource m2 wallet c2 "minerals"
                                (inject_Z gain_minerals) with
                        | None => (m2, Raised (KeyError "minerals"))
                        | Some m3 =>
                            (m3, Sends (ReplyHarvest (p_id planet)
                                          gain_energy gain_minerals))
                        end
                    end
                end
            end
          else (m, Raised (ValueError "You do not control this planet"))
      end
  end.

(** [harvest_planet(websocket, message)] *)
Definition harvest_planet (m : manager) (ws : websocket) (msg : planet_msg)
    (now_ts : Z) (r_energy r_minerals : Z) (env : handler_env)
    : manager * list reply :=
  run_handler env
    (harvest_planet_segment m ws msg now_ts r_energy r_minerals)
    (push_then_emit env ws (wallet_of m ws)).

(** Truth value of a [controlledBy] entry: [None] and the empty string
    count as unowned. *)
Definition owned (o : option string) : bool :=
  match o with
  | Some w => negb (String.eqb w "")
  | None => false
  end.

(** [next((t for t in self.territories if t["id"] == territory_id), None)] *)
Fixpoint find_territory_from (i : nat) (tid : string) (ts : list territory)
    : option (nat * territory) :=
  match ts with
  | [] => None
  | t :: ts' =>
      if String.eqb (t_id t) tid then Some (i, t)
      else find_territory_from (S i) tid ts'
  end.

Definition set_owner (t : territory) (w : string) : territory :=
  mk_territory (t_id t) (Some w) (t_defense t).

Definition set_territory_bonus (p : profile) (b : Q) : profile :=
  mk_profile b (resource_bonus p) (mission_bonus p) (level_bonus p)
    (achievement_bonus p) (research p) (temp_buffs p).

(** [claim_territory] up to its first [await]; [wallet] and
    [territory_id] are read from the payload. *)
Definition claim_territory_segment (m : manager) (wallet territory_id : string)
    : manager * segment_end :=
  match characters m !! wallet with
  | None => (m, Raised (ValueError "Character not found"))
  | Some _ =>
      match find_territory_from 0 territory_id (territories m) with
      | None => (m, Raised (ValueError "Territory not found"))
      | Some (i, t) =>
          if owned (t_controlledBy t) then
            (m, Raised (ValueError "Territory already controlled"))
          else
            let m1 := set_world m (universe m)
                        (<[i := set_owner t wallet]> (territories m)) in
            let controlled_territories := territory_count m1 wallet in
            match leverage_data m1 !! wallet with
            | None => (m1, Raised (KeyError wallet))
            | Some data =>
                (set_leverage_data m1
                   (<[wallet := set_territory_bonus data
                                  (inject_Z controlled_territories * 0.05)]>
                      (leverage_data m1)),
                 Silent)
            end
      end
  end.

(** [claim_territory(websocket, data)] *)
Definition claim_territory (m : manager) (ws : websocket)
    (wallet territory_id : string) (env : handler_env) : manager * list reply :=
  run_handler env (claim_territory_segment m wallet territory_id)
    (push_state env ws wallet).

(** The defense upgrade of [defend_all] on one territory. *)
Definition upgrade_defense (wallet : string) (t : territory) : territory :=
  if decide (t_controlledBy t = Some wallet) then
    mk_territory (t_id t) (t_controlledBy t)
      (Some (default 0 (t_defense t) + 1)%Z)
  else t.

(** [defend_all] up to its first [await]. *)
Definition defend_all_segment (m : manager) (ws : websocket)
    : manager * segment_end :=
  match active_connections m !! ws with
  | None => (m, Raised (KeyErrorSession ws))
  | Some ci =>
      let wallet := client_id ci in
      match characters m !! wallet with
      | None => (m, Raised (ValueError "Character not found"))
      | Some c =>
          let controlled := territory_count m wallet in
          if (controlled =? 0)%Z then
            (m, Raised (ValueError "No territories to defend"))
          else
            let total_cost := (50 * controlled)%Z in
            match dict_get "energy" (ch_resources c) with
            | None => (m, Raised (KeyError "energy"))
            | Some energy =>
                if Qlt_bool energy (inject_Z total_cost) then
                  (m, Raised (NotEnough "energy" total_cost energy))
                else
                  let m1 := set_characters m
                              (<[wallet := set_resources c
                                   (dict_set "energy"
                                      (energy - inject_Z total_cost)
                                      (ch_resources c))]> (characters m)) in
                  (set_world m1 (universe m1)
                     (upgrade_defense wallet <$> territories m1),
                   Sends (ReplyDefense controlled total_cost))
            end
      end
  end.

(** [defend_all(websocket, message)] *)
Definition defend_all (m : manager) (ws : websocket) (env : handler_env)
    : manager * list reply :=
  run_handler env (defend_all_segment m ws) (push_state env ws (wallet_of m ws)).

(** The two sectors [explore_new_sectors] creates for a player who
    controls [existing_count] territories. *)
Definition new_sectors (wallet : string) (existing_count : Z)
    : list territory :=
  (fun i => mk_territory
              ("sector-" +:+ wallet +:+ "-" +:+ pretty (existing_count + i + 1)%Z)
              (Some wallet) (Some 0%Z))
  <$> [0%Z; 1%Z].

(** [explore_new_sectors] up to its first [await]. *)
Definition explore_new_sectors_segment (m : manager) (ws : websocket)
    : manager * segment_end :=
  match active_connections m !! ws with
  | None => (m, Raised (KeyErrorSession ws))
  | Some ci =>
      let wallet := client_id ci in
      match characters m !! wallet with
      | None => (m, Raised (ValueError "Character not found"))
      | Some _ =>
          let new_territories := new_sectors wallet (territory_count m wallet) in
          (set_world m (universe m) (territories m ++ new_territories),
           Sends (ReplyExploration new_territories))
      end
  end.

(** [explore_new_sectors(websocket, message)] *)
Definition explore_new_sectors (m : manager) (ws : websocket)
    (env : handler_env) : manager * list reply :=
  run_handler env (explore_new_sectors_segment m ws)
    (push_state env ws (wallet_of m ws)).

(** [research] up to its first [await]. *)
Definition research_segment (m : manager) (ws : websocket)
    (tech : option string) : manager * segment_end :=
  match active_connections m !! ws with
  | None => (m, Raised (KeyErrorSession ws))
  | Some ci =>
      let wallet := client_id ci in
      match characters m !! wallet with
      | None => (m, Raised (ValueError "Character not found"))
      | Some c =>
          let tech := default "efficiency"%string tech in
          let research_cost := 100%Z in
          match dict_get "crystals" (ch_resources c) with
          | None => (m, Raised (KeyError "crystals"))
          | Some crystals =>
              if Qlt_bool crystals (inject_Z research_cost) then
                (m, Raised (NotEnough "crystals" research_cost crystals))
              else
                let m1 := set_characters m
                            (<[wallet := set_resources c
                                 (dict_set "crystals"
                                    (crystals - inject_Z research_cost)
                                    (ch_resources c))]> (characters m)) in
                match leverage_data m1 !! wallet with
                | None => (m1, Raised (KeyError wallet))
                | Some data =>
                    let research0 := default [] (research data) in
                    let level := default 0 (dict_get tech research0) + 0.05 in
                    (set_leverage_data m1
                       (<[wallet :=
                            mk_profile (territory_bonus data)
                              (resource_bonus data) (mission_bonus data)
                              (level_bonus data) (achievement_bonus data)
                              (Some (dict_set tech level research0))
                              (temp_buffs data)]> (leverage_data m1)),
                     Sends (ReplyResearchCompleted tech level research_cost))
                end
          end
      end
  end.

(** [research(websocket, message)] *)
Definition research_handler (m : manager) (ws : websocket)
    (tech : option string) (env : handler_env) : manager * list reply :=
  run_handler env (research_segment m ws tech)
    (push_state env ws (wallet_of m ws)).

(** A refusal: the handler raised a [ValueError] (plain, or "not
    enough"). *)
Definition refusal (e : segment_end) : Prop :=
  match e with
  | Raised (ValueError _) | Raised (NotEnough _ _ _) => True
  | _ => False
  end.

(** ** Session establishment: [connect] *)

(** [_generate_missions(character_level)]: three fresh missions with no
    progress; [now_ts] is [int(time.time())]. The randomly drawn type,
    territory and reward of a mission are not among the modelled keys. *)
Definition _generate_missions (character_level : Z) (now_ts : Z)
    : list mission :=
  (fun i => mk_mission ("mission-" +:+ pretty now_ts +:+ "-" +:+ pretty i) 0)
  <$> [0%Z; 1%Z; 2%Z].

(** The first planet whose [controlledBy] is unset or empty. *)
Fixpoint first_unclaimed_from (i : nat) (ps : list planet)
    : option (nat * planet) :=
  match ps with
  | [] => None
  | p :: ps' =>
      if owned (p_controlledBy p) then first_unclaimed_from (S i) ps'
      else Some (i, p)
  end.

(** [any(p.get("controlledBy") == wallet ...)] over the universe. *)
Definition owns_planet (m : manager) (wallet : string) : bool :=
  existsb (fun p => bool_decide (p_controlledBy p = Some wallet)) (universe m).

Definition home_planet (p : planet) (wallet : string) : planet :=
  mk_planet (p_id p) (p_name p) (Some wallet)
    (Some (Z.max 3 (default 0 (p_defense p)))%Z).

(** [_ensure_player_home_planet(wallet)] *)
Definition _ensure_player_home_planet (m : manager) (wallet : string)
    : manager :=
  if owns_planet m wallet then m
  else
    match first_unclaimed_from 0 (universe m) with
    | None => m
    | Some (i, p) =>
        set_world m (<[i := home_planet p wallet]> (universe m))
          (match find_territory_from 0 (p_id p) (territories m) with
           | Some (j, t) => <[j := set_owner t wallet]> (territories m)
           | None => territories m ++ [mk_territory (p_id p) (Some wallet) None]
           end)
    end.

(** What one call of [connect] reads from outside: the client address of
    the socket, whether [accept] and the sending of [connection_status]
    return normally, the three clock reads, the keep-alive task created,
    and the inputs of the mission generator and of the first state
    push. *)
Record connect_env : Type := mk_connect_env {
  ce_client_id : string;
  ce_accept_ok : bool;
  ce_status_ok : bool;
  ce_last_ping : Q;
  ce_last_pong : Q;
  ce_connect_time : Q;
  ce_task : task_handle;
  ce_mission_ts : Z;
  ce_state_time : Q;
  ce_state_now_ts : Z;
  ce_state_send_ok : bool
}.

(** What [connect] returns and does. *)
Record connect_result : Type := mk_connect_result {
  cr_manager : manager;
  cr_ok : bool;
  cr_effects : list effect;
  cr_replies : list reply
}.

(** [for existing_ws in existing_connections: await self.disconnect(...)] *)
Fixpoint disconnect_all (m : manager) (l : list websocket)
    : manager * list effect :=
  match l with
  | [] => (m, [])
  | w :: l' =>
      let r := disconnect m w in
      let r' := disconnect_all r.1 l' in
      (r'.1, r.2 ++ r'.2)
  end.

(** The other sessions registered under the client id. *)
Definition existing_connections (m : manager) (cid : string) (ws : websocket)
    : list websocket :=
  (filter (fun e : websocket * conn_info => client_id e.2 = cid ∧ e.1 ≠ ws)
     (map_to_list (active_connections m))).*1.

Definition default_character (m : manager) : character :=
  mk_character ("Commander " +:+ pretty (size (characters m) + 1)%nat) 1 0
    [("energy"%string, 1000); ("minerals"%string, 500);
     ("crystals"%string, 250); ("gas"%string, 100)].

Definition default_profile : profile :=
  mk_profile 0 (Some 0) 0 0 None (Some []) None.

Definition starter_territories (cid : string) : list territory :=
  [mk_territory ("territory-starter-alpha-" +:+ cid) (Some cid) (Some 1%Z);
   mk_territory ("territory-starter-beta-" +:+ cid) (Some cid) (Some 1%Z)].

(** The auto-creation of a character on a first connection. *)
Definition provision (m : manager) (cid : string) (mission_ts : Z) : manager :=
  let m1 := set_characters m (<[cid := default_character m]> (characters m)) in
  let m2 := set_missions m1
              (<[cid := _generate_missions 1 mission_ts]> (missions m1)) in
  let m3 := set_leverage_data m2 (<[cid := default_profile]> (leverage_data m2)) in
  let m4 := set_world m3 (universe m3)
              (territories m3 ++ starter_territories cid) in
  _ensure_player_home_planet m4 cid.

(** [connect] from the handshake on: the socket is not registered. *)
Definition connect_handshake (m : manager) (ws : websocket)
    (env : connect_env) (effects : list effect) : connect_result :=
  let cid := ce_client_id env in
  if ce_accept_ok env then
    let m1 := set_connections m
                (<[ws := mk_conn_info true (ce_last_ping env)
                           (ce_last_pong env) cid (ce_connect_time env)
                           (Some (ce_task env))]> (active_connections m))
                (connection_count m + 1) in
    if ce_status_ok env then
      match characters m1 !! cid with
      | Some _ => mk_connect_result m1 true effects [ReplyConnectionStatus cid]
      | None =>
          let m2 := provision m1 cid (ce_mission_ts env) in
          let r := send_game_state m2 ws cid (ce_state_time env)
                     (ce_state_now_ts env) (ce_state_send_ok env) in
          mk_connect_result r.1 true effects
            (ReplyConnectionStatus cid :: (ReplyState <$> r.2))
      end
    else
      let r := disconnect m1 ws in
      mk_connect_result r.1 false (effects ++ r.2) []
  else
    let r := disconnect m ws in
    mk_connect_result r.1 false (effects ++ r.2) [].

(** [connect(websocket)], run without interleaving. *)
Definition connect (m : manager) (ws : websocket) (env : connect_env)
    : connect_result :=
  let cid := ce_client_id env in
  let r1 := disconnect_all m (existing_connections m cid ws) in
  match active_connections r1.1 !! ws with
  | Some ci =>
      if is_connected ci then mk_connect_result r1.1 true r1.2 []
      else
        let r2 := disconnect r1.1 ws in
        connect_handshake r2.1 ws env (r1.2 ++ r2.2)
  | None => connect_handshake r1.1 ws env r1.2
  end.

(** The session counter agrees with the registry. *)
Definition counter_ok (m : manager) : Prop :=
  connection_count m = Z.of_nat (size (active_connections m)).

(** The game data of the manager: everything but the sessions. *)
Definition game_data (m : manager)
    : gmap string character * list territory * gmap string (list mission)
      * gmap string profile * list planet * gmap string task_handle :=
  (characters m, territories m, missions m, leverage_data m, universe m,
   active_battles m).

(** ** Keep-alive: [_keep_alive] and the pong handler *)

(** [self.ping_timeout], set once in [__init__]. *)
Definition ping_timeout : Q := 15.

Definition set_last_ping (ci : conn_info) (t : Q) : conn_info :=
  mk_conn_info (is_connected ci) t (last_pong ci) (client_id ci)
    (connect_time ci) (keep_alive_task ci).

Definition set_last_pong (ci : conn_info) (t : Q) : conn_info :=
  mk_conn_info (is_connected ci) (last_ping ci) t (client_id ci)
    (connect_time ci) (keep_alive_task ci).

(** The handling of an inbound ["pong"] (and ["ping"]) frame at time
    [t]. *)
Definition record_pong (m : manager) (ws : websocket) (t : Q) : manager :=
  match active_connections m !! ws with
  | Some ci =>
      set_connections m (<[ws := set_last_pong ci t]> (active_connections m))
        (connection_count m)
  | None => m
  end.

(** One round of the loop of [_keep_alive], first half: after the sleep
    of [ping_interval], at time [t], the ping is sent. Returns the state,
    whether the loop goes on, and what was done to sessions. *)
Definition keep_alive_ping (m : manager) (ws : websocket) (t : Q)
    (send_ok : bool) : manager * bool * list effect :=
  match active_connections m !! ws with
  | Some ci =>
      if is_connected ci then
        let m1 := set_connections m
                    (<[ws := set_last_ping ci t]> (active_connections m))
                    (connection_count m) in
        if send_ok then (m1, true, [])
        else let r := disconnect m1 ws in (r.1, false, r.2)
      else (m, false, [])
  | None => (m, false, [])
  end.

(** Second half: after the sleep of [ping_timeout], at time [t], the
    pong is checked. A session that vanished meanwhile raises [KeyError],
    which ends the loop through [disconnect]. *)
Definition keep_alive_check (m : manager) (ws : websocket) (t : Q)
    : manager * bool * list effect :=
  match active_connections m !! ws with
  | Some ci =>
      if Qlt_bool ping_timeout (t - last_pong ci) then
        let r := disconnect m ws in (r.1, false, r.2)
      else (m, true, [])
  | None => let r := disconnect m ws in (r.1, false, r.2)
  end.

(** ** Further sample states *)

Definition dana_character : character :=
  mk_character "Commander 3" 2 0
    [("energy"%string, 1000); ("minerals"%string, 500);
     ("crystals"%string, 250); ("gas"%string, 100)].

Definition dana_conn : conn_info :=
  mk_conn_info true 0 990 "dana" 0 (Some 2%nat).

Definition dana_home : planet :=
  mk_planet "planet-system-1-0" "P1 of SYSTEM-1" (Some "dana"%string)
    (Some 3%Z).

Definition free_planet : planet :=
  mk_planet "planet-system-1-1" "P2 of SYSTEM-1" None (Some 0%Z).

Definition dana_manager : manager :=
  mk_manager {[ 9%nat := dana_conn ]} 1 {[ "dana"%string := dana_character ]}
    [mk_territory "territory-0" (Some "dana"%string) None;
     mk_territory "territory-1" None None]
    ∅ {[ "dana"%string := default_profile ]} ∅ ∅ 300
    [dana_home; free_planet] ∅.

Definition dana_research : research_msg :=
  mk_research_msg (Some "attack_boost"%string) (Some 20%Z).

Definition dana_satellite : planet_msg :=
  mk_planet_msg (Some "planet-system-1-0"%string) (Some 25%Z).

(** A first connection of a new client, everything going well. *)
Definition erin_env : connect_env :=
  mk_connect_env "erin" true true 1000 1000 1000 3%nat 1000 1000 1000 true.

(** ** Combat resolution in binary64 arithmetic *)

(** Lines 582-612 of [_simulate_battle] once more, now on IEEE 754
    doubles ([spec_float] at precision 53, rounding to nearest even) instead
    of exact rationals. The survivor counts and the tick count are
    integers cut out of rounded products and quotients, so they can differ
    from what the exact formulas give; and [attacker_count * a_total]
    raises [OverflowError] when the count has no double. *)
Module F64.

Local Open Scope Z_scope.

Definition prec : Z := 53.
Definition emax : Z := 1024.

(** The exceptions of float arithmetic. [NanToInteger] is the
    [ValueError] of [int(nan)]. *)
Inductive raised : Type :=
| OverflowError
| ZeroDivisionError
| NanToInteger.

Inductive result (A : Type) : Type :=
| Ok (a : A)
| Raise (e : raised).
Arguments Ok {A} a.
Arguments Raise {A} e.

#[global] Instance raised_eq_dec : EqDecision raised.
Proof. solve_decision. Defined.

#[global] Instance result_eq_dec {A : Type} `{EqDecision A} :
  EqDecision (result A).
Proof. solve_decision. Defined.

#[global] Instance result_ret : MRet result := λ A, @Ok A.

#[global] Instance result_bind : MBind result := λ A B f r,
  match r with
  | Ok a => f a
  | Raise e => Raise e
  end.

(** [float(n)] for an [int], as every mixed [int]/[float] operation
    applies it: the nearest double, [OverflowError] beyond the largest. *)
Definition float_of_int (n : Z) : result spec_float :=
  match binary_normalize prec emax n 0 false with
  | S754_infinity _ => Raise OverflowError
  | x => Ok x
  end.

(** [x * y] on floats. *)
Definition mul : spec_float → spec_float → spec_float := SFmul prec emax.

(** [x / y] on floats. *)
Definition py_div (x y : spec_float) : result spec_float :=
  if SFeqb y (S754_zero false) then Raise ZeroDivisionError
  else Ok (SFdiv prec emax x y).

(** The double a decimal literal denotes: [dec 7 1] is [0.7], [dec 85 2] is
    [0.85], [dec 20 1] is [2.0]. Both [digits] and the power of ten have a
    double of their own, so their correctly rounded quotient is the
    double nearest to the decimal. *)
Definition dec (digits : Z) (places : nat) : spec_float :=
  SFdiv prec emax (binary_normalize prec emax digits 0 false)
    (binary_normalize prec emax (10 ^ Z.of_nat places) 0 false).

(** [x >= y] and [x < y] on floats. *)
Definition ge (x y : spec_float) : bool := SFleb y x.
Definition lt (x y : spec_float) : bool := SFltb x y.

(** [max(x, y)]: the second argument only when it is greater. *)
Definition py_max (x y : spec_float) : spec_float :=
  if SFltb x y then y else x.

(** [int(x)] on a float: truncation toward zero. *)
Definition int_of_float (x : spec_float) : result Z :=
  match x with
  | S754_zero _ => Ok 0
  | S754_finite s m e =>
      Ok (cond_Zopp s (match e with
                       | Zneg k => Z.shiftr (Zpos m) (Zpos k)
                       | _ => Z.shiftl (Zpos m) e
                       end))
  | S754_infinity _ => Raise OverflowError
  | S754_nan => Raise NanToInteger
  end.

(** [int(count * factor)] *)
Definition scaled (count : Z) (factor : spec_float) : result Z :=
  c ← float_of_int count; int_of_float (mul c factor).

(** [power_ratio = attacker_count * a_total / max(1, defender_count)] *)
Definition power_ratio (attacker_count defender_count : Z)
    (a_total : spec_float) : result spec_float :=
  a ← float_of_int attacker_count;
  let effective_attack_power := mul a a_total in
  d ← float_of_int (Z.max 1 defender_count);
  py_div effective_attack_power d.

(** The four tiers. Of the two arms of a conditional expression only the
    one chosen is evaluated. *)
Definition battle_outcome (attacker_count defender_count : Z)
    (a_total rnd : spec_float) : result outcome :=
  ratio ← power_ratio attacker_count defender_count a_total;
  if ge ratio (dec 20 1) then
    a ← scaled attacker_count (dec 7 1);
    Ok (mk_outcome true (Z.max 1 a) 0)
  else if ge ratio (dec 15 1) then
    if lt rnd (dec 85 2) then
      a ← scaled attacker_count (dec 5 1);
      Ok (mk_outcome true (Z.max 1 a) 0)
    else
      a ← scaled attacker_count (dec 2 1);
      d ← scaled defender_count (dec 6 1);
      Ok (mk_outcome false (Z.max 0 a) (Z.max 1 d))
  else if ge ratio (dec 10 1) then
    if lt rnd (dec 45 2) then
      a ← scaled attacker_count (dec 3 1);
      Ok (mk_outcome true (Z.max 1 a) 0)
    else
      a ← scaled attacker_count (dec 1 1);
      d ← scaled defender_count (dec 4 1);
      Ok (mk_outcome false (Z.max 0 a) (Z.max 1 d))
  else
    if lt rnd (dec 15 2) then
      a ← scaled attacker_count (dec 2 1);
      Ok (mk_outcome true (Z.max 1 a) 0)
    else
      d ← scaled defender_count (dec 8 1);
      Ok (mk_outcome false 0 (Z.max 1 d)).

(** [duration = min(5, max(2, int(10 * (1 / max(0.1, power_ratio)))))];
    the [int] operands 1 and 10 are the doubles 1.0 and 10.0. *)
Definition duration (power_ratio : spec_float) : result Z :=
  q ← py_div (dec 1 0) (py_max (dec 1 1) power_ratio);
  n ← int_of_float (mul (dec 10 0) q);
  Ok (Z.min 5 (Z.max 2 n)).

(** The rational a double stands for. *)
Definition to_Q (x : spec_float) : Q :=
  match x with
  | S754_finite s m e => inject_Z (cond_Zopp s (Zpos m)) * (2 ^ e)%Q
  | _ => 0%Q
  end.

(** A double of magnitude below 1. *)
Definition fraction (f : spec_float) : Prop :=
  match f with
  | S754_zero _ => True
  | S754_finite _ m e => Zpos m < 2 ^ 53 ∧ e <= -53
  | _ => False
  end.

(** A zero, or a double with an exponent of at most 5. *)
Definition small (x : spec_float) : Prop :=
  match x with
  | S754_zero _ => True
  | S754_finite _ m e => Zpos m < 2 ^ 53 ∧ e <= 5
  | _ => False
  end.

End F64.

(** * Properties *)

(** ** Numeric lemmas *)

Lemma Qlt_bool_iff (x y : Q) : Qlt_bool x y = true ↔ x < y.
Proof.
  unfold Qlt_bool. rewrite negb_true_iff. split.
  - intros H. apply Qnot_le_lt. intros Hle.
    apply Qle_bool_iff in Hle. congruence.
  - intros H. destruct (Qle_bool y x) eqn:E; [|reflexivity].
    apply Qle_bool_iff in E. exfalso. apply (Qlt_not_le _ _ H E).
Qed.

Lemma Qlt_bool_false (x y : Q) : Qlt_bool x y = false ↔ y <= x.
Proof.
  unfold Qlt_bool. rewrite negb_false_iff. apply Qle_bool_iff.
Qed.

(** Truncation of a scaled integer count is integer division. *)
Lemma py_int_scale (n : Z) (p q : positive) :
  py_int (inject_Z n * (Zpos p # q)) = (n * Zpos p ÷ Zpos q)%Z.
Proof. reflexivity. Qed.


(** On a non-negative float, [int] is the floor. *)
Lemma py_int_floor (q : Q) : 0 <= q → py_int q = Qfloor q.
Proof.
  destruct q as [n d]. unfold Qle. simpl. intros H. unfold py_int. simpl.
  apply Z.quot_div_nonneg; lia.
Qed.

Lemma clamp_bounds (x : Q) : 1 <= Qmin (Qmax x 1) 2 <= 2.
Proof.
  split.
  - apply Q.min_glb; [apply Q.le_max_r | lra].
  - apply Q.le_min_r.
Qed.

(** ** Combat resolution *)

(** *** Rounding to binary64 *)

Section Binary64.

Local Open Scope Z_scope.

Lemma shr_1_m (mrs : shr_record) :
  0 <= shr_m mrs → shr_m (shr_1 mrs) = shr_m mrs / 2.
Proof.
  destruct mrs as [m r s]. simpl. intros H. rewrite <- Z.div2_div.
  destruct m as [|[p|p|]|p]; try reflexivity. lia.
Qed.

(** Shifting right [p] times divides the mantissa by [2 ^ p]. *)
Lemma iter_shr_m (p : positive) (mrs : shr_record) :
  0 <= shr_m mrs →
  shr_m (SpecFloat.iter_pos shr_1 p mrs) = shr_m mrs / 2 ^ Zpos p.
Proof.
  revert mrs.
  induction p as [p IH|p IH|]; intros mrs H; simpl SpecFloat.iter_pos.
  - assert (H1 : 0 <= shr_m (shr_1 mrs)).
    { rewrite shr_1_m by exact H. apply Z.div_pos; lia. }
    assert (H2 : 0 <= shr_m (SpecFloat.iter_pos shr_1 p (shr_1 mrs))).
    { rewrite IH by exact H1. apply Z.div_pos; [exact H1|]. lia. }
    rewrite IH by exact H2. rewrite IH by exact H1. rewrite shr_1_m by exact H.
    rewrite !Z.div_div by lia. f_equal.
    rewrite Pos2Z.inj_xI, Z.pow_add_r, Z.pow_mul_r, Z.pow_1_r by lia.
    change (2 ^ 2) with 4. rewrite <- Z.pow_mul_l.
    replace 4 with (2 * 2) by reflexivity.
    rewrite Z.pow_mul_l. lia.
  - assert (H2 : 0 <= shr_m (SpecFloat.iter_pos shr_1 p mrs)).
    { rewrite IH by exact H. apply Z.div_pos; [exact H|]. lia. }
    rewrite IH by exact H2. rewrite IH by exact H.
    rewrite !Z.div_div by lia. f_equal.
    rewrite Pos2Z.inj_xO. rewrite <- Z.pow_add_r by lia. f_equal. lia.
  - rewrite shr_1_m by exact H. reflexivity.
Qed.

Lemma digits2_pos_bounds (m : positive) :
  2 ^ (Zpos (digits2_pos m) - 1) <= Zpos m < 2 ^ Zpos (digits2_pos m).
Proof.
  induction m as [m IH|m IH|]; simpl digits2_pos.
  - rewrite Pos2Z.inj_succ, Z.pow_succ_r by lia.
    replace (Z.succ (Zpos (digits2_pos m)) - 1)
      with (Z.succ (Zpos (digits2_pos m) - 1)) by lia.
    rewrite Z.pow_succ_r by lia. lia.
  - rewrite Pos2Z.inj_succ, Z.pow_succ_r by lia.
    replace (Z.succ (Zpos (digits2_pos m)) - 1)
      with (Z.succ (Zpos (digits2_pos m) - 1)) by lia.
    rewrite Z.pow_succ_r by lia. lia.
  - simpl. lia.
Qed.

Lemma Zdigits2_le (m k : Z) : 0 <= k → 0 <= m < 2 ^ k → Zdigits2 m <= k.
Proof.
  intros Hk [H0 H]. destruct m as [|p|p]; simpl; [lia| |lia].
  destruct (digits2_pos_bounds p) as [Hlo _].
  assert (H1 : 2 ^ (Zpos (digits2_pos p) - 1) < 2 ^ k) by lia.
  apply Z.pow_lt_mono_r_iff in H1; lia.
Qed.

Lemma Zdigits2_lt (m : Z) : 0 <= m → m < 2 ^ Zdigits2 m.
Proof.
  intros H. destruct m as [|p|p]; simpl; [lia| |lia].
  apply digits2_pos_bounds.
Qed.

Lemma div_pow_lt (m d k p : Z) :
  0 <= m < 2 ^ d → 0 <= k → 0 <= p → d <= p + k → m / 2 ^ k < 2 ^ p.
Proof.
  intros [H0 H] Hk Hp Hd. apply Z.div_lt_upper_bound.
  - apply Z.pow_pos_nonneg; lia.
  - rewrite <- Z.pow_add_r by lia. eapply Z.lt_le_trans; [exact H|].
    apply Z.pow_le_mono_r; lia.
Qed.

Lemma round_nearest_even_bounds (m : Z) (l : location) :
  m <= round_nearest_even m l <= m + 1.
Proof.
  unfold round_nearest_even. destruct l as [|[]]; try lia.
  destruct (Z.even m); lia.
Qed.

(** The shift that brings a mantissa to the exponent of its format. *)
Lemma shr_fexp_spec (prec emax M E : Z) (l : location) :
  0 <= M →
  let e' := Z.max E (fexp prec emax (Zdigits2 M + E)) in
  shr_fexp prec emax M E l = ((shr_fexp prec emax M E l).1, e')
  ∧ shr_m (shr_fexp prec emax M E l).1 = M / 2 ^ (e' - E).
Proof.
  intros HM. cbv zeta. unfold shr_fexp, shr.
  assert (Hm : shr_m (shr_record_of_loc M l) = M)
    by (destruct l as [|[]]; reflexivity).
  destruct (fexp prec emax (Zdigits2 M + E) - E) as [|p|p] eqn:En; simpl.
  - replace (Z.max E (fexp prec emax (Zdigits2 M + E))) with E by lia.
    rewrite Z.sub_diag, Z.pow_0_r, Z.div_1_r. split; [reflexivity | exact Hm].
  - replace (Z.max E (fexp prec emax (Zdigits2 M + E))) with (E + Zpos p)
      by lia.
    split; [reflexivity|]. rewrite iter_shr_m by lia. rewrite Hm.
    f_equal. f_equal. lia.
  - replace (Z.max E (fexp prec emax (Zdigits2 M + E))) with E by lia.
    rewrite Z.sub_diag, Z.pow_0_r, Z.div_1_r. split; [reflexivity | exact Hm].
Qed.

(** The two steps of [binary_round_aux], with the shifts written as
    divisions. *)
Lemma binary_round_aux_spec (prec emax : Z) (sx : bool) (M E : Z)
    (l : location) :
  0 <= M →
  let e1 := Z.max E (fexp prec emax (Zdigits2 M + E)) in
  ∃ m2, M / 2 ^ (e1 - E) <= m2 <= M / 2 ^ (e1 - E) + 1
    ∧ let e2 := Z.max e1 (fexp prec emax (Zdigits2 m2 + e1)) in
      binary_round_aux prec emax sx M E l
      = match m2 / 2 ^ (e2 - e1) with
        | Z0 => S754_zero sx
        | Zpos m => if e2 <=? emax - prec then S754_finite sx m e2
                    else S754_infinity sx
        | Zneg _ => S754_nan
        end.
Proof.
  intros HM. cbv zeta. unfold binary_round_aux.
  destruct (shr_fexp_spec prec emax M E l HM) as [E1 M1]. cbv zeta in E1, M1.
  rewrite E1.
  set (m2 := round_nearest_even (shr_m (shr_fexp prec emax M E l).1)
               (loc_of_shr_record (shr_fexp prec emax M E l).1)).
  assert (B2 : M / 2 ^ (Z.max E (fexp prec emax (Zdigits2 M + E)) - E) <= m2
               <= M / 2 ^ (Z.max E (fexp prec emax (Zdigits2 M + E)) - E) + 1).
  { rewrite <- M1. apply round_nearest_even_bounds. }
  exists m2. split; [exact B2|].
  assert (H2 : 0 <= m2).
  { destruct B2 as [B2 _]. etransitivity; [|exact B2].
    apply Z.div_pos; [exact HM|]. apply Z.pow_pos_nonneg; lia. }
  destruct (shr_fexp_spec prec emax m2
              (Z.max E (fexp prec emax (Zdigits2 M + E))) loc_Exact H2)
    as [E2 M2].
  cbv zeta in E2, M2. rewrite E2, M2. reflexivity.
Qed.

(** What [binary_round_aux] returns is a zero, an infinity or a finite
    number whose mantissa has at most [prec] bits. *)
Lemma binary_round_aux_valid (prec emax : Z) (sx : bool) (M E : Z)
    (l : location) :
  0 <= M → 0 <= prec →
  match binary_round_aux prec emax sx M E l with
  | S754_finite _ m e => Zpos m < 2 ^ prec ∧ e <= emax - prec
  | S754_nan => False
  | _ => True
  end.
Proof.
  intros HM Hp.
  destruct (binary_round_aux_spec prec emax sx M E l HM) as (m2 & B2 & ->).
  set (e1 := Z.max E (fexp prec emax (Zdigits2 M + E))) in *.
  set (e2 := Z.max e1 (fexp prec emax (Zdigits2 m2 + e1))).
  assert (H2 : 0 <= m2).
  { destruct B2 as [B2 _]. etransitivity; [|exact B2].
    apply Z.div_pos; [exact HM|]. apply Z.pow_pos_nonneg; lia. }
  assert (H3 : 0 <= m2 / 2 ^ (e2 - e1) < 2 ^ prec).
  { split.
    - apply Z.div_pos; [exact H2|]. apply Z.pow_pos_nonneg; lia.
    - apply div_pow_lt with (Zdigits2 m2).
      + split; [exact H2 | apply Zdigits2_lt, H2].
      + subst e2. lia.
      + exact Hp.
      + subst e2. unfold fexp. lia. }
  destruct (m2 / 2 ^ (e2 - e1)) as [|m|m]; [exact I| |lia].
  destruct (e2 <=? emax - prec) eqn:Ee; [|exact I].
  apply Z.leb_le in Ee. split; [apply H3 | exact Ee].
Qed.

(** [float(n)], when it does not raise, is a zero or a double with a
    mantissa of at most 53 bits and an exponent of at most 971. *)
Lemma float_of_int_valid (n : Z) (x : spec_float) :
  F64.float_of_int n = F64.Ok x →
  match x with
  | S754_zero _ => True
  | S754_finite _ m e => Zpos m < 2 ^ 53 ∧ e <= 971
  | _ => False
  end.
Proof.
  unfold F64.float_of_int, binary_normalize, binary_round.
  destruct n as [|p|p].
  - intros H. injection H as <-. exact I.
  - destruct (shl_align p 0 _) as [mz ez].
    pose proof (binary_round_aux_valid F64.prec F64.emax false (Zpos mz) ez
                  loc_Exact ltac:(lia) ltac:(unfold F64.prec; lia)) as V.
    destruct (binary_round_aux F64.prec F64.emax false (Zpos mz) ez loc_Exact);
      intros H; try discriminate; injection H as <-; exact V.
  - destruct (shl_align p 0 _) as [mz ez].
    pose proof (binary_round_aux_valid F64.prec F64.emax true (Zpos mz) ez
                  loc_Exact ltac:(lia) ltac:(unfold F64.prec; lia)) as V.
    destruct (binary_round_aux F64.prec F64.emax true (Zpos mz) ez loc_Exact);
      intros H; try discriminate; injection H as <-; exact V.
Qed.

(** The product of two doubles whose exponents add up to at most 918
    does not overflow. *)
Lemma mul_finite (sx sy : bool) (mx my : positive) (ex ey : Z) :
  Zpos mx < 2 ^ 53 → Zpos my < 2 ^ 53 → ex + ey <= 918 →
  match F64.mul (S754_finite sx mx ex) (S754_finite sy my ey) with
  | S754_zero _ | S754_finite _ _ _ => True
  | _ => False
  end.
Proof.
  intros Hmx Hmy Hey. unfold F64.mul, SFmul.
  set (M := Zpos (mx * my)). set (E := ex + ey) in *.
  assert (HM : 0 <= M <= (2 ^ 53 - 1) * (2 ^ 53 - 1)).
  { subst M. rewrite Pos2Z.inj_mul. split; [lia|].
    apply Z.mul_le_mono_nonneg; lia. }
  destruct (binary_round_aux_spec F64.prec F64.emax (xorb sx sy) M E
              loc_Exact ltac:(lia)) as (m2 & B2 & ->).
  set (e1 := Z.max E (fexp F64.prec F64.emax (Zdigits2 M + E))) in *.
  set (e2 := Z.max e1 (fexp F64.prec F64.emax (Zdigits2 m2 + e1))).
  assert (Hd : Zdigits2 M <= 106).
  { apply Zdigits2_le; [lia|]. split; [lia|].
    change (2 ^ 106) with (2 ^ 53 * 2 ^ 53).
    change (2 ^ 53) with 9007199254740992 in *. lia. }
  assert (H1 : 0 <= M / 2 ^ (e1 - E)).
  { apply Z.div_pos; [lia|]. apply Z.pow_pos_nonneg; lia. }
  assert (H2 : 0 <= m2) by lia.
  assert (He1 : e1 <= 971).
  { subst e1. unfold fexp, emin, F64.prec, F64.emax. lia. }
  assert (Hm1 : M / 2 ^ (e1 - E) < 2 ^ 53).
  { apply div_pow_lt with (Zdigits2 M).
    - split; [lia | apply Zdigits2_lt; lia].
    - subst e1. lia.
    - lia.
    - subst e1. unfold fexp, F64.prec. lia. }
  assert (Hd2 : Zdigits2 m2 + e1 <= 1024).
  { destruct (Z.eq_dec e1 971) as [E971|Hne].
    - assert (Hk : 53 <= e1 - E) by lia.
      assert (Hq : M / 2 ^ (e1 - E) <= M / 2 ^ 53).
      { apply Z.div_le_compat_l; [lia|]. split; [lia|].
        apply Z.pow_le_mono_r; lia. }
      assert (Hq' : M / 2 ^ 53 <= 2 ^ 53 - 2).
      { apply Z.lt_succ_r. apply Z.div_lt_upper_bound; [lia|].
        change (2 ^ 53) with 9007199254740992 in *. lia. }
      assert (Zdigits2 m2 <= 53).
      { apply Zdigits2_le; [lia|].
        change (2 ^ 53) with 9007199254740992 in *. lia. }
      lia.
    - assert (Zdigits2 m2 <= 54).
      { apply Zdigits2_le; [lia|]. change (2 ^ 54) with (2 * 2 ^ 53).
        change (2 ^ 53) with 9007199254740992 in *. lia. }
      lia. }
  assert (He2 : e2 <= 971).
  { subst e2. unfold fexp, emin, F64.prec, F64.emax. lia. }
  assert (H3 : 0 <= m2 / 2 ^ (e2 - e1)).
  { apply Z.div_pos; [exact H2|]. apply Z.pow_pos_nonneg; lia. }
  destruct (m2 / 2 ^ (e2 - e1)) as [|m|m]; [exact I| |lia].
  replace (e2 <=? F64.emax - F64.prec) with true; [exact I|].
  symmetry. apply Z.leb_le. unfold F64.emax, F64.prec. lia.
Qed.

(** [int(count * factor)] raises nothing once [count] has a double and
    the factor is below 1 in magnitude. *)
Lemma scaled_total (count : Z) (c f : spec_float) :
  F64.float_of_int count = F64.Ok c → F64.fraction f →
  ∃ n, F64.scaled count f = F64.Ok n.
Proof.
  intros Hc Hf. unfold F64.scaled. rewrite Hc. simpl.
  apply float_of_int_valid in Hc.
  destruct c as [sc| | |sc mc ec]; try contradiction;
    destruct f as [sf| | |sf mf ef]; try contradiction.
  - simpl. eauto.
  - simpl. eauto.
  - simpl. eauto.
  - destruct Hc as [Hc1 Hc2]. destruct Hf as [Hf1 Hf2].
    pose proof (mul_finite sc sf mc mf ec ef Hc1 Hf1 ltac:(lia)) as H.
    destruct (F64.mul _ _); try contradiction; simpl; eauto.
Qed.

Lemma power_ratio_converts (a d : Z) (mult r : spec_float) :
  F64.power_ratio a d mult = F64.Ok r →
  ∃ c, F64.float_of_int a = F64.Ok c.
Proof.
  unfold F64.power_ratio. destruct (F64.float_of_int a) as [c|e]; [eauto|].
  discriminate.
Qed.

(** [1 / x] for a double [x] above 0.1: no division by zero, and the
    quotient is a zero or a double of small exponent. *)
Lemma inverse_small (x : spec_float) :
  F64.lt (F64.dec 1 1) x = true →
  ∃ q, F64.py_div (F64.dec 1 0) x = F64.Ok q ∧ F64.small q.
Proof.
  replace (F64.dec 1 1) with (S754_finite false 7205759403792794 (-56))
    by (vm_compute; reflexivity).
  replace (F64.dec 1 0) with (S754_finite false 4503599627370496 (-52))
    by (vm_compute; reflexivity).
  unfold F64.lt, SFltb, F64.py_div.
  destruct x as [s|s| |s m e]; simpl SFcompare.
  - discriminate.
  - destruct s; [discriminate|]. intros _. eexists. split; [reflexivity|].
    exact I.
  - discriminate.
  - destruct s; [discriminate|]. intros Hlt.
    assert (He : -56 <= e).
    { destruct e as [|p|p]; [lia | lia |].
      destruct (Pos.compare_spec 56 p) as [E|E|E]; simpl in Hlt;
        [lia | discriminate | lia]. }
    clear Hlt. simpl SFeqb. cbv iota. eexists. split; [reflexivity|].
    unfold SFdiv, SFdiv_core_binary.
    set (e' := Z.min (fexp F64.prec F64.emax
                        (Zdigits2 4503599627370496 + -52 - (Zdigits2 (Zpos m) + e)))
                 (-52 - e)).
    set (sh := -52 - e - e').
    set (m' := match sh with
               | 0 => 4503599627370496
               | Zpos _ => Z.shiftl 4503599627370496 sh
               | Zneg _ => 0
               end).
    assert (Hsh : 0 <= sh) by (subst sh e'; lia).
    assert (Hm' : 0 <= m' <= 2 ^ 52 * 2 ^ sh).
    { subst m'. destruct sh as [|p|p] eqn:Es.
      - simpl. lia.
      - rewrite Z.shiftl_mul_pow2 by lia.
        change 4503599627370496 with (2 ^ 52). split; [|lia].
        apply Z.mul_nonneg_nonneg; [lia|]. apply Z.pow_nonneg. lia.
      - lia. }
    pose proof (Z_div_mod m' (Zpos m) ltac:(lia)) as Hdm.
    destruct (Z.div_eucl m' (Zpos m)) as [q r].
    destruct Hdm as [Hdm Hr].
    assert (Hq : 0 <= q <= m') by nia.
    pose proof (binary_round_aux_valid F64.prec F64.emax (xorb false false)
                  q e' (new_location (Zpos m) r) ltac:(lia)
                  ltac:(unfold F64.prec; lia)) as V.
    destruct (binary_round_aux_spec F64.prec F64.emax (xorb false false) q e'
                (new_location (Zpos m) r) ltac:(lia)) as (m2 & B2 & Eq).
    rewrite Eq in V |- *. clear Eq.
    set (e1 := Z.max e' (fexp F64.prec F64.emax (Zdigits2 q + e'))) in *.
    set (e2 := Z.max e1 (fexp F64.prec F64.emax (Zdigits2 m2 + e1))) in *.
    assert (Hdq : Zdigits2 q <= 53 + sh).
    { apply Zdigits2_le; [lia|]. split; [lia|].
      rewrite Z.pow_add_r by lia. change (2 ^ 53) with (2 * 2 ^ 52).
      assert (0 < 2 ^ sh) by (apply Z.pow_pos_nonneg; lia).
      change (2 ^ 52) with 4503599627370496 in *. nia. }
    assert (He' : e' <= 4) by (subst e'; lia).
    assert (He1 : e1 <= 4).
    { subst e1 sh. unfold fexp, emin, F64.prec, F64.emax in *. lia. }
    assert (H1 : 0 <= q / 2 ^ (e1 - e')).
    { apply Z.div_pos; [lia|]. apply Z.pow_pos_nonneg; lia. }
    assert (Hm1 : q / 2 ^ (e1 - e') < 2 ^ 53).
    { apply div_pow_lt with (Zdigits2 q).
      - split; [lia | apply Zdigits2_lt; lia].
      - subst e1. lia.
      - lia.
      - subst e1. unfold fexp, F64.prec. lia. }
    assert (Hd2 : Zdigits2 m2 <= 54).
    { apply Zdigits2_le; [lia|]. change (2 ^ 54) with (2 * 2 ^ 53).
      change (2 ^ 53) with 9007199254740992 in *. lia. }
    assert (He2 : e2 <= 5).
    { subst e2. unfold fexp, emin, F64.prec, F64.emax. lia. }
    assert (H3 : 0 <= m2 / 2 ^ (e2 - e1)).
    { apply Z.div_pos; [lia|]. apply Z.pow_pos_nonneg; lia. }
    destruct (m2 / 2 ^ (e2 - e1)) as [|k|k]; [exact I| |lia].
    replace (e2 <=? F64.emax - F64.prec) with true in *.
    + split; [apply V | exact He2].
    + symmetry. apply Z.leb_le. unfold F64.emax, F64.prec. lia.
Qed.

(** The tick count is always produced, and lies between 2 and 5. *)
Lemma duration_total (r : spec_float) :
  ∃ n, F64.duration r = F64.Ok n ∧ 2 <= n <= 5.
Proof.
  unfold F64.duration, F64.py_max.
  destruct (SFltb (F64.dec 1 1) r) eqn:Hlt.
  - destruct (inverse_small r Hlt) as (q & -> & Hq).
    unfold mbind, F64.result_bind.
    replace (F64.dec 10 0) with (S754_finite false 5629499534213120 (-49))
      by (vm_compute; reflexivity).
    assert (Hn : ∃ k, F64.int_of_float
                        (F64.mul (S754_finite false 5629499534213120 (-49)) q)
                      = F64.Ok k).
    { destruct q as [s| | |s m e]; try contradiction.
      - simpl. eauto.
      - destruct Hq as [Hq1 Hq2].
        pose proof (mul_finite false s 5629499534213120 m (-49) e
                      ltac:(vm_compute; reflexivity) Hq1 ltac:(lia)) as H.
        destruct (F64.mul _ _); try contradiction; simpl; eauto. }
    destruct Hn as [k ->]. eexists. split; [reflexivity | lia].
  - eexists. split; [vm_compute; reflexivity | lia].
Qed.

(** The doubles against the exact rationals. 70% of 100 is 70 either way
    and of a single attacker 0; of 90 attackers the doubles keep 62 where
    the exact product keeps 63; a count of [10 ^ 400] has no double, so no
    ratio is computed. At the ratio of 400 attackers on 120 defenders the
    doubles give 3 ticks where the exact quotient gives 2. *)
Lemma doubles_against_rationals :
  F64.scaled 100 (F64.dec 7 1) = F64.Ok 70
  ∧ F64.scaled 1 (F64.dec 7 1) = F64.Ok 0
  ∧ F64.scaled 90 (F64.dec 7 1) = F64.Ok 62
  ∧ py_int (inject_Z 90 * 0.7) = 63
  ∧ F64.power_ratio (10 ^ 400) 40 (F64.dec 10 1) = F64.Raise F64.OverflowError
  ∧ ∃ r, F64.power_ratio 400 120 (F64.dec 10 1) = F64.Ok r
         ∧ F64.duration r = F64.Ok 3
         ∧ duration (F64.to_Q r) = 2.
Proof.
  split; [vm_compute; reflexivity|]. split; [vm_compute; reflexivity|].
  split; [vm_compute; reflexivity|].
  split; [reflexivity|]. split; [vm_compute; reflexivity|].
  eexists. split; [vm_compute; reflexivity|].
  split; vm_compute; reflexivity.
Qed.

(** Below 2000 attackers the doubles keep [7 * a / 10] units or one unit
    less, the latter at 34 counts. *)
Lemma scaled_below_2000 :
  let short := filter (λ a, F64.scaled a (F64.dec 7 1) ≠ F64.Ok (a * 7 / 10))
                 (seqZ 0 2000) in
  length short = 34%nat
  ∧ Forall (λ a, F64.scaled a (F64.dec 7 1) = F64.Ok (a * 7 / 10 - 1)) short.
Proof.
  cbv zeta.
  assert (E : ∃ l, filter (λ a, F64.scaled a (F64.dec 7 1)
                                ≠ F64.Ok (a * 7 / 10)) (seqZ 0 2000) = l
                   ∧ length l = 34%nat
                   ∧ Forall (λ a, F64.scaled a (F64.dec 7 1)
                                  = F64.Ok (a * 7 / 10 - 1)) l).
  { eexists. split; [vm_compute; reflexivity|]. split; [reflexivity|].
    apply (bool_decide_unpack _). vm_compute. reflexivity. }
  destruct E as (l & -> & H1 & H2). split; assumption.
Qed.

End Binary64.

(** C5 (as amended). Whenever the power ratio is computed, that is, no
    count is too large for a double, and is at least 2.0, the outcome is
    a success whatever the random draw, no defender survives, and the
    attacker keeps [max(1, int(attacker_count * 0.7))] units, the product
    being rounded to a double before it is truncated: a number that always
    exists, never below one, and not 70% of the attackers in general (62
    of 90, 1 of 1). *)
Theorem C5_overwhelming_attack (a d : Z) (mult r : spec_float) :
  F64.power_ratio a d mult = F64.Ok r →
  F64.ge r (F64.dec 20 1) = true →
  ∃ n, F64.scaled a (F64.dec 7 1) = F64.Ok n
    ∧ ∀ rnd, F64.battle_outcome a d mult rnd
             = F64.Ok (mk_outcome true (Z.max 1 n) 0).
Proof.
  intros Hr Hge.
  destruct (power_ratio_converts a d mult r Hr) as [c Hc].
  destruct (scaled_total a c (F64.dec 7 1) Hc) as [n Hn].
  { vm_compute. split; [reflexivity | discriminate]. }
  exists n. split; [exact Hn|]. intros rnd.
  unfold F64.battle_outcome. rewrite Hr. simpl. rewrite Hge, Hn. reflexivity.
Qed.

Lemma C5_overwhelming_attack_witness :
  ∃ n, F64.scaled 90 (F64.dec 7 1) = F64.Ok n
    ∧ ∀ rnd, F64.battle_outcome 90 40 (F64.dec 15 1) rnd
             = F64.Ok (mk_outcome true (Z.max 1 n) 0).
Proof.
  apply (C5_overwhelming_attack 90 40 (F64.dec 15 1) (F64.dec 3375 3));
    reflexivity.
Defined.

(** C5 fails as stated. One attacker with multiplier 2.0 against an
    undefended planet: the ratio is 2.0 and the attack succeeds, but one
    attacker survives, which is neither 70% of one (0.7) nor its
    truncation (0). *)
Lemma C5_counterexample :
  2 <= power_ratio 1 0 2
  ∧ success (battle_outcome 1 0 2 0) = true
  ∧ attacker_survivors (battle_outcome 1 0 2 0) = 1%Z
  ∧ ¬ inject_Z (attacker_survivors (battle_outcome 1 0 2 0)) == 0.7 * inject_Z 1
  ∧ attacker_survivors (battle_outcome 1 0 2 0) ≠ py_int (0.7 * inject_Z 1).
Proof.
  repeat split; try (vm_compute; discriminate).
Qed.

Lemma duration_bounds (ratio : Q) : (2 <= duration ratio <= 5)%Z.
Proof. unfold duration. lia. Qed.

Lemma duration_floor (ratio : Q) :
  duration ratio = Z.min 5 (Z.max 2 (Qfloor (10 / Qmax 0.1 ratio))).
Proof.
  unfold duration. f_equal. f_equal.
  assert (Hpos : 0 < Qmax 0.1 ratio).
  { apply Qlt_le_trans with 0.1; [reflexivity | apply Q.le_max_l]. }
  rewrite py_int_floor.
  - apply Qfloor_comp. field. intros E. rewrite E in Hpos.
    exact (Qlt_irrefl 0 Hpos).
  - apply Qmult_le_0_compat; [discriminate|].
    apply Qlt_le_weak. unfold Qdiv. rewrite Qmult_1_l.
    apply Qinv_lt_0_compat, Hpos.
Qed.

(** C6 (as amended). In the scenario attackerCount = 100, multiplier = 1.5,
    target defense = 1: the defender count is 40, the ratio 3.75, the
    attack succeeds with 70 attacker and 0 defender survivors, and the
    battle lasts 2 ticks, in exact arithmetic and in the doubles of the
    source alike. The tick count is
    [clamp(int(10 * (1 / max(0.1, ratio))), 2, 5)] evaluated on doubles:
    the product is truncated, not rounded to the nearest integer; for
    every ratio the count is produced and lies between 2 and 5. *)
Theorem C6_scenario :
  let target := mk_planet "planet-system-0-0" "P1" None (Some 1%Z) in
  let ratio := power_ratio 100 (defender_count_of target) 1.5 in
  defender_count_of target = 40%Z
  ∧ ratio == 3.75
  ∧ (∀ rnd, battle_outcome 100 (defender_count_of target) 1.5 rnd
            = mk_outcome true 70 0)
  ∧ duration ratio = 2%Z
  ∧ F64.power_ratio 100 (defender_count_of target) (F64.dec 15 1)
    = F64.Ok (F64.dec 375 2)
  ∧ (∀ rnd, F64.battle_outcome 100 (defender_count_of target)
              (F64.dec 15 1) rnd
            = F64.Ok (mk_outcome true 70 0))
  ∧ F64.duration (F64.dec 375 2) = F64.Ok 2%Z
  ∧ ∀ r, ∃ n, F64.duration r = F64.Ok n ∧ (2 <= n <= 5)%Z.
Proof.
  cbv zeta. split; [reflexivity|]. split; [reflexivity|].
  split; [intros rnd; reflexivity|]. split; [reflexivity|].
  split; [vm_compute; reflexivity|].
  split; [intros rnd; vm_compute; reflexivity|].
  split; [vm_compute; reflexivity|].
  apply duration_total.
Qed.

(** C6 fails as stated. In the scenario (100 attackers, multiplier 1.5,
    defense 1) the source's battle lasts 2 ticks, where the rounding
    formula of the claim gives 3. *)
Lemma C6_counterexample :
  let target := mk_planet "planet-system-0-0" "P1" None (Some 1%Z) in
  let ratio := power_ratio 100 (defender_count_of target) 1.5 in
  duration ratio = 2%Z ∧ spec_tick_count ratio = 3%Z ∧ duration ratio ≠ 3%Z.
Proof.
  cbv zeta. repeat split. vm_compute. discriminate.
Qed.

(** C10. The winning side always keeps at least one unit: on a success
    the attacker survivor count is at least 1, on a failure the defender
    survivor count is at least 1. This holds even from an initial count
    of 0, so the survivor count can exceed the tier's percentage of the
    starting count: an attack with 0 attackers that wins leaves 1
    attacker (20% of 0 is 0), and 0 defenders that hold leave 1 defender
    (80% of 0 is 0). *)
Theorem C10_winner_keeps_one_unit :
  (∀ (a d : Z) (mult rnd : Q),
     let o := battle_outcome a d mult rnd in
     if success o then (1 <= attacker_survivors o)%Z
     else (1 <= defender_survivors o)%Z)
  ∧ (success (battle_outcome 0 0 1 0) = true
     ∧ attacker_survivors (battle_outcome 0 0 1 0) = 1%Z
     ∧ py_int (inject_Z 0 * 0.2) = 0%Z)
  ∧ (success (battle_outcome 0 0 1 (1 # 2)) = false
     ∧ defender_survivors (battle_outcome 0 0 1 (1 # 2)) = 1%Z
     ∧ py_int (inject_Z 0 * 0.8) = 0%Z).
Proof.
  split; [|repeat split].
  intros a d mult rnd. unfold battle_outcome. cbv zeta.
  destruct (Qle_bool 2 _); [simpl; lia|].
  destruct (Qle_bool 1.5 _); [destruct (Qlt_bool rnd 0.85); simpl; lia|].
  destruct (Qle_bool 1 _); [destruct (Qlt_bool rnd 0.45); simpl; lia|].
  destruct (Qlt_bool rnd 0.15); simpl; lia.
Qed.

(** ** World mutation at resolution *)




(** ** Scoring engine *)

Lemma py_sum_snoc (xs : list Q) (x : Q) : py_sum (xs ++ [x]) = py_sum xs + x.
Proof. unfold py_sum. rewrite fold_left_app. reflexivity. Qed.

Lemma dict_set_fresh {V : Type} (k : string) (v : V) (d : dict V) :
  k ∉ dict_keys d → dict_set k v d = d ++ [(k, v)].
Proof.
  induction d as [|[k' v'] d IH]; intros Hk; simpl; [reflexivity|].
  destruct (String.eqb k k') eqn:E.
  - apply String.eqb_eq in E. subst k'. exfalso. apply Hk. simpl. left.
  - f_equal. apply IH. intros Hin. apply Hk. simpl. right. exact Hin.
Qed.

Lemma dict_set_keys {V : Type} (k k0 : string) (v : V) (d : dict V) :
  k0 ∈ dict_keys (dict_set k v d) → k0 = k ∨ k0 ∈ dict_keys d.
Proof.
  induction d as [|[k' v'] d IH]; simpl.
  - intros H. apply list_elem_of_singleton in H. left. exact H.
  - destruct (String.eqb k k'); simpl; intros H.
    + right. exact H.
    + apply elem_of_cons in H as [H|H].
      * right. subst. left.
      * destruct (IH H) as [?|?]; [left; assumption | right; right; assumption].
Qed.

Lemma add_bonus_keys (key : string) (v cap : Q) (descr : string)
    (bs : dict bonus) (l : list string) :
  dict_keys bs ⊆ l → dict_keys (add_bonus key v cap descr bs) ⊆ key :: l.
Proof.
  intros Hsub k0 Hin. unfold add_bonus in Hin.
  destruct (Qlt_bool 0 v).
  - apply dict_set_keys in Hin as [->|Hin]; [left | right; apply Hsub, Hin].
  - right. apply Hsub, Hin.
Qed.

(** Adding a bonus under a fresh key adds its positive part to the sum. *)
Lemma add_bonus_sum (key : string) (v cap : Q) (descr : string)
    (bs : dict bonus) :
  key ∉ dict_keys bs →
  py_sum (map value (dict_values (add_bonus key v cap descr bs)))
  == py_sum (map value (dict_values bs)) + Qmax 0 v.
Proof.
  intros Hfresh. unfold add_bonus.
  destruct (Qlt_bool 0 v) eqn:E.
  - rewrite (dict_set_fresh _ _ _ Hfresh). unfold dict_values.
    rewrite !map_app. simpl. rewrite py_sum_snoc.
    apply Qlt_bool_iff in E. rewrite Q.max_r by (apply Qlt_le_weak, E).
    reflexivity.
  - apply Qlt_bool_false in E. rewrite Q.max_l by exact E. ring.
Qed.

Lemma dict_set_Forall {V : Type} (P : V → Prop) (k : string) (v : V)
    (d : dict V) :
  P v → Forall P (dict_values d) → Forall P (dict_values (dict_set k v d)).
Proof.
  intros Hv. induction d as [|[k' v'] d IH]; simpl; intros H.
  - constructor; [exact Hv | constructor].
  - inversion H as [|? ? Hhd Htl]; subst.
    destruct (String.eqb k k'); simpl; constructor; auto.
Qed.

Lemma add_bonus_within (key : string) (v cap : Q) (descr : string)
    (bs : dict bonus) :
  v <= cap → Forall within_cap (dict_values bs) →
  Forall within_cap (dict_values (add_bonus key v cap descr bs)).
Proof.
  intros Hcap H. unfold add_bonus. destruct (Qlt_bool 0 v) eqn:E; [|exact H].
  apply dict_set_Forall; [|exact H].
  split; simpl; [apply Qlt_bool_iff, E | exact Hcap].
Qed.

Lemma count_scaled_nonneg (n : nat) (q : Q) :
  0 <= q → 0 <= inject_Z (Z.of_nat n) * q.
Proof.
  intros Hq. apply Qmult_le_0_compat; [|exact Hq].
  unfold Qle. simpl. lia.
Qed.

Lemma territory_bonus_nonneg (m : manager) (wallet : string) :
  0 <= territory_bonus_of m wallet.
Proof.
  apply Q.min_glb; [apply count_scaled_nonneg|]; discriminate.
Qed.

Lemma resource_bonus_nonneg (c : character) : 0 <= resource_bonus_of c.
Proof.
  apply Q.min_glb; [apply count_scaled_nonneg|]; discriminate.
Qed.

Lemma resource_bonus_empty (c : character) :
  ch_resources c = [] → resource_bonus_of c == 0.
Proof.
  intros H. unfold resource_bonus_of, unique_resources. rewrite H. reflexivity.
Qed.

Lemma mission_bonus_nonneg (ms : list mission) : 0 <= mission_bonus_of ms.
Proof.
  apply Q.min_glb; [|discriminate].
  apply Qle_trans with (0 + 0); [discriminate|].
  apply Qplus_le_compat; apply count_scaled_nonneg; discriminate.
Qed.

Lemma achievement_bonus_nonneg (m : manager) (wallet : string) :
  0 <= achievement_bonus_of m wallet.
Proof.
  apply Q.min_glb; [apply count_scaled_nonneg|]; discriminate.
Qed.

Lemma temp_step_nonneg (now_ts : Z) (acc : Q * dict buff) (kb : string * buff) :
  0 <= fst acc → 0 <= fst (temp_step now_ts acc kb).
Proof.
  intros H. unfold temp_step.
  destruct (now_ts <? b_expires_at (snd kb))%Z; simpl; [|exact H].
  destruct (Qlt_bool 0 (b_level (snd kb))) eqn:E; simpl; [|exact H].
  apply Qlt_bool_iff in E.
  apply Qle_trans with (0 + 0); [discriminate|].
  apply Qplus_le_compat; [exact H | apply Qlt_le_weak, E].
Qed.

Lemma temp_fold_nonneg (now_ts : Z) (l : dict buff) (acc : Q * dict buff) :
  0 <= fst acc → 0 <= fst (fold_left (temp_step now_ts) l acc).
Proof.
  revert acc. induction l as [|kb l IH]; intros acc H; simpl; [exact H|].
  apply IH, temp_step_nonneg, H.
Qed.

Lemma temp_total_nonneg (now_ts : Z) (p : profile) : 0 <= temp_total_of now_ts p.
Proof.
  apply Q.min_glb; [|discriminate].
  apply temp_fold_nonneg. simpl. discriminate.
Qed.

Ltac fresh_key K :=
  let Hin := fresh "Hin" in
  intros Hin; apply K in Hin;
  repeat (apply elem_of_cons in Hin as [Hin|Hin]; [discriminate Hin|]);
  apply elem_of_nil in Hin; exact Hin.

(** The values of the [bonuses] dictionary add up to the seven
    contributions. *)
Lemma build_bonuses_sum (m : manager) (now_ts : Z) (wallet : string)
    (data : profile) (c : character) :
  py_sum (map value (dict_values (build_bonuses m now_ts wallet data c)))
  == py_sum (contributions m now_ts wallet data c).
Proof.
  unfold build_bonuses.
  set (b1 := add_bonus "territory" _ _ _ _).
  assert (K1 : dict_keys b1 ⊆ ["territory"%string]).
  { apply add_bonus_keys. intros k H. exact H. }
  assert (S1 : py_sum (map value (dict_values b1))
               == 0 + territory_bonus_of m wallet).
  { subst b1. rewrite add_bonus_sum by (intros H; inversion H).
    rewrite Q.max_r by apply territory_bonus_nonneg. reflexivity. }
  set (b2 := match ch_resources c with [] => b1 | _ => _ end).
  assert (K2 : dict_keys b2 ⊆ ["resources"; "territory"]%string).
  { subst b2. destruct (ch_resources c).
    - intros k H. right. apply K1, H.
    - apply add_bonus_keys, K1. }
  assert (S2 : py_sum (map value (dict_values b2))
               == py_sum (map value (dict_values b1)) + resource_bonus_of c).
  { subst b2. destruct (ch_resources c) eqn:Er.
    - rewrite (resource_bonus_empty c Er). ring.
    - rewrite add_bonus_sum by fresh_key K1.
      rewrite Q.max_r by apply resource_bonus_nonneg. reflexivity. }
  set (b3 := match missions m !! wallet with Some ms => _ | None => b2 end).
  assert (K3 : dict_keys b3 ⊆ ["missions"; "resources"; "territory"]%string).
  { subst b3. destruct (missions m !! wallet).
    - apply add_bonus_keys, K2.
    - intros k H. right. apply K2, H. }
  assert (S3 : py_sum (map value (dict_values b3))
               == py_sum (map value (dict_values b2))
                  + mission_bonus_of (default [] (missions m !! wallet))).
  { subst b3. destruct (missions m !! wallet) as [ms|]; simpl.
    - rewrite add_bonus_sum by fresh_key K2.
      rewrite Q.max_r by apply mission_bonus_nonneg. reflexivity.
    - assert (E : mission_bonus_of [] == 0) by reflexivity.
      rewrite E. ring. }
  set (b4 := add_bonus "level" _ _ _ b3).
  assert (K4 : dict_keys b4
               ⊆ ["level"; "missions"; "resources"; "territory"]%string).
  { apply add_bonus_keys, K3. }
  assert (S4 : py_sum (map value (dict_values b4))
               == py_sum (map value (dict_values b3))
                  + Qmax 0 (level_bonus_of c)).
  { subst b4. apply add_bonus_sum. fresh_key K3. }
  set (b5 := add_bonus "achievements" _ _ _ b4).
  assert (K5 : dict_keys b5
               ⊆ ["achievements"; "level"; "missions"; "resources";
                  "territory"]%string).
  { apply add_bonus_keys, K4. }
  assert (S5 : py_sum (map value (dict_values b5))
               == py_sum (map value (dict_values b4))
                  + achievement_bonus_of m wallet).
  { subst b5. rewrite add_bonus_sum by fresh_key K4.
    rewrite Q.max_r by apply achievement_bonus_nonneg. reflexivity. }
  set (b6 := add_bonus "research" _ _ _ b5).
  assert (K6 : dict_keys b6
               ⊆ ["research"; "achievements"; "level"; "missions";
                  "resources"; "territory"]%string).
  { apply add_bonus_keys, K5. }
  assert (S6 : py_sum (map value (dict_values b6))
               == py_sum (map value (dict_values b5))
                  + Qmax 0 (research_total_of data)).
  { subst b6. apply add_bonus_sum. fresh_key K5. }
  rewrite add_bonus_sum by fresh_key K6.
  rewrite Q.max_r by apply temp_total_nonneg.
  rewrite S6, S5, S4, S3, S2, S1.
  unfold contributions, py_sum. simpl. reflexivity.
Qed.

Lemma contributions_capped (m : manager) (now_ts : Z) (wallet : string)
    (data : profile) (c : character) :
  Forall2 (fun x cap => 0 <= x ∧ x <= cap)
    (contributions m now_ts wallet data c) caps.
Proof.
  unfold contributions, caps.
  repeat constructor;
    try apply Q.le_min_r;
    try apply Q.le_max_l;
    try apply territory_bonus_nonneg;
    try apply resource_bonus_nonneg;
    try apply mission_bonus_nonneg;
    try apply achievement_bonus_nonneg;
    try apply temp_total_nonneg;
    try (apply Q.max_lub; [discriminate | apply Q.le_min_r]).
Qed.

Lemma build_bonuses_within (m : manager) (now_ts : Z) (wallet : string)
    (data : profile) (c : character) :
  Forall within_cap (dict_values (build_bonuses m now_ts wallet data c)).
Proof.
  unfold build_bonuses.
  repeat first
    [ apply add_bonus_within; [apply Q.le_min_r|]
    | match goal with
      | |- context [match ?x with _ => _ end] => destruct x
      end
    | constructor ].
Qed.

(** C1. For a known player (present in [leverage_data] and in
    [characters]) the call returns a dictionary whose [total] lies in
    [1.0, 2.0] and equals [clamp(1.0 + sum, 1.0, 2.0)], where the sum is
    that of the values reported in [bonuses]; every reported value is
    within its cap, and the sum is that of the seven capped
    contributions. *)
Theorem C1_total_bounded (m : manager) (now_ts : Z) (wallet : string)
    (data : profile) (c : character) :
  leverage_data m !! wallet = Some data →
  characters m !! wallet = Some c →
  ∃ r,
    snd (calculate_leverage_multiplier m now_ts wallet) = RDict r
    ∧ 1 <= total r ∧ total r <= 2
    ∧ total r
      = Qmin (Qmax (1 + py_sum (map value (dict_values (bonuses r)))) 1) 2
    ∧ Forall within_cap (dict_values (bonuses r))
    ∧ total r
      == Qmin (Qmax (1 + py_sum (contributions m now_ts wallet data c)) 1) 2
    ∧ Forall2 (fun x cap => 0 <= x ∧ x <= cap)
        (contributions m now_ts wallet data c) caps.
Proof.
  intros Hd Hc. unfold calculate_leverage_multiplier. rewrite Hd, Hc.
  eexists. split; [reflexivity|]. simpl.
  split; [apply clamp_bounds|]. split; [apply clamp_bounds|].
  split; [reflexivity|]. split; [apply build_bonuses_within|].
  split; [|apply contributions_capped].
  rewrite build_bonuses_sum. reflexivity.
Qed.

Lemma C1_total_bounded_witness :
  ∃ r, snd (calculate_leverage_multiplier alice_manager 0 "alice") = RDict r
       ∧ total r == 1.45.
Proof.
  destruct (C1_total_bounded alice_manager 0 "alice" alice_profile
              alice_character eq_refl eq_refl)
    as (r & Hr & _ & _ & _ & _ & Ht & _).
  exists r. split; [exact Hr|].
  rewrite Ht. vm_compute. reflexivity.
Defined.

(** The buff loop keeps only entries that count. *)
Lemma temp_fold_cleaned (now_ts : Z) (l : dict buff) (acc : Q * dict buff) :
  Forall (fun b => (now_ts < b_expires_at b)%Z) (dict_values (snd acc)) →
  Forall (fun b => (now_ts < b_expires_at b)%Z)
    (dict_values (snd (fold_left (temp_step now_ts) l acc))).
Proof.
  revert acc. induction l as [|kb l IH]; intros acc H; simpl; [exact H|].
  apply IH. unfold temp_step.
  destruct (now_ts <? b_expires_at (snd kb))%Z eqn:E; simpl; [|exact H].
  destruct (Qlt_bool 0 (b_level (snd kb))); simpl; [|exact H].
  apply dict_set_Forall; [|exact H]. apply Z.ltb_lt, E.
Qed.

(** Expired entries do not move the accumulator of the buff loop. *)
Lemma temp_fold_drop_expired (now_ts : Z) (l : dict buff) (acc : Q * dict buff) :
  fold_left (temp_step now_ts) (filter (unexpired now_ts) l) acc
  = fold_left (temp_step now_ts) l acc.
Proof.
  unfold dict in *.
  revert acc. induction l as [|kb l IH]; intros acc; [reflexivity|].
  rewrite filter_cons. destruct (decide (unexpired now_ts kb)) as [Hu|Hu].
  - simpl. apply IH.
  - simpl. rewrite IH. f_equal. unfold temp_step.
    unfold unexpired in Hu. apply Z.ltb_nlt in Hu. rewrite Hu. reflexivity.
Qed.

(** The accumulated buff total is the sum of the levels that count. *)
Lemma temp_fold_sum (now_ts : Z) (l : dict buff) (acc : Q * dict buff) :
  fst (fold_left (temp_step now_ts) l acc)
  = fold_left Qplus
      (map (fun kb => b_level (snd kb))
         (List.filter (counted now_ts) l)) (fst acc).
Proof.
  revert acc. induction l as [|kb l IH]; intros acc; [reflexivity|].
  simpl. rewrite IH. unfold temp_step, counted.
  destruct ((now_ts <? b_expires_at (snd kb))%Z
            && Qlt_bool 0 (b_level (snd kb))); reflexivity.
Qed.

Lemma temp_loop_drop_expired (now_ts : Z) (p : profile) :
  temp_loop now_ts (drop_expired now_ts p) = temp_loop now_ts p.
Proof. unfold temp_loop. simpl. apply temp_fold_drop_expired. Qed.

(** C3. For a known player, a call at time [now_ts]: (a) stores a
    [temp_buffs] map in which every entry expires after [now_ts]; (b)
    returns the value it would return had the entries with
    [expires_at <= now_ts] been absent from the profile; (c) reports as
    buff contribution [min(sum of the levels of the running buffs of
    positive level, 0.2)]. *)
Theorem C3_expired_buffs_pruned (m : manager) (now_ts : Z) (wallet : string)
    (data : profile) (c : character) :
  leverage_data m !! wallet = Some data →
  characters m !! wallet = Some c →
  (∃ data' bs,
     leverage_data (fst (calculate_leverage_multiplier m now_ts wallet))
       !! wallet = Some data'
     ∧ temp_buffs data' = Some bs
     ∧ ∀ k b, (k, b) ∈ bs → (now_ts < b_expires_at b)%Z)
  ∧ snd (calculate_leverage_multiplier
           (set_leverage_data m
              (<[wallet := drop_expired now_ts data]> (leverage_data m)))
           now_ts wallet)
    = snd (calculate_leverage_multiplier m now_ts wallet)
  ∧ temp_total_of now_ts data
    = Qmin (py_sum (map (fun kb => b_level (snd kb))
                      (List.filter (counted now_ts)
                         (default [] (temp_buffs data))))) 0.2.
Proof.
  intros Hd Hc. split; [|split].
  - unfold calculate_leverage_multiplier. rewrite Hd, Hc. simpl.
    rewrite lookup_insert_eq. eexists _, _. split; [reflexivity|].
    split; [reflexivity|]. intros k b Hin.
    assert (HF := temp_fold_cleaned now_ts (default [] (temp_buffs data))
                    (0, []) (Forall_nil_2 _)).
    rewrite Forall_forall in HF. apply HF.
    unfold dict_values. apply list_elem_of_In, in_map_iff.
    exists (k, b). split; [reflexivity | apply list_elem_of_In, Hin].
  - unfold calculate_leverage_multiplier. simpl.
    rewrite lookup_insert_eq, Hd, Hc.
    unfold build_bonuses, temp_total_of. simpl.
    rewrite temp_loop_drop_expired. reflexivity.
  - unfold temp_total_of, temp_loop. rewrite temp_fold_sum. reflexivity.
Qed.

Lemma C3_expired_buffs_pruned_witness :
  ∃ data' bs,
    leverage_data (fst (calculate_leverage_multiplier bob_manager 100 "bob"))
      !! "bob"%string = Some data'
    ∧ temp_buffs data' = Some bs
    ∧ ∀ k b, (k, b) ∈ bs → (100 < b_expires_at b)%Z.
Proof.
  exact (proj1 (C3_expired_buffs_pruned bob_manager 100 "bob" bob_profile
                  bob_character eq_refl eq_refl)).
Defined.

(** C7 (the code departs from it). A wallet absent from [leverage_data]
    raises [KeyError] at the first statement and the handler returns the
    bare float [1.0], not a dictionary; a wallet present in
    [leverage_data] but without a character gets the neutral
    dictionary. *)
Theorem C7_unknown_player_shape :
  let m' := set_leverage_data empty_manager
              {[ "ghost"%string := mk_profile 0 None 0 0 None None None ]} in
  calculate_leverage_multiplier empty_manager 0 "ghost"
  = (empty_manager, RFloat 1)
  ∧ (∀ r, snd (calculate_leverage_multiplier empty_manager 0 "ghost")
          ≠ RDict r)
  ∧ calculate_leverage_multiplier m' 0 "ghost" = (m', RDict neutral_result).
Proof.
  cbv zeta. split; [reflexivity|]. split; [|reflexivity].
  intros r H. discriminate H.
Qed.

(** The two not-found paths in general. *)
Lemma unknown_profile_returns_float (m : manager) (now_ts : Z) (wallet : string) :
  leverage_data m !! wallet = None →
  calculate_leverage_multiplier m now_ts wallet = (m, RFloat 1).
Proof.
  intros H. unfold calculate_leverage_multiplier. rewrite H. reflexivity.
Qed.

Lemma unknown_character_returns_neutral (m : manager) (now_ts : Z)
    (wallet : string) (data : profile) :
  leverage_data m !! wallet = Some data →
  characters m !! wallet = None →
  calculate_leverage_multiplier m now_ts wallet = (m, RDict neutral_result).
Proof.
  intros H1 H2. unfold calculate_leverage_multiplier. rewrite H1, H2.
  reflexivity.
Qed.

(** ** Session teardown *)

Lemma disconnect_unregistered (m : manager) (ws : websocket) :
  active_connections m !! ws = None → disconnect m ws = (m, []).
Proof. intros H. unfold disconnect. rewrite H. reflexivity. Qed.

Lemma disconnect_removes (m : manager) (ws : websocket) :
  active_connections (disconnect m ws).1 !! ws = None.
Proof.
  unfold disconnect. destruct (active_connections m !! ws) eqn:E; simpl.
  - apply lookup_delete_eq.
  - exact E.
Qed.

(** C9. [disconnect] is idempotent. On a registered session one call
    cancels the keep-alive task (when there is one), marks the entry
    inactive, closes the transport and removes the entry from the
    registry, decrementing the counter without going below zero. A second
    call on the same session has no effect at all: it performs no action
    and returns the state the first call left. *)
Theorem C9_disconnect_idempotent (m : manager) (ws : websocket) :
  disconnect (disconnect m ws).1 ws = ((disconnect m ws).1, [])
  ∧ active_connections (disconnect m ws).1 !! ws = None
  ∧ ∀ ci, active_connections m !! ws = Some ci →
      (disconnect m ws).2
      = match keep_alive_task ci with
        | Some h => [TaskCancelled h]
        | None => []
        end ++ [TransportClosed ws "Normal closure"]
      ∧ is_connected <$> (active_connections (disconnect_mark m ws ci) !! ws)
        = Some false
      ∧ active_connections (disconnect m ws).1
        = delete ws (active_connections m)
      ∧ connection_count (disconnect m ws).1
        = Z.max 0 (connection_count m - 1).
Proof.
  split; [|split].
  - apply disconnect_unregistered, disconnect_removes.
  - apply disconnect_removes.
  - intros ci Hci. unfold disconnect. rewrite Hci. simpl.
    split; [reflexivity|]. split.
    + rewrite lookup_insert_eq. reflexivity.
    + split; [|reflexivity]. apply delete_insert_eq.
Qed.

Lemma C9_disconnect_idempotent_witness :
  (disconnect carol_manager 7%nat).2
  = [TaskCancelled 1%nat; TransportClosed 7%nat "Normal closure"]
  ∧ disconnect (disconnect carol_manager 7%nat).1 7%nat
    = ((disconnect carol_manager 7%nat).1, []).
Proof.
  split.
  - exact (proj1 (proj2 (proj2 (C9_disconnect_idempotent carol_manager 7%nat))
                    carol_conn eq_refl)).
  - exact (proj1 (C9_disconnect_idempotent carol_manager 7%nat)).
Defined.

(** ** State broadcast *)

Lemma calculate_preserves_broadcast_state (m : manager) (now_ts : Z)
    (wallet : string) :
  let m1 := fst (calculate_leverage_multiplier m now_ts wallet) in
  last_game_state_send m1 = last_game_state_send m
  ∧ game_state_throttle_seconds m1 = game_state_throttle_seconds m
  ∧ active_battles m1 = active_battles m
  ∧ universe m1 = universe m
  ∧ territories m1 = territories m.
Proof.
  unfold calculate_leverage_multiplier.
  destruct (leverage_data m !! wallet); [|repeat split].
  destruct (characters m !! wallet); repeat split.
Qed.

(** A push that delivers a message records its time, and delivers the
    snapshot of the state it ran on. *)
Lemma send_game_state_delivered (m : manager) (ws : websocket)
    (wallet : string) (t : Q) (now_ts : Z) (ok : bool) (msg : message) :
  (send_game_state m ws wallet t now_ts ok).2 = [msg] →
  throttled m wallet t = false
  ∧ last_game_state_send (send_game_state m ws wallet t now_ts ok).1
      !! wallet = Some t
  ∧ game_state_throttle_seconds (send_game_state m ws wallet t now_ts ok).1
    = game_state_throttle_seconds m
  ∧ ∃ c, characters m !! wallet = Some c
         ∧ msg = game_state m wallet c
                   (snd (calculate_leverage_multiplier m now_ts wallet)).
Proof.
  unfold send_game_state.
  destruct (throttled m wallet t); [discriminate|].
  destruct (active_connections m !! ws) as [ci|]; [|discriminate].
  destruct (characters m !! wallet) as [c|]; [|discriminate].
  destruct (calculate_preserves_broadcast_state m now_ts wallet)
    as (Hl & Ht & _).
  destruct (calculate_leverage_multiplier m now_ts wallet) as [m1 lev].
  simpl in Hl, Ht.
  destruct (is_connected ci); [|discriminate].
  destruct ok; [|discriminate].
  simpl. intros H. injection H as <-.
  split; [reflexivity|]. split; [apply lookup_insert_eq|].
  split; [exact Ht|]. exists c. split; reflexivity.
Qed.

(** A push delivers at most the snapshot of the state it runs on. *)
Lemma send_game_state_snapshot (m : manager) (ws : websocket)
    (wallet : string) (t : Q) (now_ts : Z) (ok : bool) :
  (send_game_state m ws wallet t now_ts ok).2 = []
  ∨ ∃ c, characters m !! wallet = Some c
         ∧ (send_game_state m ws wallet t now_ts ok).2
           = [game_state m wallet c
                (snd (calculate_leverage_multiplier m now_ts wallet))].
Proof.
  unfold send_game_state.
  destruct (throttled m wallet t); [left; reflexivity|].
  destruct (active_connections m !! ws) as [ci|]; [|left; reflexivity].
  destruct (characters m !! wallet) as [c|]; [|left; reflexivity].
  destruct (calculate_leverage_multiplier m now_ts wallet) as [m1 lev].
  destruct (is_connected ci); [|left; reflexivity].
  destruct ok; [|left; reflexivity].
  right. exists c. split; reflexivity.
Qed.

(** C8. When a push for a player delivers its [game_state_update] at time
    [t1], a second push for that player issued at [t2] with
    [t2 - t1] below the throttle window delivers nothing and leaves the
    state as it is (nothing is queued), so the two pushes deliver exactly
    one message; any later push delivers either nothing or the snapshot
    of the state it runs on. *)
Theorem C8_throttled_push_dropped (m : manager) (ws ws' : websocket)
    (wallet : string) (t1 t2 : Q) (n1 n2 : Z) (ok1 ok2 : bool)
    (msg : message) :
  (send_game_state m ws wallet t1 n1 ok1).2 = [msg] →
  t2 - t1 < game_state_throttle_seconds m →
  let m1 := (send_game_state m ws wallet t1 n1 ok1).1 in
  send_game_state m1 ws' wallet t2 n2 ok2 = (m1, [])
  ∧ length ((send_game_state m ws wallet t1 n1 ok1).2
            ++ (send_game_state m1 ws' wallet t2 n2 ok2).2) = 1%nat
  ∧ ∀ m3 ws3 t3 n3 ok3,
      (send_game_state m3 ws3 wallet t3 n3 ok3).2 = []
      ∨ ∃ c, characters m3 !! wallet = Some c
             ∧ (send_game_state m3 ws3 wallet t3 n3 ok3).2
               = [game_state m3 wallet c
                    (snd (calculate_leverage_multiplier m3 n3 wallet))].
Proof.
  intros Hsent Hwin m1.
  destruct (send_game_state_delivered _ _ _ _ _ _ _ Hsent)
    as (_ & Hlast & Hthr & _).
  fold m1 in Hlast, Hthr.
  assert (Hdrop : send_game_state m1 ws' wallet t2 n2 ok2 = (m1, [])).
  { unfold send_game_state at 1. unfold throttled. rewrite Hlast, Hthr.
    apply Qlt_bool_iff in Hwin. rewrite Hwin. reflexivity. }
  split; [exact Hdrop|]. split.
  - rewrite Hdrop, Hsent. reflexivity.
  - intros. apply send_game_state_snapshot.
Qed.

Lemma C8_throttled_push_dropped_witness :
  send_game_state
    (send_game_state carol_manager 7%nat "carol" 1000 1000 true).1
    7%nat "carol" 1299 1299 true
  = ((send_game_state carol_manager 7%nat "carol" 1000 1000 true).1, []).
Proof.
  exact (proj1 (C8_throttled_push_dropped carol_manager 7%nat 7%nat "carol"
                  1000 1299 1000 1299 true true _ eq_refl eq_refl)).
Defined.

(** ** Battle coordinator *)

Lemma is_resolved_false (st : battle_state) :
  st ≠ Resolved ↔ is_resolved st = false.
Proof. destruct st; simpl; split; congruence. Qed.

Lemma find_planet_from_id (i : nat) (tid : string) (ps : list planet)
    (found : option (nat * planet)) (j : nat) (p : planet) :
  find_planet_from i (Some tid) ps found = Some (j, p) →
  found = Some (j, p) ∨ p_id p = tid.
Proof.
  revert i found. induction ps as [|q ps IH]; intros i found H; simpl in H.
  - left. exact H.
  - apply IH in H as [H|H]; [|right; exact H].
    destruct (decide (Some (p_id q) = Some tid)) as [E|E].
    + right. injection H as _ <-. congruence.
    + left. exact H.
Qed.

Lemma find_planet_id (m : manager) (tid : string) (j : nat) (p : planet) :
  find_planet m (Some tid) = Some (j, p) → p_id p = tid.
Proof.
  intros H. apply find_planet_from_id in H as [H|H]; [discriminate | exact H].
Qed.

(** A command against a target with a battle in progress changes nothing
    and is answered by an error. *)
Lemma attack_planet_rejected (s : sched) (ws : websocket) (msg : attack_msg)
    (tid : string) :
  planet_id msg = Some tid →
  battle_in_progress s tid = true →
  (attack_planet s ws msg).1 = s
  ∧ ∃ e, (attack_planet s ws msg).2 = [MsgError e].
Proof.
  intros Hid Hbusy. unfold attack_planet.
  destruct (active_connections (mgr s) !! ws) as [ci|]; [|simpl; eauto].
  destruct (find_planet (mgr s) (from_id msg)) as [[si src]|]; [|simpl; eauto].
  rewrite Hid.
  destruct (find_planet (mgr s) (Some tid)) as [[ti tgt]|] eqn:Ef;
    [|simpl; eauto].
  rewrite (find_planet_id _ _ _ _ Ef), Hbusy. simpl. eauto.
Qed.

Lemma attack_planet_inv (s : sched) (ws : websocket) (msg : attack_msg) :
  coordinator_inv s → coordinator_inv (attack_planet s ws msg).1.
Proof.
  intros [I1 I2]. unfold attack_planet.
  destruct (active_connections (mgr s) !! ws) as [ci|]; [|split; assumption].
  destruct (find_planet (mgr s) (from_id msg)) as [[si src]|];
    [|split; assumption].
  destruct (find_planet (mgr s) (planet_id msg)) as [[ti tgt]|];
    [|split; assumption].
  destruct (battle_in_progress s (p_id tgt)) eqn:Hbusy; [split; assumption|].
  simpl. split.
  - intros h bt Hh. simpl in *.
    destruct (decide (next_handle s = h)) as [<-|Hne]; [lia|].
    rewrite lookup_insert_ne in Hh by exact Hne.
    apply I1 in Hh. lia.
  - intros h bt Hh Hst. simpl in *.
    destruct (decide (next_handle s = h)) as [<-|Hne].
    + rewrite lookup_insert_eq in Hh. injection Hh as <-. simpl.
      apply lookup_insert_eq.
    + rewrite lookup_insert_ne in Hh by exact Hne.
      destruct (decide (p_id tgt = bt_target_id bt)) as [Et|Et].
      * exfalso. unfold battle_in_progress, task_done in Hbusy.
        rewrite Et, (I2 h bt Hh Hst), Hh in Hbusy.
        apply is_resolved_false in Hst. rewrite Hst in Hbusy.
        discriminate Hbusy.
      * rewrite lookup_insert_ne by exact Et. apply I2; assumption.
Qed.

Lemma sched_step_inv (s s' : sched) :
  sched_step s s' → coordinator_inv s → coordinator_inv s'.
Proof.
  intros Hstep [I1 I2]. destruct Hstep as
    [s ws msg | s h bt m' Hh Hst Hab | s h bt m' Hh Hst Hab | s m' Hab].
  - apply attack_planet_inv. split; assumption.
  - split; simpl.
    + intros h' bt' H'. destruct (decide (h = h')) as [<-|Hne].
      * eapply I1, Hh.
      * rewrite lookup_insert_ne in H' by exact Hne. eapply I1, H'.
    + intros h' bt' H' Hst'. rewrite Hab.
      destruct (decide (h = h')) as [<-|Hne].
      * rewrite lookup_insert_eq in H'. injection H' as <-. simpl.
        apply I2; assumption.
      * rewrite lookup_insert_ne in H' by exact Hne. apply I2; assumption.
  - split; simpl.
    + intros h' bt' H'. destruct (decide (h = h')) as [<-|Hne].
      * eapply I1, Hh.
      * rewrite lookup_insert_ne in H' by exact Hne. eapply I1, H'.
    + intros h' bt' H' Hst'. rewrite Hab.
      destruct (decide (h = h')) as [<-|Hne].
      * rewrite lookup_insert_eq in H'. injection H' as <-.
        exfalso. apply Hst'. reflexivity.
      * rewrite lookup_insert_ne in H' by exact Hne.
        destruct (decide (bt_target_id bt = bt_target_id bt')) as [Et|Et].
        -- exfalso. apply Hne.
           pose proof (I2 h bt Hh Hst) as A.
           pose proof (I2 h' bt' H' Hst') as B.
           rewrite Et in A. congruence.
        -- rewrite lookup_delete_ne by exact Et. apply I2; assumption.
  - split; simpl; [exact I1|]. intros h bt Hh Hst. rewrite Hab.
    apply I2; assumption.
Qed.

Lemma reachable_inv (s : sched) : reachable s → coordinator_inv s.
Proof.
  intros (s0 & [Ht Ha] & Hrtc).
  assert (I0 : coordinator_inv s0).
  { split; intros h bt Hh; rewrite Ht, lookup_empty in Hh; discriminate. }
  clear Ht Ha. induction Hrtc as [|x y z Hxy _ IH]; [exact I0|].
  apply IH. eapply sched_step_inv; eassumption.
Qed.

Lemma inv_exclusive (s : sched) : coordinator_inv s → exclusive s.
Proof.
  intros [_ I2] h1 h2 b1 b2 H1 H2 S1 S2 Et.
  pose proof (I2 h1 b1 H1 S1) as A.
  pose proof (I2 h2 b2 H2 S2) as B.
  rewrite Et in A. congruence.
Qed.

(** C2. In every state the scheduler can reach, whatever the
    interleaving of handlers and battle segments, two unresolved battles
    on one target id are the same battle, and the unresolved battle of a
    target is the task registered for it in [active_battles]. An
    [attack_planet] command for a target whose registered task is not
    done leaves the state unchanged (no battle is created) and is
    answered by an error. The test of [active_battles] and the
    registration of the new task belong to one atomic segment
    ([step_attack]). *)
Theorem C2_per_target_exclusive (s : sched) :
  reachable s →
  exclusive s
  ∧ (∀ h bt, tasks s !! h = Some bt → bt_state bt ≠ Resolved →
       active_battles (mgr s) !! bt_target_id bt = Some h)
  ∧ (∀ ws msg tid h bt,
       planet_id msg = Some tid →
       active_battles (mgr s) !! tid = Some h →
       tasks s !! h = Some bt → bt_state bt ≠ Resolved →
       (attack_planet s ws msg).1 = s
       ∧ ∃ e, (attack_planet s ws msg).2 = [MsgError e])
  ∧ ∀ ws msg, exclusive (attack_planet s ws msg).1.
Proof.
  intros Hr. pose proof (reachable_inv s Hr) as Hinv.
  split; [apply inv_exclusive, Hinv|]. split; [apply Hinv|]. split.
  - intros ws msg tid h bt Hid Hab Hh Hst.
    apply (attack_planet_rejected s ws msg tid Hid).
    unfold battle_in_progress, task_done. rewrite Hab, Hh.
    apply is_resolved_false in Hst. rewrite Hst. reflexivity.
  - intros ws msg. apply inv_exclusive, attack_planet_inv, Hinv.
Qed.

Lemma carol_attacking_reachable : reachable carol_attacking.
Proof.
  exists carol_sched. split; [split; reflexivity|].
  apply rtc_once. apply step_attack.
Defined.

Lemma C2_per_target_exclusive_witness :
  reachable carol_attacking
  ∧ tasks carol_attacking !! 0%nat
    = Some (mk_battle_task 7%nat "carol" 0 1 "planet-system-0-1" 100 Started)
  ∧ (attack_planet carol_attacking 7%nat carol_attack).1 = carol_attacking.
Proof.
  split; [exact carol_attacking_reachable|]. split; [reflexivity|].
  exact (proj1 (proj1 (proj2 (proj2
    (C2_per_target_exclusive carol_attacking carol_attacking_reachable)))
    7%nat carol_attack "planet-system-0-1" 0%nat
    (mk_battle_task 7%nat "carol" 0 1 "planet-system-0-1" 100 Started)
    eq_refl eq_refl eq_refl ltac:(discriminate))).
Defined.

(** ** One uninterrupted run of [_simulate_battle] *)

Lemma send_game_state_preserves_world (m : manager) (ws : websocket)
    (wallet : string) (t : Q) (now_ts : Z) (ok : bool) :
  let m1 := (send_game_state m ws wallet t now_ts ok).1 in
  active_battles m1 = active_battles m ∧ universe m1 = universe m.
Proof.
  unfold send_game_state.
  destruct (throttled m wallet t); [split; reflexivity|].
  destruct (active_connections m !! ws) as [ci|]; [|split; reflexivity].
  destruct (characters m !! wallet) as [c|]; [|split; reflexivity].
  destruct (calculate_preserves_broadcast_state m now_ts wallet)
    as (_ & _ & Hb & Hu & _).
  destruct (calculate_leverage_multiplier m now_ts wallet) as [m1 lev].
  simpl in Hb, Hu.
  destruct (is_connected ci); [destruct ok|]; simpl; split; assumption.
Qed.

(** Whatever the outcome and wherever a send fails, a run ends with the
    target id removed from [active_battles]. *)
Lemma simulate_battle_releases_target (m : manager) (ws : websocket)
    (attacker : string) (source target : nat) (count : Z)
    (source_ids : list string) (env : battle_env) (src tgt : planet) :
  universe m !! source = Some src →
  universe m !! target = Some tgt →
  active_battles
    (_simulate_battle m ws attacker source target count source_ids env).1
  = delete (p_id tgt) (active_battles m).
Proof.
  intros Hs Ht. unfold _simulate_battle. rewrite Hs, Ht.
  destruct (decide (env_fail_at env = Some 0%nat)); [reflexivity|].
  destruct (calculate_preserves_broadcast_state m (env_now_ts env) attacker)
    as (_ & _ & Hb & _).
  destruct (calculate_leverage_multiplier m (env_now_ts env) attacker)
    as [m1 a_mult].
  simpl in Hb. cbv zeta.
  destruct (match env_fail_at env with
            | Some k => _
            | None => None
            end); [simpl; rewrite Hb; reflexivity|].
  unfold resolve_world.
  destruct (apply_outcome attacker _ tgt) as [tgt' fd].
  destruct (decide (env_fail_at env = Some _)); [simpl; rewrite Hb; reflexivity|].
  match goal with
  | |- context [send_game_state ?a ?b ?c ?d ?e ?f] =>
      pose proof (send_game_state_preserves_world a b c d e f) as [Hg _];
      destruct (send_game_state a b c d e f) as [m3 sent]
  end.
  simpl in *. rewrite Hg, Hb. reflexivity.
Qed.

(** * Further properties *)

(** ** Further properties of the scoring engine *)

Lemma a_total_bounds (m : manager) (now_ts : Z) (wallet : string) :
  1 <= a_total_of (calculate_leverage_multiplier m now_ts wallet).2
  ∧ a_total_of (calculate_leverage_multiplier m now_ts wallet).2 <= 2.
Proof.
  unfold calculate_leverage_multiplier.
  destruct (leverage_data m !! wallet); [|split; discriminate].
  destruct (characters m !! wallet); [|split; discriminate].
  simpl. apply clamp_bounds.
Qed.

(** The scoring call writes only to the caller's profile. *)
Lemma calculate_frame (m : manager) (now_ts : Z) (wallet : string) :
  let m' := (calculate_leverage_multiplier m now_ts wallet).1 in
  active_connections m' = active_connections m
  ∧ connection_count m' = connection_count m
  ∧ characters m' = characters m
  ∧ territories m' = territories m
  ∧ missions m' = missions m
  ∧ achievements m' = achievements m
  ∧ universe m' = universe m
  ∧ active_battles m' = active_battles m
  ∧ last_game_state_send m' = last_game_state_send m
  ∧ (∀ w, w ≠ wallet → leverage_data m' !! w = leverage_data m !! w)
  ∧ research <$> (leverage_data m' !! wallet)
    = research <$> (leverage_data m !! wallet)
  ∧ ∀ w, is_Some (leverage_data m' !! w) ↔ is_Some (leverage_data m !! w).
Proof.
  unfold calculate_leverage_multiplier.
  destruct (leverage_data m !! wallet) as [data|] eqn:Hd;
    [|simpl; repeat split; auto; try (rewrite Hd; reflexivity)].
  destruct (characters m !! wallet) as [c|];
    [|simpl; repeat split; auto; try (rewrite Hd; reflexivity)].
  simpl. repeat split; try reflexivity.
  - intros w Hw. apply lookup_insert_ne. congruence.
  - rewrite lookup_insert_eq. reflexivity.
  - destruct (decide (w = wallet)) as [->|Hw].
    + rewrite Hd. eauto.
    + rewrite lookup_insert_ne by congruence. auto.
  - destruct (decide (w = wallet)) as [->|Hw].
    + rewrite lookup_insert_eq. eauto.
    + rewrite lookup_insert_ne by congruence. auto.
Qed.

(** X1. A scoring call writes nothing but the caller's own leverage profile:
    connections, characters, territories, missions, achievements,
    universe, battles and throttle times are left as they are, other
    players' profiles are untouched, the research levels of the profile
    are unchanged, and no profile is created for a wallet that had none. *)
Theorem X1_calculate_frame (m : manager) (now_ts : Z) (wallet : string) :
  let m' := (calculate_leverage_multiplier m now_ts wallet).1 in
  active_connections m' = active_connections m
  ∧ connection_count m' = connection_count m
  ∧ characters m' = characters m
  ∧ territories m' = territories m
  ∧ missions m' = missions m
  ∧ achievements m' = achievements m
  ∧ universe m' = universe m
  ∧ active_battles m' = active_battles m
  ∧ last_game_state_send m' = last_game_state_send m
  ∧ (∀ w, w ≠ wallet → leverage_data m' !! w = leverage_data m !! w)
  ∧ research <$> (leverage_data m' !! wallet)
    = research <$> (leverage_data m !! wallet)
  ∧ ∀ w, is_Some (leverage_data m' !! w) ↔ is_Some (leverage_data m !! w).
Proof. exact (calculate_frame m now_ts wallet). Qed.

(** With distinct keys, the buff loop keeps exactly the entries that
    count, in order. *)
Lemma temp_fold_nodup (now_ts : Z) (l : list (string * buff)) (q : Q)
    (acc : dict buff) :
  NoDup (dict_keys l) →
  (∀ k, k ∈ dict_keys acc → k ∉ dict_keys l) →
  fold_left (temp_step now_ts) l (q, acc)
  = (fold_left Qplus
       (map (fun kb => b_level (snd kb)) (List.filter (counted now_ts) l)) q,
     acc ++ List.filter (counted now_ts) l).
Proof.
  revert q acc. induction l as [|[k b] l IH]; intros q acc Hnd Hdis.
  - simpl. rewrite app_nil_r. reflexivity.
  - apply NoDup_cons in Hnd as [Hk Hnd].
    change (fold_left (temp_step now_ts) ((k, b) :: l) (q, acc))
      with (fold_left (temp_step now_ts) l (temp_step now_ts (q, acc) (k, b))).
    change (List.filter (counted now_ts) ((k, b) :: l))
      with (if counted now_ts (k, b)
            then (k, b) :: List.filter (counted now_ts) l
            else List.filter (counted now_ts) l).
    unfold temp_step. fold (counted now_ts (k, b)).
    destruct (counted now_ts (k, b)) eqn:E.
    + cbn [fst snd]. rewrite dict_set_fresh.
      2:{ intros Hin. apply (Hdis k Hin). left. }
      rewrite IH; [|exact Hnd|].
      * cbn [map fold_left snd]. rewrite <- app_assoc. reflexivity.
      * intros k' Hin. unfold dict_keys in Hin. rewrite map_app in Hin.
        apply elem_of_app in Hin as [Hin|Hin].
        -- intros Hl. apply (Hdis k' Hin). right. exact Hl.
        -- simpl in Hin. apply list_elem_of_singleton in Hin. subst k'.
           exact Hk.
    + apply IH; [exact Hnd|].
      intros k' Hin Hl. apply (Hdis k' Hin). right. exact Hl.
Qed.

Lemma filter_counted_keys (now_ts : Z) (l : list (string * buff)) :
  NoDup (dict_keys l) → NoDup (dict_keys (List.filter (counted now_ts) l)).
Proof.
  induction l as [|[k b] l IH]; intros Hnd; simpl; [constructor|].
  apply NoDup_cons in Hnd as [Hk Hnd].
  destruct (counted now_ts (k, b)); [|apply IH, Hnd].
  simpl. apply NoDup_cons. split; [|apply IH, Hnd].
  intros Hin. apply Hk. unfold dict_keys in *.
  apply list_elem_of_fmap in Hin as [[k' b'] [-> Hin]].
  apply list_elem_of_In, filter_In in Hin as [Hin _].
  apply list_elem_of_fmap. exists (k', b'). split; [reflexivity|].
  apply list_elem_of_In, Hin.
Qed.

Lemma filter_counted_twice (now_ts : Z) (l : list (string * buff)) :
  List.filter (counted now_ts) (List.filter (counted now_ts) l)
  = List.filter (counted now_ts) l.
Proof.
  induction l as [|kb l IH]; simpl; [reflexivity|].
  destruct (counted now_ts kb) eqn:E; simpl; [rewrite E, IH|]; auto.
Qed.

Lemma temp_loop_nodup (now_ts : Z) (p : profile) :
  NoDup (dict_keys (default [] (temp_buffs p))) →
  temp_loop now_ts p
  = (fold_left Qplus
       (map (fun kb => b_level (snd kb))
          (List.filter (counted now_ts) (default [] (temp_buffs p)))) 0,
     List.filter (counted now_ts) (default [] (temp_buffs p))).
Proof.
  intros Hnd. unfold temp_loop.
  rewrite temp_fold_nodup; [reflexivity | exact Hnd |].
  intros k Hin. inversion Hin.
Qed.

(** X2. For a known player whose buff dictionary has distinct keys (as every
    Python dictionary has), a second scoring call at the same clock
    value returns the same value as the first and leaves the state the
    first call produced. *)
Theorem X2_calculate_idempotent (m : manager) (now_ts : Z) (wallet : string)
    (data : profile) (c : character) :
  leverage_data m !! wallet = Some data →
  characters m !! wallet = Some c →
  NoDup (dict_keys (default [] (temp_buffs data))) →
  calculate_leverage_multiplier
    (calculate_leverage_multiplier m now_ts wallet).1 now_ts wallet
  = calculate_leverage_multiplier m now_ts wallet.
Proof.
  intros Hd Hc Hnd.
  assert (Hloop : temp_loop now_ts (update_profile m now_ts wallet data c)
                  = temp_loop now_ts data).
  { rewrite (temp_loop_nodup now_ts data Hnd).
    rewrite temp_loop_nodup; simpl.
    - rewrite (temp_loop_nodup now_ts data Hnd). simpl.
      rewrite filter_counted_twice. reflexivity.
    - rewrite (temp_loop_nodup now_ts data Hnd). simpl.
      apply filter_counted_keys, Hnd. }
  unfold calculate_leverage_multiplier at 2. rewrite Hd, Hc. simpl.
  unfold calculate_leverage_multiplier. simpl.
  rewrite lookup_insert_eq, Hd, Hc.
  set (data' := update_profile m now_ts wallet data c) in *.
  assert (Hb : build_bonuses
                 (set_leverage_data m (<[wallet:=data']> (leverage_data m)))
                 now_ts wallet data' c
               = build_bonuses m now_ts wallet data c).
  { unfold build_bonuses, temp_total_of, research_total_of, research_sum.
    rewrite Hloop. reflexivity. }
  assert (Hu : update_profile
                 (set_leverage_data m (<[wallet:=data']> (leverage_data m)))
                 now_ts wallet data' c = data').
  { unfold update_profile at 1. rewrite Hloop. subst data'.
    unfold update_profile. simpl.
    destruct (ch_resources c); destruct (missions m !! wallet); reflexivity. }
  rewrite Hb, Hu, Hloop. rewrite insert_insert_eq. reflexivity.
Qed.

Lemma counted_later (t1 t2 : Z) (kb : string * buff) :
  (t1 <= t2)%Z → counted t2 kb = true → counted t1 kb = true.
Proof.
  unfold counted. intros Ht H. apply andb_true_iff in H as [H1 H2].
  apply andb_true_iff. split; [|exact H2].
  apply Z.ltb_lt in H1. apply Z.ltb_lt. lia.
Qed.

Lemma counted_sum_later (t1 t2 : Z) (l : list (string * buff)) (q1 q2 : Q) :
  (t1 <= t2)%Z → q2 <= q1 →
  fold_left Qplus (map (fun kb => b_level (snd kb))
                     (List.filter (counted t2) l)) q2
  <= fold_left Qplus (map (fun kb => b_level (snd kb))
                        (List.filter (counted t1) l)) q1.
Proof.
  intros Ht. revert q1 q2. induction l as [|kb l IH]; intros q1 q2 Hq.
  - exact Hq.
  - cbn [List.filter]. destruct (counted t2 kb) eqn:E2.
    + rewrite (counted_later t1 t2 kb Ht E2). cbn [map fold_left].
      apply IH. apply Qplus_le_compat; [exact Hq | apply Qle_refl].
    + destruct (counted t1 kb) eqn:E1; cbn [map fold_left]; [|apply IH, Hq].
      apply IH. unfold counted in E1. apply andb_true_iff in E1 as [_ E1].
      apply Qlt_bool_iff in E1. lra.
Qed.

Lemma temp_total_later (t1 t2 : Z) (p : profile) :
  (t1 <= t2)%Z → temp_total_of t2 p <= temp_total_of t1 p.
Proof.
  intros Ht. unfold temp_total_of, temp_loop. rewrite !temp_fold_sum.
  apply Q.min_le_compat_r. apply counted_sum_later; [exact Ht | apply Qle_refl].
Qed.

Lemma total_of_known (m : manager) (now_ts : Z) (wallet : string)
    (data : profile) (c : character) :
  leverage_data m !! wallet = Some data →
  characters m !! wallet = Some c →
  a_total_of (calculate_leverage_multiplier m now_ts wallet).2
  == Qmin (Qmax (1 + py_sum (contributions m now_ts wallet data c)) 1) 2.
Proof.
  intros Hd Hc. unfold calculate_leverage_multiplier. rewrite Hd, Hc. simpl.
  rewrite build_bonuses_sum. reflexivity.
Qed.

(** X3. On an unchanged state the multiplier can only shrink as the clock
    advances: the value computed at a later time is at most the value
    computed at an earlier time, since time only expires buffs. *)
Theorem X3_multiplier_decays (m : manager) (t1 t2 : Z) (wallet : string) :
  (t1 <= t2)%Z →
  a_total_of (calculate_leverage_multiplier m t2 wallet).2
  <= a_total_of (calculate_leverage_multiplier m t1 wallet).2.
Proof.
  intros Ht.
  destruct (leverage_data m !! wallet) as [data|] eqn:Hd.
  2:{ unfold calculate_leverage_multiplier. rewrite Hd. apply Qle_refl. }
  destruct (characters m !! wallet) as [c|] eqn:Hc.
  2:{ unfold calculate_leverage_multiplier. rewrite Hd, Hc. apply Qle_refl. }
  rewrite (total_of_known m t1 wallet data c Hd Hc).
  rewrite (total_of_known m t2 wallet data c Hd Hc).
  apply Q.min_le_compat_r, Q.max_le_compat_r.
  pose proof (temp_total_later t1 t2 data Ht) as Hl.
  unfold contributions, py_sum. cbn [fold_left]. lra.
Qed.

(** X4. For a known player the reported efficiency equals total - 1 and lies
    in [0, 1], the reported potential increase equals 2 - total, and the
    two add up to 1. *)
Theorem X4_efficiency (m : manager) (now_ts : Z) (wallet : string)
    (data : profile) (c : character) :
  leverage_data m !! wallet = Some data →
  characters m !! wallet = Some c →
  ∃ r d,
    (calculate_leverage_multiplier m now_ts wallet).2 = RDict r
    ∧ detail r = Some d
    ∧ efficiency d == total r - 1
    ∧ potential_increase d == 2 - total r
    ∧ 0 <= efficiency d ∧ efficiency d <= 1
    ∧ efficiency d + potential_increase d == 1.
Proof.
  intros Hd Hc. unfold calculate_leverage_multiplier. rewrite Hd, Hc.
  eexists _, _. split; [reflexivity|]. split; [reflexivity|]. simpl.
  set (t := Qmin (Qmax _ 1) 2).
  assert (Ht : 1 <= t <= 2) by apply clamp_bounds.
  assert (He : (t - 1) / (2 - 1) == t - 1) by (field).
  rewrite He. repeat split; lra.
Qed.

(** ** Further properties of combat resolution *)

Lemma scaled_count_bounds (n : Z) (p q : positive) :
  (0 <= n)%Z → (Zpos p <= Zpos q)%Z →
  (0 <= py_int (inject_Z n * (Zpos p # q)) <= n)%Z.
Proof.
  intros Hn Hpq. rewrite py_int_scale.
  rewrite Z.quot_div_nonneg by lia. split.
  - apply Z.div_pos; lia.
  - apply Z.div_le_upper_bound; [lia|]. nia.
Qed.

(** X6. For non-negative starting counts, whatever the tier and the random
    draw, the survivor counts are non-negative and never exceed the
    starting count, except that the floor of one unit may lift them to
    1. *)
Theorem X6_survivors_bounded (a d : Z) (mult rnd : Q) :
  (0 <= a)%Z → (0 <= d)%Z →
  let o := battle_outcome a d mult rnd in
  (0 <= attacker_survivors o <= Z.max 1 a)%Z
  ∧ (0 <= defender_survivors o <= Z.max 1 d)%Z.
Proof.
  intros Ha Hd. cbv zeta. unfold battle_outcome. cbv zeta.
  pose proof (scaled_count_bounds a 7 10 Ha ltac:(lia)).
  pose proof (scaled_count_bounds a 5 10 Ha ltac:(lia)).
  pose proof (scaled_count_bounds a 3 10 Ha ltac:(lia)).
  pose proof (scaled_count_bounds a 2 10 Ha ltac:(lia)).
  pose proof (scaled_count_bounds a 1 10 Ha ltac:(lia)).
  pose proof (scaled_count_bounds d 6 10 Hd ltac:(lia)).
  pose proof (scaled_count_bounds d 4 10 Hd ltac:(lia)).
  pose proof (scaled_count_bounds d 8 10 Hd ltac:(lia)).
  change (7 # 10) with 0.7 in *. change (5 # 10) with 0.5 in *.
  change (3 # 10) with 0.3 in *. change (2 # 10) with 0.2 in *.
  change (1 # 10) with 0.1 in *. change (6 # 10) with 0.6 in *.
  change (4 # 10) with 0.4 in *. change (8 # 10) with 0.8 in *.
  destruct (Qle_bool 2 _); [simpl; lia|].
  destruct (Qle_bool 1.5 _); [destruct (Qlt_bool rnd 0.85); simpl; lia|].
  destruct (Qle_bool 1 _); [destruct (Qlt_bool rnd 0.45); simpl; lia|].
  destruct (Qlt_bool rnd 0.15); simpl; lia.
Qed.

Lemma Qmax_pos (r : Q) : 0 < Qmax 0.1 r.
Proof. apply Qlt_le_trans with 0.1; [reflexivity | apply Q.le_max_l]. Qed.

(** X7. The number of ticks never grows with the power ratio: a stronger
    attack lasts at most as many ticks as a weaker one. *)
Theorem X7_duration_antitone (r1 r2 : Q) :
  r1 <= r2 → (duration r2 <= duration r1)%Z.
Proof.
  intros Hr. rewrite !duration_floor.
  apply Z.min_le_compat_l, Z.max_le_compat_l, Qfloor_resp_le.
  pose proof (Qmax_pos r1) as H1. pose proof (Qmax_pos r2) as H2.
  assert (Hm : Qmax 0.1 r1 <= Qmax 0.1 r2) by (apply Q.max_le_compat_l, Hr).
  unfold Qdiv. apply Qmult_le_l; [reflexivity|].
  apply Qle_shift_inv_l; [exact H1|].
  assert (Hi : 0 < / Qmax 0.1 r2) by (apply Qinv_lt_0_compat, H2).
  assert (Hone : / Qmax 0.1 r2 * Qmax 0.1 r2 == 1).
  { field. intros E. rewrite E in H2. exact (Qlt_irrefl 0 H2). }
  rewrite <- Hone. apply Qmult_le_l; assumption.
Qed.

Lemma py_int_inject (q : Q) (z : Z) : q == inject_Z z → py_int q = z.
Proof.
  destruct q as [n d]. unfold Qeq, py_int. simpl. intros H.
  rewrite Z.mul_1_r in H. rewrite H. apply Z.quot_mul. discriminate.
Qed.

(** X8. The last tick of a battle reports exactly the final survivor count:
    the interpolation reaches its end point at progress 1. *)
Theorem X8_last_tick_is_final (start final n : Z) :
  (0 < n)%Z → tick_count start final (n - 1) n = final.
Proof.
  intros Hn. unfold tick_count. cbv zeta. apply py_int_inject.
  replace (n - 1 + 1)%Z with n by lia.
  assert (Hnz : ~ inject_Z n == 0).
  { unfold Qeq. simpl. lia. }
  field. exact Hnz.
Qed.




Lemma find_planet_from_none (i : nat) (pid : string) (ps : list planet) :
  pid ∉ map p_id ps → _find_planet_from i (Some pid) ps = None.
Proof.
  revert i. induction ps as [|p ps IH]; intros i Hn; simpl; [reflexivity|].
  destruct (decide (Some (p_id p) = Some pid)) as [E|E].
  - exfalso. apply Hn. injection E as <-. simpl. left.
  - apply IH. intros Hin. apply Hn. simpl. right. exact Hin.
Qed.

Lemma find_planet_from_first (i : nat) (pid : string) (ps : list planet)
    (found : option (nat * planet)) :
  NoDup (map p_id ps) →
  find_planet_from i (Some pid) ps found
  = match _find_planet_from i (Some pid) ps with
    | Some r => Some r
    | None => found
    end.
Proof.
  revert i found. induction ps as [|p ps IH]; intros i found Hnd; simpl;
    [reflexivity|].
  simpl in Hnd. apply NoDup_cons in Hnd as [Hp Hnd].
  rewrite (IH _ _ Hnd).
  destruct (decide (Some (p_id p) = Some pid)) as [E|E]; [|reflexivity].
  injection E as E. rewrite <- E.
  rewrite (find_planet_from_none (S i) (p_id p) ps Hp). reflexivity.
Qed.

(** X14. When planet ids are distinct, the scan of attack_planet (which
    keeps the last planet with the id) and _find_planet (which returns
    the first) find the same planet. *)
Theorem X14_planet_lookups_agree (m : manager) (pid : string) :
  NoDup (map p_id (universe m)) →
  find_planet m (Some pid) = _find_planet m (Some pid).
Proof.
  intros Hnd. unfold find_planet, _find_planet.
  rewrite (find_planet_from_first 0 pid (universe m) None Hnd).
  destruct (_find_planet_from 0 (Some pid) (universe m)); reflexivity.
Qed.

Lemma attack_planet_registry (s : sched) (ws : websocket) (msg : attack_msg) :
  registry_inv s → registry_inv (attack_planet s ws msg).1.
Proof.
  intros (R1 & R2 & R3). unfold attack_planet.
  destruct (active_connections (mgr s) !! ws) as [ci|];
    [|repeat split; assumption].
  destruct (find_planet (mgr s) (from_id msg)) as [[si src]|];
    [|repeat split; assumption].
  destruct (find_planet (mgr s) (planet_id msg)) as [[ti tgt]|];
    [|repeat split; assumption].
  destruct (battle_in_progress s (p_id tgt)); [repeat split; assumption|].
  simpl. split; [|split].
  - intros tid h Hh. simpl in *.
    destruct (decide (p_id tgt = tid)) as [<-|Hne].
    + rewrite lookup_insert_eq in Hh. injection Hh as <-. lia.
    + rewrite lookup_insert_ne in Hh by exact Hne. apply R1 in Hh. lia.
  - intros h bt Hh. simpl in *.
    destruct (decide (next_handle s = h)) as [<-|Hne]; [lia|].
    rewrite lookup_insert_ne in Hh by exact Hne. apply R2 in Hh. lia.
  - intros tid h bt Ha Hh. simpl in *.
    destruct (decide (p_id tgt = tid)) as [<-|Hne].
    + rewrite lookup_insert_eq in Ha. injection Ha as <-.
      rewrite lookup_insert_eq in Hh. injection Hh as <-. reflexivity.
    + rewrite lookup_insert_ne in Ha by exact Hne.
      pose proof (R1 _ _ Ha) as Hlt.
      rewrite lookup_insert_ne in Hh by lia.
      eapply R3; eassumption.
Qed.

Lemma sched_step_registry (s s' : sched) :
  sched_step s s' → registry_inv s → registry_inv s'.
Proof.
  intros Hstep (R1 & R2 & R3). destruct Hstep as
    [s ws msg | s h bt m' Hh Hst Hab | s h bt m' Hh Hst Hab | s m' Hab].
  - apply attack_planet_registry. repeat split; assumption.
  - simpl. split; [|split]; simpl.
    + intros tid h' H'. rewrite Hab in H'. eapply R1, H'.
    + intros h' bt' H'. destruct (decide (h = h')) as [<-|Hne].
      * eapply R2, Hh.
      * rewrite lookup_insert_ne in H' by exact Hne. eapply R2, H'.
    + intros tid h' bt' Ha H'. rewrite Hab in Ha.
      destruct (decide (h = h')) as [<-|Hne].
      * rewrite lookup_insert_eq in H'. injection H' as <-. simpl.
        eapply R3; eassumption.
      * rewrite lookup_insert_ne in H' by exact Hne. eapply R3; eassumption.
  - simpl. split; [|split]; simpl.
    + intros tid h' H'. rewrite Hab in H'.
      apply lookup_delete_Some in H' as [_ H']. eapply R1, H'.
    + intros h' bt' H'. destruct (decide (h = h')) as [<-|Hne].
      * eapply R2, Hh.
      * rewrite lookup_insert_ne in H' by exact Hne. eapply R2, H'.
    + intros tid h' bt' Ha H'. rewrite Hab in Ha.
      apply lookup_delete_Some in Ha as [_ Ha].
      destruct (decide (h = h')) as [<-|Hne].
      * rewrite lookup_insert_eq in H'. injection H' as <-. simpl.
        eapply R3; eassumption.
      * rewrite lookup_insert_ne in H' by exact Hne. eapply R3; eassumption.
  - simpl. split; [|split]; simpl.
    + intros tid h H'. rewrite Hab in H'. eapply R1, H'.
    + exact R2.
    + intros tid h bt Ha H'. rewrite Hab in Ha. eapply R3; eassumption.
Qed.

Lemma reachable_registry (s : sched) : reachable s → registry_inv s.
Proof.
  intros (s0 & [Ht Ha] & Hrtc).
  assert (I0 : registry_inv s0).
  { split; [|split].
    - intros tid h H. rewrite Ha, lookup_empty in H. discriminate.
    - intros h bt H. rewrite Ht, lookup_empty in H. discriminate.
    - intros tid h bt H. rewrite Ha, lookup_empty in H. discriminate. }
  clear Ht Ha. induction Hrtc as [|x y z Hxy _ IH]; [exact I0|].
  apply IH. eapply sched_step_registry; eassumption.
Qed.

(** X13. In every reachable state a target counts as busy only if an
    unresolved battle on that very target id exists and is the
    registered one: an attack is never rejected because of a stale or
    foreign entry. *)
Theorem X13_busy_means_battle (s : sched) (tid : string) :
  reachable s →
  battle_in_progress s tid = true →
  ∃ h bt, active_battles (mgr s) !! tid = Some h
          ∧ tasks s !! h = Some bt
          ∧ bt_state bt ≠ Resolved
          ∧ bt_target_id bt = tid.
Proof.
  intros Hr Hbusy. destruct (reachable_registry s Hr) as (_ & _ & R3).
  unfold battle_in_progress, task_done in Hbusy.
  destruct (active_battles (mgr s) !! tid) as [h|] eqn:Ha; [|discriminate].
  destruct (tasks s !! h) as [bt|] eqn:Hh; [|discriminate].
  exists h, bt. split; [reflexivity|]. split; [exact Hh|]. split.
  - apply is_resolved_false. apply negb_true_iff in Hbusy. exact Hbusy.
  - eapply R3; eassumption.
Qed.

(** ** Further properties of the battle coordinator *)

(** X9. However a run of the battle ends (victory, defeat, or a send that
    fails at any point), it removes the target id from the active
    battles, so the target is not in progress afterwards. *)
Theorem X9_battle_always_releases_target (m : manager) (ws : websocket)
    (attacker : string) (source target : nat) (count : Z)
    (source_ids : list string) (env : battle_env) (src tgt : planet)
    (ts : gmap task_handle battle_task) (n : task_handle) :
  universe m !! source = Some src →
  universe m !! target = Some tgt →
  let m' := (_simulate_battle m ws attacker source target count
               source_ids env).1 in
  active_battles m' = delete (p_id tgt) (active_battles m)
  ∧ battle_in_progress (mk_sched m' ts n) (p_id tgt) = false.
Proof.
  intros Hs Ht m'.
  assert (H : active_battles m' = delete (p_id tgt) (active_battles m))
    by (eapply simulate_battle_releases_target; eassumption).
  split; [exact H|]. unfold battle_in_progress. simpl.
  rewrite H, lookup_delete_eq. reflexivity.
Qed.

(** X10. When the sending of battle_started or of one of the first two
    updates fails, the battle is abandoned: planets, territories and
    characters are left unchanged, no attack_result is delivered, and
    exactly the events before the failing one were delivered. *)
Theorem X10_failed_send_aborts_battle (m : manager) (ws : websocket)
    (attacker : string) (source target : nat) (count : Z)
    (source_ids : list string) (env : battle_env) (src tgt : planet)
    (k : nat) :
  universe m !! source = Some src →
  universe m !! target = Some tgt →
  env_fail_at env = Some k →
  (k <= 2)%nat →
  let r := _simulate_battle m ws attacker source target count source_ids env in
  universe r.1 = universe m
  ∧ territories r.1 = territories m
  ∧ characters r.1 = characters m
  ∧ (∀ x, MsgAttackResult x ∉ r.2)
  ∧ length r.2 = k.
Proof.
  intros Hs Ht Hf Hk. cbv zeta. unfold _simulate_battle.
  rewrite Hs, Ht, Hf.
  destruct (decide (Some k = Some 0%nat)) as [E|E].
  { injection E as ->. simpl. repeat split. intros x Hx. inversion Hx. }
  pose proof (X1 := calculate_preserves_broadcast_state m (env_now_ts env)
                      attacker).
  assert (Hch : characters (calculate_leverage_multiplier m (env_now_ts env)
                              attacker).1 = characters m).
  { unfold calculate_leverage_multiplier.
    destruct (leverage_data m !! attacker); [|reflexivity].
    destruct (characters m !! attacker); reflexivity. }
  destruct (calculate_leverage_multiplier m (env_now_ts env) attacker)
    as [m1 a_mult].
  simpl in X1, Hch. destruct X1 as (_ & _ & _ & Hu & Hterr).
  cbv zeta.
  set (dur := duration _).
  assert (Hdur : (2 <= dur <= 5)%Z) by apply duration_bounds.
  destruct (decide (k ≤ Z.to_nat dur)%nat) as [_|Hgt]; [|lia].
  simpl. repeat split; try assumption.
  - intros x Hx. apply elem_of_cons in Hx as [Hx|Hx]; [discriminate|].
    apply elem_of_take in Hx as (i & Hx & _).
    unfold battle_updates in Hx. rewrite list_lookup_fmap in Hx.
    destruct (seqZ 0 dur !! i); simpl in Hx; discriminate.
  - rewrite length_take. unfold battle_updates. rewrite length_fmap, length_seqZ.
    assert (k ≠ 0%nat) by congruence. lia.
Qed.


(** X12. An attack from a connected session on a found target with no battle
    in progress is accepted whoever owns the source planet and whatever
    the amount: nothing is sent, a new task in state Started is
    registered under the target id, planets and characters are
    untouched; any further attack on that planet id from any session is
    then rejected with an error and changes nothing. *)
Theorem X12_second_attack_rejected (s : sched) (ws : websocket)
    (msg : attack_msg) (ci : conn_info) (si ti : nat) (src tgt : planet) :
  active_connections (mgr s) !! ws = Some ci →
  find_planet (mgr s) (from_id msg) = Some (si, src) →
  find_planet (mgr s) (planet_id msg) = Some (ti, tgt) →
  battle_in_progress s (p_id tgt) = false →
  let r := attack_planet s ws msg in
  r.2 = []
  ∧ tasks r.1 !! next_handle s
    = Some (mk_battle_task ws (client_id ci) si ti (p_id tgt)
              (default 20%Z (amount msg)) Started)
  ∧ active_battles (mgr r.1) !! p_id tgt = Some (next_handle s)
  ∧ universe (mgr r.1) = universe (mgr s)
  ∧ characters (mgr r.1) = characters (mgr s)
  ∧ ∀ ws' msg',
      planet_id msg' = planet_id msg →
      (attack_planet r.1 ws' msg').1 = r.1
      ∧ ∃ e, (attack_planet r.1 ws' msg').2 = [MsgError e].
Proof.
  intros Hc Hs Ht Hfree. cbv zeta.
  assert (Hid : planet_id msg = Some (p_id tgt)).
  { destruct (planet_id msg) as [tid|] eqn:E.
    - f_equal. symmetry. eapply find_planet_id, Ht.
    - exfalso. clear -Ht. unfold find_planet in Ht.
      assert (G : ∀ ps i, find_planet_from i None ps None = None).
      { induction ps as [|p ps IH]; intros i; simpl; [reflexivity|].
        destruct (decide (Some (p_id p) = None)); [discriminate | apply IH]. }
      rewrite G in Ht. discriminate. }
  unfold attack_planet at 1 2 3 4 5. rewrite Hc, Hs, Ht, Hfree. simpl.
  split; [reflexivity|]. split; [apply lookup_insert_eq|].
  split; [apply lookup_insert_eq|]. split; [reflexivity|].
  split; [reflexivity|].
  intros ws' msg' Hsame. rewrite Hid in Hsame.
  apply (attack_planet_rejected _ ws' msg' (p_id tgt) Hsame).
  unfold attack_planet. rewrite Hc, Hs, Ht, Hfree.
  unfold battle_in_progress, task_done. simpl.
  rewrite !lookup_insert_eq. reflexivity.
Qed.

(** ** Further properties of the broadcast *)

(** X15. Once the throttle window has elapsed (time since the last recorded
    send at least the window), a push to a connected session of an
    existing character is delivered when the send succeeds, carries the
    snapshot of the current state, and records its time. *)
Theorem X15_push_after_window_delivered (m : manager) (ws : websocket)
    (wallet : string) (t : Q) (now_ts : Z) (ci : conn_info) (c : character)
    (last : Q) :
  last_game_state_send m !! wallet = Some last →
  game_state_throttle_seconds m <= t - last →
  active_connections m !! ws = Some ci →
  is_connected ci = true →
  characters m !! wallet = Some c →
  let r := send_game_state m ws wallet t now_ts true in
  r.2 = [game_state m wallet c
           (calculate_leverage_multiplier m now_ts wallet).2]
  ∧ last_game_state_send r.1 !! wallet = Some t.
Proof.
  intros Hl Hw Hc Hi Hch. cbv zeta. unfold send_game_state, throttled.
  rewrite Hl. apply Qlt_bool_false in Hw. rewrite Hw, Hc, Hch.
  destruct (calculate_leverage_multiplier m now_ts wallet) as [m1 lev].
  rewrite Hi. simpl. split; [reflexivity | apply lookup_insert_eq].
Qed.

(** X16. A push whose send fails delivers nothing and does not record a send
    time, so it does not start or extend a throttle window. *)
Theorem X16_failed_push_not_recorded (m : manager) (ws : websocket)
    (wallet : string) (t : Q) (now_ts : Z) :
  let r := send_game_state m ws wallet t now_ts false in
  r.2 = []
  ∧ last_game_state_send r.1 = last_game_state_send m
  ∧ ∀ t', throttled r.1 wallet t' = throttled m wallet t'.
Proof.
  cbv zeta.
  assert (H : (send_game_state m ws wallet t now_ts false).2 = []
              ∧ last_game_state_send
                  (send_game_state m ws wallet t now_ts false).1
                = last_game_state_send m
              ∧ game_state_throttle_seconds
                  (send_game_state m ws wallet t now_ts false).1
                = game_state_throttle_seconds m).
  { unfold send_game_state.
    destruct (throttled m wallet t); [repeat split|].
    destruct (active_connections m !! ws) as [ci|]; [|repeat split].
    destruct (characters m !! wallet) as [c|]; [|repeat split].
    destruct (calculate_preserves_broadcast_state m now_ts wallet)
      as (Hl & Ht & _).
    destruct (calculate_leverage_multiplier m now_ts wallet) as [m1 lev].
    simpl in Hl, Ht. destruct (is_connected ci); simpl; repeat split; assumption. }
  destruct H as (H1 & H2 & H3). split; [exact H1|]. split; [exact H2|].
  intros t'. unfold throttled. rewrite H2, H3. reflexivity.
Qed.

(** ** Instances of the properties above *)

Lemma X2_calculate_idempotent_witness :
  calculate_leverage_multiplier
    (calculate_leverage_multiplier bob_manager 100 "bob").1 100 "bob"
  = calculate_leverage_multiplier bob_manager 100 "bob".
Proof.
  apply (X2_calculate_idempotent bob_manager 100 "bob" bob_profile
           bob_character eq_refl eq_refl).
  simpl. apply NoDup_cons. split.
  - intros H. apply list_elem_of_singleton in H. discriminate H.
  - apply NoDup_singleton.
Defined.

Lemma X3_multiplier_decays_witness :
  a_total_of (calculate_leverage_multiplier bob_manager 160 "bob").2
  <= a_total_of (calculate_leverage_multiplier bob_manager 100 "bob").2.
Proof.
  apply (X3_multiplier_decays bob_manager 100 160 "bob"). lia.
Defined.

Lemma X4_efficiency_witness :
  ∃ r d,
    (calculate_leverage_multiplier alice_manager 0 "alice").2 = RDict r
    ∧ detail r = Some d
    ∧ efficiency d == total r - 1.
Proof.
  destruct (X4_efficiency alice_manager 0 "alice" alice_profile
              alice_character eq_refl eq_refl)
    as (r & d & Hr & Hd & He & _).
  exists r, d. repeat split; assumption.
Defined.


Lemma X6_survivors_bounded_witness :
  (0 <= attacker_survivors (battle_outcome 50 80 1 (1 # 10)) <= Z.max 1 50)%Z.
Proof.
  apply (X6_survivors_bounded 50 80 1 (1 # 10)); lia.
Defined.

Lemma X7_duration_antitone_witness :
  (duration 3.75 <= duration (5 # 8))%Z.
Proof.
  apply (X7_duration_antitone (5 # 8) 3.75). unfold Qle. simpl. lia.
Defined.

Lemma X8_last_tick_is_final_witness : tick_count 100 70 1 2 = 70%Z.
Proof.
  apply (X8_last_tick_is_final 100 70 2). lia.
Defined.

Lemma X9_battle_always_releases_target_witness :
  battle_in_progress
    (mk_sched (_simulate_battle (mgr carol_attacking) 7%nat "carol" 0 1 100
                 ["planet-system-0-0"%string] lossy_env).1
       (tasks carol_attacking) 1%nat)
    (p_id bot_planet) = false.
Proof.
  exact (proj2 (X9_battle_always_releases_target (mgr carol_attacking) 7%nat
                  "carol" 0 1 100 ["planet-system-0-0"%string] lossy_env
                  carol_home bot_planet (tasks carol_attacking) 1%nat
                  eq_refl eq_refl)).
Defined.

Lemma X10_failed_send_aborts_battle_witness :
  universe (_simulate_battle carol_manager 7%nat "carol" 0 1 100
              ["planet-system-0-0"%string] lossy_env).1
  = universe carol_manager.
Proof.
  exact (proj1 (X10_failed_send_aborts_battle carol_manager 7%nat "carol" 0 1
                  100 ["planet-system-0-0"%string] lossy_env carol_home
                  bot_planet 1 eq_refl eq_refl eq_refl ltac:(lia))).
Defined.


Lemma X12_second_attack_rejected_witness :
  (attack_planet carol_sched 7%nat carol_attack).2 = []
  ∧ (attack_planet carol_attacking 7%nat carol_attack).1 = carol_attacking.
Proof.
  destruct (X12_second_attack_rejected carol_sched 7%nat carol_attack
              carol_conn 0 1 carol_home bot_planet
              eq_refl eq_refl eq_refl eq_refl)
    as (H1 & _ & _ & _ & _ & H6).
  split; [exact H1|]. exact (proj1 (H6 7%nat carol_attack eq_refl)).
Defined.

Lemma carol_attacking_from_start : reachable carol_attacking.
Proof.
  exists carol_sched. split; [split; reflexivity|].
  apply rtc_once. apply step_attack.
Defined.

Lemma X13_busy_means_battle_witness :
  ∃ h bt, active_battles (mgr carol_attacking) !! "planet-system-0-1"%string
          = Some h
          ∧ tasks carol_attacking !! h = Some bt
          ∧ bt_state bt ≠ Resolved
          ∧ bt_target_id bt = "planet-system-0-1"%string.
Proof.
  exact (X13_busy_means_battle carol_attacking "planet-system-0-1"
           carol_attacking_from_start eq_refl).
Defined.

Lemma X14_planet_lookups_agree_witness :
  find_planet carol_manager (Some "planet-system-0-1"%string)
  = _find_planet carol_manager (Some "planet-system-0-1"%string).
Proof.
  apply (X14_planet_lookups_agree carol_manager "planet-system-0-1").
  simpl. apply NoDup_cons. split.
  - intros H. apply list_elem_of_singleton in H. discriminate H.
  - apply NoDup_singleton.
Defined.

Lemma X15_push_after_window_delivered_witness :
  length (send_game_state
            (send_game_state carol_manager 7%nat "carol" 1000 1000 true).1
            7%nat "carol" 1300 1300 true).2 = 1%nat.
Proof.
  rewrite (proj1 (X15_push_after_window_delivered
                    (send_game_state carol_manager 7%nat "carol" 1000 1000
                       true).1
                    7%nat "carol" 1300 1300 carol_conn bob_character 1000
                    eq_refl ltac:(vm_compute; discriminate) eq_refl eq_refl
                    eq_refl)).
  reflexivity.
Defined.

(** * Properties of the command handlers and of the sessions *)

(** ** Command handlers *)

Lemma dict_get_set_eq {V : Type} (k : string) (v : V) (d : dict V) :
  dict_get k (dict_set k v d) = Some v.
Proof.
  induction d as [|[k' v'] d IH]; simpl.
  - rewrite String.eqb_refl. reflexivity.
  - destruct (String.eqb k k') eqn:E; simpl; rewrite E; [reflexivity | exact IH].
Qed.

Lemma dict_get_set_ne {V : Type} (k k0 : string) (v : V) (d : dict V) :
  k0 ≠ k → dict_get k0 (dict_set k v d) = dict_get k0 d.
Proof.
  intros Hne. induction d as [|[k' v'] d IH]; simpl.
  - destruct (String.eqb k0 k) eqn:E; [|reflexivity].
    apply String.eqb_eq in E. contradiction.
  - destruct (String.eqb k k') eqn:E; simpl.
    + apply String.eqb_eq in E. subst k'.
      destruct (String.eqb k0 k) eqn:E0; [|reflexivity].
      apply String.eqb_eq in E0. contradiction.
    + destruct (String.eqb k0 k'); [reflexivity | exact IH].
Qed.

Ltac refusal_cases :=
  repeat match goal with
         | |- context [match ?x with _ => _ end] =>
             destruct x eqn:?; simpl; try tauto
         | |- context [if ?b then _ else _] =>
             destruct b eqn:?; simpl; try tauto
         end.

(** A refused command leaves the state of its synchronous part as it
    was. *)
Lemma refusal_keeps_state :
  (∀ m ws msg now_ts,
     refusal (deploy_research_segment m ws msg now_ts).2 →
     (deploy_research_segment m ws msg now_ts).1 = m)
  ∧ (∀ m ws tech,
       refusal (research_segment m ws tech).2 →
       (research_segment m ws tech).1 = m)
  ∧ (∀ m ws msg,
       refusal (build_satellite_segment m ws msg).2 →
       (build_satellite_segment m ws msg).1 = m)
  ∧ (∀ m ws msg now_ts re rm,
       refusal (harvest_planet_segment m ws msg now_ts re rm).2 →
       (harvest_planet_segment m ws msg now_ts re rm).1 = m)
  ∧ (∀ m wallet tid,
       refusal (claim_territory_segment m wallet tid).2 →
       (claim_territory_segment m wallet tid).1 = m)
  ∧ (∀ m ws,
       refusal (defend_all_segment m ws).2 → (defend_all_segment m ws).1 = m)
  ∧ (∀ m ws,
       refusal (explore_new_sectors_segment m ws).2 →
       (explore_new_sectors_segment m ws).1 = m).
Proof.
  repeat split; intros.
  - revert H. unfold deploy_research_segment. refusal_cases.
  - revert H. unfold research_segment. refusal_cases.
  - revert H. unfold build_satellite_segment. refusal_cases.
  - revert H. unfold harvest_planet_segment, add_resource. refusal_cases.
  - revert H. unfold claim_territory_segment. refusal_cases.
  - revert H. unfold defend_all_segment. refusal_cases.
  - revert H. unfold explore_new_sectors_segment. refusal_cases.
Qed.

Lemma run_handler_refused (env : handler_env) (seg : manager * segment_end)
    (closing : manager → manager * list reply) :
  refusal seg.2 →
  (run_handler env seg closing).1 = seg.1
  ∧ (he_transport env = Healthy →
     ∃ e, (run_handler env seg closing).2 = [ReplyError e]).
Proof.
  unfold run_handler. destruct seg as [m' [e| |]]; simpl; try tauto.
  intros _. split; [reflexivity|]. intros ->. eauto.
Qed.

(** X17. A command that is refused (the handler raises a ValueError: unknown
    planet or territory, not the owner, already controlled, nothing to
    defend, not enough of a resource) leaves the whole state as it was;
    this holds for deploy_research, research, build_satellite,
    harvest_planet, claim_territory, defend_all and explore_new_sectors. *)
Theorem X17_refusal_changes_nothing :
  (∀ m ws msg now_ts env,
     refusal (deploy_research_segment m ws msg now_ts).2 →
     (deploy_research m ws msg now_ts env).1 = m
     ∧ (he_transport env = Healthy →
        ∃ e, (deploy_research m ws msg now_ts env).2 = [ReplyError e]))
  ∧ (∀ m ws tech env,
       refusal (research_segment m ws tech).2 →
       (research_handler m ws tech env).1 = m
       ∧ (he_transport env = Healthy →
          ∃ e, (research_handler m ws tech env).2 = [ReplyError e]))
  ∧ (∀ m ws msg env,
       refusal (build_satellite_segment m ws msg).2 →
       (build_satellite m ws msg env).1 = m
       ∧ (he_transport env = Healthy →
          ∃ e, (build_satellite m ws msg env).2 = [ReplyError e]))
  ∧ (∀ m ws msg now_ts re rm env,
       refusal (harvest_planet_segment m ws msg now_ts re rm).2 →
       (harvest_planet m ws msg now_ts re rm env).1 = m
       ∧ (he_transport env = Healthy →
          ∃ e, (harvest_planet m ws msg now_ts re rm env).2 = [ReplyError e]))
  ∧ (∀ m ws wallet tid env,
       refusal (claim_territory_segment m wallet tid).2 →
       (claim_territory m ws wallet tid env).1 = m
       ∧ (he_transport env = Healthy →
          ∃ e, (claim_territory m ws wallet tid env).2 = [ReplyError e]))
  ∧ (∀ m ws env,
       refusal (defend_all_segment m ws).2 →
       (defend_all m ws env).1 = m
       ∧ (he_transport env = Healthy →
          ∃ e, (defend_all m ws env).2 = [ReplyError e]))
  ∧ (∀ m ws env,
       refusal (explore_new_sectors_segment m ws).2 →
       (explore_new_sectors m ws env).1 = m
       ∧ (he_transport env = Healthy →
          ∃ e, (explore_new_sectors m ws env).2 = [ReplyError e])).
Proof.
  destruct refusal_keeps_state as (K1 & K2 & K3 & K4 & K5 & K6 & K7).
  repeat apply conj; intros;
    unfold deploy_research, research_handler, build_satellite,
      harvest_planet, claim_territory, defend_all, explore_new_sectors;
    match goal with
    | H : refusal _ |- context [run_handler ?e ?sg ?cl] =>
        destruct (run_handler_refused e sg cl H) as [E1 E2];
        split; [rewrite E1; auto | exact E2]
    end.
Qed.


(** The calls that close a handler do not touch characters, territories
    or planets. *)
Lemma push_then_emit_frame (env : handler_env) (ws : websocket)
    (wallet : string) (m : manager) :
  characters (push_then_emit env ws wallet m).1 = characters m
  ∧ territories (push_then_emit env ws wallet m).1 = territories m
  ∧ universe (push_then_emit env ws wallet m).1 = universe m.
Proof.
  unfold push_then_emit, _emit_leverage_changed, push_state. simpl.
  match goal with
  | |- context [send_game_state ?a ?b ?c ?d ?e ?f] =>
      pose proof (send_game_state_preserves_world a b c d e f) as [_ Su];
      assert (Sc : characters (send_game_state a b c d e f).1 = characters a
                   ∧ territories (send_game_state a b c d e f).1
                     = territories a);
      [|set (m1 := (send_game_state a b c d e f).1) in *]
  end.
  { unfold send_game_state.
    destruct (throttled m wallet _); [split; reflexivity|].
    destruct (active_connections m !! ws) as [ci|]; [|split; reflexivity].
    destruct (characters m !! wallet) as [c|]; [|split; reflexivity].
    destruct (calculate_frame m (he_state_now_ts env) wallet)
      as (_ & _ & H3 & H4 & _).
    destruct (calculate_leverage_multiplier m (he_state_now_ts env) wallet)
      as [m2 lev].
    simpl in *. destruct (is_connected ci); [destruct (he_state_send_ok env)|];
      simpl; split; assumption. }
  destruct Sc as [Sc St].
  destruct (calculate_frame m1 (he_emit_now_ts env) wallet)
    as (_ & _ & H3 & H4 & _ & _ & H5 & _).
  repeat split; congruence.
Qed.

(** The closing state push touches no character, territory or planet, and
    no leverage profile but that of the player it is for. *)
Lemma push_state_frame (env : handler_env) (ws : websocket)
    (wallet : string) (m : manager) :
  characters (push_state env ws wallet m).1 = characters m
  ∧ territories (push_state env ws wallet m).1 = territories m
  ∧ universe (push_state env ws wallet m).1 = universe m
  ∧ ∀ w, w ≠ wallet →
      leverage_data (push_state env ws wallet m).1 !! w = leverage_data m !! w.
Proof.
  unfold push_state, send_game_state. simpl.
  destruct (throttled m wallet _); [repeat split|].
  destruct (active_connections m !! ws) as [ci|]; [|repeat split].
  destruct (characters m !! wallet) as [c|]; [|repeat split].
  pose proof (calculate_frame m (he_state_now_ts env) wallet) as HF.
  cbv zeta in HF.
  destruct HF as (_ & _ & H3 & H4 & _ & _ & H5 & _ & _ & H6 & _).
  destruct (calculate_leverage_multiplier m (he_state_now_ts env) wallet)
    as [m1 lev].
  simpl in *. destruct (is_connected ci); [destruct (he_state_send_ok env)|];
    simpl; repeat split; assumption.
Qed.

(** A handler that ends its synchronous part with a send and closes with
    the state push: the whole handler leaves characters, territories,
    planets and the other players' profiles as the synchronous part made
    them, whatever the transport does. *)
Lemma pushing_handler_frame (env : handler_env) (ws : websocket)
    (wallet : string) (seg : manager * segment_end) (first : reply) :
  seg.2 = Sends first →
  let h := run_handler env seg (push_state env ws wallet) in
  characters h.1 = characters seg.1
  ∧ territories h.1 = territories seg.1
  ∧ universe h.1 = universe seg.1
  ∧ (∀ w, w ≠ wallet → leverage_data h.1 !! w = leverage_data seg.1 !! w)
  ∧ (he_transport env = Healthy → head h.2 = Some first).
Proof.
  intros Hs. cbv zeta. unfold run_handler. rewrite Hs.
  destruct (he_transport env) as [|delivered]; simpl.
  - destruct (push_state_frame env ws wallet seg.1) as (H1 & H2 & H3 & H4).
    repeat split; assumption.
  - repeat split. discriminate.
Qed.

(** X18. deploy_research is accepted whenever the cost does not exceed the
    energy held (the cost is not checked to be positive). It then lowers
    the energy by the cost, raises the persistent research level of the
    technology by 0.05, raises the buff of the technology by 0.05 with
    expiry 60 seconds after the call, and touches no other resource,
    player, planet or territory; the closing state push and leverage
    notification leave the characters as the synchronous part made
    them, whatever the transport does. *)
Theorem X18_deploy_research_effect (m : manager) (ws : websocket)
    (msg : research_msg) (now_ts : Z) (ci : conn_info) (c : character)
    (energy : Q) (data : profile) :
  active_connections m !! ws = Some ci →
  characters m !! client_id ci = Some c →
  dict_get "energy" (ch_resources c) = Some energy →
  leverage_data m !! client_id ci = Some data →
  inject_Z (default 20%Z (rm_cost msg)) <= energy →
  let wallet := client_id ci in
  let tech := default "attack_boost"%string (rm_tech msg) in
  let cost := default 20%Z (rm_cost msg) in
  let old_research := default 0 (dict_get tech (default [] (research data))) in
  let old_buff := match dict_get tech (default [] (temp_buffs data)) with
                  | Some b => b_level b
                  | None => 0
                  end in
  let r := deploy_research_segment m ws msg now_ts in
  (∀ env, characters (deploy_research m ws msg now_ts env).1
          = characters r.1)
  ∧ r.2 = Sends (ReplyResearchDeployed tech (old_research + 0.05)
                   (old_buff + 0.05))
  ∧ (∃ c', characters r.1 !! wallet = Some c'
           ∧ dict_get "energy" (ch_resources c')
             = Some (energy - inject_Z cost)
           ∧ (∀ k, k ≠ "energy"%string →
                dict_get k (ch_resources c') = dict_get k (ch_resources c))
           ∧ ch_level c' = ch_level c)
  ∧ (∃ data' rs bs,
       leverage_data r.1 !! wallet = Some data'
       ∧ research data' = Some rs
       ∧ dict_get tech rs = Some (old_research + 0.05)
       ∧ temp_buffs data' = Some bs
       ∧ dict_get tech bs = Some (mk_buff (old_buff + 0.05) (now_ts + 60)))
  ∧ (∀ w, w ≠ wallet →
       characters r.1 !! w = characters m !! w
       ∧ leverage_data r.1 !! w = leverage_data m !! w)
  ∧ universe r.1 = universe m
  ∧ territories r.1 = territories m.
Proof.
  intros Hc Hch He Hd Hcost. cbv zeta. split.
  { intros env. unfold deploy_research, run_handler.
    destruct (deploy_research_segment m ws msg now_ts) as [m' [e|f|]];
      simpl.
    - reflexivity.
    - destruct (he_transport env); simpl; [|reflexivity].
      apply push_then_emit_frame.
    - apply push_then_emit_frame. }
  unfold deploy_research_segment.
  rewrite Hc, Hch, He.
  apply Qlt_bool_false in Hcost. rewrite Hcost. simpl. rewrite Hd. simpl.
  split; [reflexivity|]. split; [|split; [|split; [|split]]].
  - eexists. split; [apply lookup_insert_eq|]. simpl.
    split; [apply dict_get_set_eq|]. split; [|reflexivity].
    intros k Hk. apply dict_get_set_ne, Hk.
  - eexists _, _, _. split; [apply lookup_insert_eq|]. simpl.
    split; [reflexivity|]. split; [apply dict_get_set_eq|].
    split; [reflexivity | apply dict_get_set_eq].
  - intros w Hw. split; apply lookup_insert_ne; congruence.
  - reflexivity.
  - reflexivity.
Qed.

Lemma temp_fold_lower (now_ts : Z) (l : list (string * buff))
    (acc : Q * dict buff) :
  fst acc <= fst (fold_left (temp_step now_ts) l acc).
Proof.
  revert acc. induction l as [|kb l IH]; intros acc; [apply Qle_refl|].
  simpl. eapply Qle_trans; [|apply IH].
  unfold temp_step. destruct (now_ts <? _)%Z; simpl; [|apply Qle_refl].
  destruct (Qlt_bool 0 (b_level kb.2)) eqn:E; simpl; [|apply Qle_refl].
  apply Qlt_bool_iff in E. lra.
Qed.

(** A running buff of positive level under key [k] is counted in full. *)
Lemma temp_fold_counts (now_ts : Z) (l : list (string * buff)) (k : string)
    (b : buff) (acc : Q * dict buff) :
  dict_get k l = Some b →
  (now_ts < b_expires_at b)%Z → 0 < b_level b →
  fst acc + b_level b <= fst (fold_left (temp_step now_ts) l acc).
Proof.
  revert acc. induction l as [|[k' b'] l IH]; intros acc Hg Hexp Hlvl;
    [discriminate|].
  simpl in Hg. cbn [fold_left].
  destruct (String.eqb k k') eqn:E.
  - injection Hg as ->. eapply Qle_trans; [|apply temp_fold_lower].
    unfold temp_step. cbn [fst snd].
    apply Z.ltb_lt in Hexp. rewrite Hexp.
    apply Qlt_bool_iff in Hlvl. rewrite Hlvl. simpl. apply Qle_refl.
  - eapply Qle_trans; [|apply (IH _ Hg Hexp Hlvl)].
    apply Qplus_le_compat; [|apply Qle_refl].
    unfold temp_step. destruct (now_ts <? _)%Z; simpl; [|apply Qle_refl].
    destruct (Qlt_bool 0 (b_level b')) eqn:E'; simpl; [|apply Qle_refl].
    apply Qlt_bool_iff in E'. lra.
Qed.

Lemma dict_get_elem {V : Type} (k : string) (v : V) (d : dict V) :
  dict_get k d = Some v → (k, v) ∈ d.
Proof.
  induction d as [|[k' v'] d IH]; simpl; [discriminate|].
  destruct (String.eqb k k') eqn:E.
  - apply String.eqb_eq in E. subst k'. intros H. injection H as ->. left.
  - intros H. right. apply IH, H.
Qed.

(** In the cleaned buffs, an entry is one of the original entries. *)
Lemma temp_fold_origin (now_ts : Z) (l : list (string * buff))
    (acc : Q * dict buff) (k : string) (b : buff) :
  dict_get k (snd (fold_left (temp_step now_ts) l acc)) = Some b →
  dict_get k (snd acc) = Some b
  ∨ ((k, b) ∈ l ∧ (now_ts < b_expires_at b)%Z).
Proof.
  revert acc. induction l as [|[k' b'] l IH]; intros acc H; [left; exact H|].
  cbn [fold_left] in H. apply IH in H as [H|[H1 H2]].
  - unfold temp_step in H. cbn [fst snd] in H.
    destruct (now_ts <? b_expires_at b')%Z eqn:E1; simpl in H; [|left; exact H].
    destruct (Qlt_bool 0 (b_level b')); simpl in H; [|left; exact H].
    destruct (decide (k = k')) as [->|Hne].
    + rewrite dict_get_set_eq in H. injection H as ->.
      right. split; [left | apply Z.ltb_lt, E1].
    + rewrite dict_get_set_ne in H by exact Hne. left. exact H.
  - right. split; [right; exact H1 | exact H2].
Qed.

Lemma dict_set_unique {V : Type} (k : string) (v v' : V) (d : dict V) :
  NoDup (dict_keys d) → (k, v') ∈ dict_set k v d → v' = v.
Proof.
  induction d as [|[k0 v0] d IH]; simpl; intros Hnd Hin.
  - apply list_elem_of_singleton in Hin. congruence.
  - apply NoDup_cons in Hnd as [Hk Hnd].
    destruct (String.eqb k k0) eqn:E.
    + apply String.eqb_eq in E. subst k0.
      apply elem_of_cons in Hin as [Hin|Hin]; [congruence|].
      exfalso. apply Hk. unfold dict_keys.
      apply list_elem_of_fmap. exists (k, v'). split; [reflexivity | exact Hin].
    + apply elem_of_cons in Hin as [Hin|Hin].
      * injection Hin as -> _. rewrite String.eqb_refl in E. discriminate.
      * apply IH; assumption.
Qed.

(** X19. After a deployment at time now, a scoring call before now + 60
    returns a multiplier of at least 1.05; a scoring call at or after
    now + 60 removes the buff of the technology from the stored profile. *)
Theorem X19_deployed_buff_lifetime (m : manager) (ws : websocket)
    (msg : research_msg) (now_ts t : Z) (ci : conn_info) (c : character)
    (energy : Q) (data : profile) :
  active_connections m !! ws = Some ci →
  characters m !! client_id ci = Some c →
  dict_get "energy" (ch_resources c) = Some energy →
  leverage_data m !! client_id ci = Some data →
  inject_Z (default 20%Z (rm_cost msg)) <= energy →
  NoDup (dict_keys (default [] (temp_buffs data))) →
  (∀ b, dict_get (default "attack_boost"%string (rm_tech msg))
          (default [] (temp_buffs data)) = Some b → 0 <= b_level b) →
  let wallet := client_id ci in
  let tech := default "attack_boost"%string (rm_tech msg) in
  let m' := (deploy_research_segment m ws msg now_ts).1 in
  ((t < now_ts + 60)%Z →
   1.05 <= a_total_of (calculate_leverage_multiplier m' t wallet).2)
  ∧ ((now_ts + 60 <= t)%Z →
     ∃ data2 bs,
       leverage_data (calculate_leverage_multiplier m' t wallet).1 !! wallet
       = Some data2
       ∧ temp_buffs data2 = Some bs
       ∧ dict_get tech bs = None).
Proof.
  intros Hc Hch He Hd Hcost Hnd Hold. cbv zeta.
  unfold deploy_research_segment. rewrite Hc, Hch, He.
  apply Qlt_bool_false in Hcost. rewrite Hcost. simpl. rewrite Hd. simpl.
  set (tech := default "attack_boost"%string (rm_tech msg)) in *.
  set (tbuffs := default [] (temp_buffs data)) in *.
  set (level := match dict_get tech tbuffs with
                | Some b => b_level b
                | None => 0
                end + 0.05).
  assert (Hlevel : 0.05 <= level).
  { subst level. destruct (dict_get tech tbuffs) as [b|] eqn:Eb.
    - specialize (Hold b eq_refl). lra.
    - lra. }
  set (data' := set_research_and_buffs data _ _).
  set (m' := set_leverage_data _ _).
  set (c' := set_resources c _) in *.
  assert (Hd' : leverage_data m' !! client_id ci = Some data')
    by apply lookup_insert_eq.
  assert (Hc' : characters m' !! client_id ci = Some c')
    by apply lookup_insert_eq.
  split.
  - intros Ht.
    rewrite (total_of_known m' t (client_id ci) data' c' Hd' Hc').
    assert (Htemp : 0.05 <= temp_total_of t data').
    { unfold temp_total_of. apply Q.min_glb; [|discriminate].
      unfold temp_loop.
      pose proof (temp_fold_counts t
                    (dict_set tech (mk_buff level (now_ts + 60)) tbuffs)
                    tech (mk_buff level (now_ts + 60)) (0, [])
                    (dict_get_set_eq _ _ _)) as Hcnt.
      simpl in Hcnt. specialize (Hcnt ltac:(lia) ltac:(lra)).
      simpl. lra. }
    pose proof (contributions_capped m' t (client_id ci) data' c') as Hcap.
    unfold contributions, caps in Hcap.
    repeat match goal with
           | H : Forall2 _ (_ :: _) (_ :: _) |- _ =>
               apply Forall2_cons in H as [[? ?] H]
           end.
    apply Q.min_glb; [|discriminate].
    eapply Qle_trans; [|apply Q.le_max_l].
    unfold contributions, py_sum. cbn [fold_left]. lra.
  - intros Ht. unfold calculate_leverage_multiplier. rewrite Hd', Hc'. simpl.
    rewrite lookup_insert_eq. eexists _, _. split; [reflexivity|].
    split; [reflexivity|].
    destruct (dict_get tech (temp_loop t data').2) as [b|] eqn:Eb;
      [|reflexivity].
    exfalso. unfold temp_loop in Eb.
    apply temp_fold_origin in Eb as [Eb|[Hin Hexp]]; [discriminate|].
    simpl in Hin. fold tbuffs in Hin.
    apply dict_set_unique in Hin; [|exact Hnd]. subst b. simpl in Hexp. lia.
Qed.

Lemma find_planet_from_lookup (i0 : nat) (pid : option string)
    (ps : list planet) (i : nat) (p : planet) :
  _find_planet_from i0 pid ps = Some (i, p) →
  (i0 <= i)%nat ∧ ps !! (i - i0)%nat = Some p ∧ Some (p_id p) = pid.
Proof.
  revert i0. induction ps as [|q ps IH]; intros i0 H; simpl in H;
    [discriminate|].
  destruct (decide (Some (p_id q) = pid)) as [E|E].
  - injection H as <- <-. replace (i0 - i0)%nat with 0%nat by lia.
    split; [lia|]. split; [reflexivity | exact E].
  - apply IH in H as (H1 & H2 & H3). split; [lia|]. split; [|exact H3].
    replace (i - i0)%nat with (S (i - S i0)) by lia. exact H2.
Qed.

Lemma find_planet_lookup (m : manager) (pid : option string) (i : nat)
    (p : planet) :
  _find_planet m pid = Some (i, p) →
  universe m !! i = Some p ∧ Some (p_id p) = pid.
Proof.
  intros H. apply find_planet_from_lookup in H as (_ & H2 & H3).
  rewrite Nat.sub_0_r in H2. split; assumption.
Qed.

(** The synchronous part of build_satellite, which writes no leverage
    profile. *)
Lemma build_satellite_segment_effect (m : manager) (ws : websocket)
    (msg : planet_msg) (ci : conn_info) (i : nat) (planet : planet)
    (c : character) (minerals : Q) :
  active_connections m !! ws = Some ci →
  _find_planet m (pm_planet_id msg) = Some (i, planet) →
  p_controlledBy planet = Some (client_id ci) →
  characters m !! client_id ci = Some c →
  dict_get "minerals" (ch_resources c) = Some minerals →
  inject_Z (default 25%Z (pm_cost msg)) <= minerals →
  let r := build_satellite_segment m ws msg in
  let defense := (default 0 (p_defense planet) + 1)%Z in
  r.2 = Sends (ReplyPlanetUpdated (p_id planet) defense (Some (client_id ci)))
  ∧ universe r.1 !! i = Some (set_defense planet defense)
  ∧ defender_count_of (set_defense planet defense)
    = (defender_count_of planet + 40)%Z
  ∧ (∀ j, j ≠ i → universe r.1 !! j = universe m !! j)
  ∧ (∃ c', characters r.1 !! client_id ci = Some c'
           ∧ dict_get "minerals" (ch_resources c')
             = Some (minerals - inject_Z (default 25%Z (pm_cost msg))))
  ∧ leverage_data r.1 = leverage_data m.
Proof.
  intros Hc Hf Ho Hch Hm Hcost. cbv zeta. unfold build_satellite_segment.
  rewrite Hc, Hf. destruct (decide (p_controlledBy planet = Some (client_id ci)))
    as [_|Hn]; [|contradiction].
  rewrite Hch, Hm. apply Qlt_bool_false in Hcost. rewrite Hcost. simpl.
  destruct (find_planet_lookup _ _ _ _ Hf) as [Hl _].
  split; [rewrite Ho; reflexivity|]. split.
  { apply list_lookup_insert_eq. eapply lookup_lt_Some, Hl. }
  split; [unfold defender_count_of; simpl; lia|]. split.
  { intros j Hj. apply list_lookup_insert_ne. congruence. }
  split; [|reflexivity].
  eexists. split; [apply lookup_insert_eq | apply dict_get_set_eq].
Qed.

(** X20. build_satellite on an owned planet with enough minerals raises the
    planet's defense by exactly 1, hence its defender count in a battle
    by 40, lowers the minerals by the cost, and changes no other planet
    and no other player's character or leverage profile, whatever the
    transport does; on a healthy transport planet_updated is the first
    event delivered. The code before the first await writes no leverage
    profile; the player's own profile is not covered further, since the
    scoring call of the closing state push writes to it
    ([closing_push_rewrites_profile]). *)
Theorem X20_build_satellite_effect (m : manager) (ws : websocket)
    (msg : planet_msg) (ci : conn_info) (i : nat) (planet : planet)
    (c : character) (minerals : Q) (env : handler_env) :
  active_connections m !! ws = Some ci →
  _find_planet m (pm_planet_id msg) = Some (i, planet) →
  p_controlledBy planet = Some (client_id ci) →
  characters m !! client_id ci = Some c →
  dict_get "minerals" (ch_resources c) = Some minerals →
  inject_Z (default 25%Z (pm_cost msg)) <= minerals →
  let wallet := client_id ci in
  let h := build_satellite m ws msg env in
  let defense := (default 0 (p_defense planet) + 1)%Z in
  universe h.1 !! i = Some (set_defense planet defense)
  ∧ defender_count_of (set_defense planet defense)
    = (defender_count_of planet + 40)%Z
  ∧ (∀ j, j ≠ i → universe h.1 !! j = universe m !! j)
  ∧ (∃ c', characters h.1 !! wallet = Some c'
           ∧ dict_get "minerals" (ch_resources c')
             = Some (minerals - inject_Z (default 25%Z (pm_cost msg))))
  ∧ (∀ w, w ≠ wallet →
       characters h.1 !! w = characters m !! w
       ∧ leverage_data h.1 !! w = leverage_data m !! w)
  ∧ (he_transport env = Healthy →
     head h.2 = Some (ReplyPlanetUpdated (p_id planet) defense (Some wallet)))
  ∧ leverage_data (build_satellite_segment m ws msg).1 = leverage_data m.
Proof.
  intros Hc Hf Ho Hch Hm Hcost. cbv zeta.
  destruct (build_satellite_segment_effect m ws msg ci i planet c minerals
              Hc Hf Ho Hch Hm Hcost) as (S1 & S2 & S3 & S4 & S5 & S6).
  assert (Hw : wallet_of m ws = client_id ci)
    by (unfold wallet_of; rewrite Hc; reflexivity).
  destruct (pushing_handler_frame env ws (client_id ci)
              (build_satellite_segment m ws msg) _ S1)
    as (F1 & F2 & F3 & F4 & F5).
  unfold build_satellite. rewrite Hw.
  split; [rewrite F3; exact S2|]. split; [exact S3|].
  split; [intros j Hj; rewrite F3; apply S4, Hj|].
  split; [rewrite F1; exact S5|].
  split; [|split; [exact F5 | exact S6]].
  intros w Hw'. split.
  - rewrite F1. unfold build_satellite_segment.
    rewrite Hc, Hf.
    destruct (decide (p_controlledBy planet = Some (client_id ci)))
      as [_|Hn]; [|contradiction].
    rewrite Hch, Hm. apply Qlt_bool_false in Hcost. rewrite Hcost. simpl.
    apply lookup_insert_ne. congruence.
  - rewrite (F4 w Hw'), S6. reflexivity.
Qed.

Lemma py_int_mono (x y : Q) : 0 <= x → x <= y → (py_int x <= py_int y)%Z.
Proof.
  intros Hx Hxy. rewrite !py_int_floor by lra. apply Qfloor_resp_le, Hxy.
Qed.

Lemma gain_bounds (r : Z) (mult : Q) :
  (0 <= r)%Z → 1 <= mult → mult <= 2 →
  (r <= py_int (inject_Z r * mult) <= 2 * r)%Z.
Proof.
  intros Hr H1 H2.
  assert (Hq : 0 <= inject_Z r) by (unfold Qle; simpl; lia).
  split.
  - rewrite <- (py_int_inject (inject_Z r) r) at 1 by reflexivity.
    apply py_int_mono; [exact Hq | nra].
  - rewrite <- (py_int_inject (inject_Z (2 * r)) (2 * r)) by reflexivity.
    apply py_int_mono; [nra|]. rewrite inject_Z_mult.
    change (inject_Z 2) with 2. nra.
Qed.

(** X21. harvest_planet on an owned planet gains, for draws in the ranges of
    the source, between the draw and twice the draw of each resource (8
    to 36 energy, 5 to 24 minerals), adds exactly these amounts to the
    player's energy and minerals, and leaves the universe unchanged. *)
Theorem X21_harvest_planet_gain (m : manager) (ws : websocket)
    (msg : planet_msg) (now_ts r_energy r_minerals : Z) (ci : conn_info)
    (i : nat) (planet : planet) (c : character) (energy minerals : Q) :
  active_connections m !! ws = Some ci →
  _find_planet m (pm_planet_id msg) = Some (i, planet) →
  p_controlledBy planet = Some (client_id ci) →
  characters m !! client_id ci = Some c →
  dict_get "energy" (ch_resources c) = Some energy →
  dict_get "minerals" (ch_resources c) = Some minerals →
  (8 <= r_energy <= 18)%Z → (5 <= r_minerals <= 12)%Z →
  let r := harvest_planet_segment m ws msg now_ts r_energy r_minerals in
  ∃ ge gm c',
    r.2 = Sends (ReplyHarvest (p_id planet) ge gm)
    ∧ (r_energy <= ge <= 2 * r_energy)%Z
    ∧ (r_minerals <= gm <= 2 * r_minerals)%Z
    ∧ (8 <= ge <= 36)%Z ∧ (5 <= gm <= 24)%Z
    ∧ characters r.1 !! client_id ci = Some c'
    ∧ dict_get "energy" (ch_resources c') = Some (energy + inject_Z ge)
    ∧ dict_get "minerals" (ch_resources c') = Some (minerals + inject_Z gm)
    ∧ universe r.1 = universe m.
Proof.
  intros Hc Hf Ho Hch He Hm Hre Hrm. cbv zeta.
  unfold harvest_planet_segment. rewrite Hc, Hf.
  destruct (decide (p_controlledBy planet = Some (client_id ci)))
    as [_|Hn]; [|contradiction].
  pose proof (calculate_frame m now_ts (client_id ci)) as HF.
  cbv zeta in HF. destruct HF as (_ & _ & HFc & _ & _ & _ & HFu & _).
  destruct (a_total_bounds m now_ts (client_id ci)) as [Hlo Hhi].
  destruct (calculate_leverage_multiplier m now_ts (client_id ci))
    as [m1 mult_data].
  simpl in HFc, HFu, Hlo, Hhi. rewrite HFc, Hch.
  unfold add_resource. rewrite He. simpl. rewrite lookup_insert_eq. simpl.
  rewrite dict_get_set_ne by discriminate. rewrite Hm. simpl.
  destruct (gain_bounds r_energy (a_total_of mult_data)) as [E1 E2];
    [lia | assumption | assumption |].
  destruct (gain_bounds r_minerals (a_total_of mult_data)) as [M1 M2];
    [lia | assumption | assumption |].
  eexists _, _, _. split; [reflexivity|].
  split; [split; assumption|]. split; [split; assumption|].
  split; [lia|]. split; [lia|].
  split; [apply lookup_insert_eq|]. simpl.
  split; [|split; [apply dict_get_set_eq | exact HFu]].
  rewrite dict_get_set_ne by discriminate. apply dict_get_set_eq.
Qed.

Lemma find_territory_from_lookup (i0 : nat) (tid : string)
    (ts : list territory) (i : nat) (t : territory) :
  find_territory_from i0 tid ts = Some (i, t) →
  (i0 <= i)%nat ∧ ts !! (i - i0)%nat = Some t ∧ t_id t = tid.
Proof.
  revert i0. induction ts as [|q ts IH]; intros i0 H; simpl in H;
    [discriminate|].
  destruct (String.eqb (t_id q) tid) eqn:E.
  - injection H as <- <-. replace (i0 - i0)%nat with 0%nat by lia.
    split; [lia|]. split; [reflexivity | apply String.eqb_eq, E].
  - apply IH in H as (H1 & H2 & H3). split; [lia|]. split; [|exact H3].
    replace (i - i0)%nat with (S (i - S i0)) by lia. exact H2.
Qed.

(** Replacing an element that fails a test by one that passes it adds one
    to the number of elements that pass. *)
Lemma filter_length_insert {A : Type} (P : A → Prop)
    `{∀ x, Decision (P x)} (l : list A) (i : nat) (x y : A) :
  l !! i = Some x → ¬ P x → P y →
  length (filter P (<[i := y]> l)) = S (length (filter P l)).
Proof.
  revert i. induction l as [|a l IH]; intros i Hl Hx Hy; [discriminate|].
  destruct i as [|i]; simpl in *.
  - injection Hl as ->. rewrite !filter_cons.
    destruct (decide (P y)); [|contradiction].
    destruct (decide (P x)); [contradiction|]. reflexivity.
  - rewrite !filter_cons. destruct (decide (P a)); simpl;
      rewrite (IH i Hl Hx Hy); reflexivity.
Qed.

(** X22. claim_territory on an unowned territory makes the player its owner,
    raises the player's territory count by exactly 1 and changes no
    other territory; it stores the uncapped bonus 0.05 * count in the
    profile, which the next scoring call replaces by min(0.05 * count,
    0.3). *)
Theorem X22_claim_territory_effect (m : manager) (wallet tid : string)
    (c : character) (i : nat) (t : territory) (data : profile) (now_ts : Z) :
  wallet ≠ ""%string →
  characters m !! wallet = Some c →
  find_territory_from 0 tid (territories m) = Some (i, t) →
  owned (t_controlledBy t) = false →
  leverage_data m !! wallet = Some data →
  let r := claim_territory_segment m wallet tid in
  let n := territory_count m wallet in
  r.2 = Silent
  ∧ territories r.1 !! i = Some (set_owner t wallet)
  ∧ (∀ j, j ≠ i → territories r.1 !! j = territories m !! j)
  ∧ territory_count r.1 wallet = (n + 1)%Z
  ∧ territory_bonus <$> (leverage_data r.1 !! wallet)
    = Some (inject_Z (n + 1) * 0.05)
  ∧ territory_bonus
    <$> (leverage_data (calculate_leverage_multiplier r.1 now_ts wallet).1
           !! wallet)
    = Some (Qmin (inject_Z (n + 1) * 0.05) 0.3)
  ∧ universe r.1 = universe m
  ∧ characters r.1 = characters m.
Proof.
  intros Hw Hc Hf Ho Hd. cbv zeta. unfold claim_territory_segment.
  rewrite Hc, Hf, Ho. simpl. rewrite Hd. simpl.
  destruct (find_territory_from_lookup _ _ _ _ _ Hf) as (_ & Hl & _).
  rewrite Nat.sub_0_r in Hl.
  assert (Hcount : territory_count
                     (set_world m (universe m)
                        (<[i:=set_owner t wallet]> (territories m))) wallet
                   = (territory_count m wallet + 1)%Z).
  { unfold territory_count. simpl.
    rewrite (filter_length_insert _ _ i t); [lia | exact Hl | | reflexivity].
    intros E. rewrite E in Ho. simpl in Ho.
    destruct (String.eqb wallet "") eqn:E'; [|discriminate].
    apply String.eqb_eq in E'. contradiction. }
  split; [reflexivity|]. split.
  { apply list_lookup_insert_eq. eapply lookup_lt_Some, Hl. }
  split. { intros j Hj. apply list_lookup_insert_ne. congruence. }
  split; [exact Hcount|]. split.
  { rewrite lookup_insert_eq. simpl. rewrite Hcount. reflexivity. }
  split; [|split; reflexivity].
  unfold calculate_leverage_multiplier. simpl.
  rewrite lookup_insert_eq, Hc. simpl. rewrite lookup_insert_eq. simpl.
  unfold territory_bonus_of. f_equal. f_equal. f_equal. f_equal.
  exact Hcount.
Qed.

(** X23. defend_all charges 50 energy per controlled territory and raises
    the defense of each controlled territory by 1 (from 0 when it had
    none); it changes no other territory and no planet of the universe,
    so no defender count of a battle changes. *)
Theorem X23_defend_all_effect (m : manager) (ws : websocket) (ci : conn_info)
    (c : character) (energy : Q) :
  active_connections m !! ws = Some ci →
  characters m !! client_id ci = Some c →
  territory_count m (client_id ci) ≠ 0%Z →
  dict_get "energy" (ch_resources c) = Some energy →
  inject_Z (50 * territory_count m (client_id ci)) <= energy →
  let wallet := client_id ci in
  let n := territory_count m wallet in
  let r := defend_all_segment m ws in
  r.2 = Sends (ReplyDefense n (50 * n))
  ∧ universe r.1 = universe m
  ∧ (∀ i t, territories m !! i = Some t →
       territories r.1 !! i = Some (upgrade_defense wallet t))
  ∧ (∀ i t, territories m !! i = Some t →
       t_controlledBy t = Some wallet →
       t_defense <$> (territories r.1 !! i)
       = Some (Some (default 0 (t_defense t) + 1)%Z))
  ∧ (∀ i t, territories m !! i = Some t →
       t_controlledBy t ≠ Some wallet → territories r.1 !! i = Some t)
  ∧ (∃ c', characters r.1 !! wallet = Some c'
           ∧ dict_get "energy" (ch_resources c')
             = Some (energy - inject_Z (50 * n)))
  ∧ leverage_data r.1 = leverage_data m.
Proof.
  intros Hc Hch Hn He Hcost. cbv zeta. unfold defend_all_segment.
  rewrite Hc, Hch. apply Z.eqb_neq in Hn. rewrite Hn, He.
  apply Qlt_bool_false in Hcost. rewrite Hcost. simpl.
  split; [reflexivity|]. split; [reflexivity|].
  assert (Hmap : ∀ i t, territories m !! i = Some t →
                 (upgrade_defense (client_id ci) <$> territories m) !! i
                 = Some (upgrade_defense (client_id ci) t)).
  { intros i t Hl. rewrite list_lookup_fmap, Hl. reflexivity. }
  split; [exact Hmap|]. split.
  { intros i t Hl Ho. rewrite (Hmap i t Hl). unfold upgrade_defense.
    destruct (decide (t_controlledBy t = Some (client_id ci)));
      [reflexivity | contradiction]. }
  split.
  { intros i t Hl Ho. rewrite (Hmap i t Hl). unfold upgrade_defense.
    destruct (decide (t_controlledBy t = Some (client_id ci)));
      [contradiction | reflexivity]. }
  split; [|reflexivity].
  eexists. split; [apply lookup_insert_eq | apply dict_get_set_eq].
Qed.

(** The synchronous part of explore_new_sectors, which writes no leverage
    profile. *)
Lemma explore_new_sectors_segment_effect (m : manager) (ws : websocket)
    (ci : conn_info) (c : character) :
  active_connections m !! ws = Some ci →
  characters m !! client_id ci = Some c →
  let wallet := client_id ci in
  let n := territory_count m wallet in
  let r := explore_new_sectors_segment m ws in
  r.2 = Sends (ReplyExploration (new_sectors wallet n))
  ∧ territories r.1 = territories m ++ new_sectors wallet n
  ∧ territory_count r.1 wallet = (n + 2)%Z
  ∧ territory_bonus_of r.1 wallet = Qmin (inject_Z (n + 2) * 0.05) 0.3
  ∧ characters r.1 = characters m
  ∧ leverage_data r.1 = leverage_data m
  ∧ universe r.1 = universe m.
Proof.
  intros Hc Hch. cbv zeta. unfold explore_new_sectors_segment.
  rewrite Hc, Hch. simpl.
  assert (Hcount : territory_count
                     (set_world m (universe m)
                        (territories m
                         ++ new_sectors (client_id ci)
                              (territory_count m (client_id ci))))
                     (client_id ci)
                   = (territory_count m (client_id ci) + 2)%Z).
  { unfold territory_count at 1. simpl. rewrite filter_app, length_app.
    unfold new_sectors. simpl. rewrite !filter_cons. simpl.
    destruct (decide (Some (client_id ci) = Some (client_id ci)));
      [|contradiction].
    simpl. unfold territory_count. lia. }
  split; [reflexivity|]. split; [reflexivity|]. split; [exact Hcount|].
  split; [|repeat split].
  unfold territory_bonus_of. rewrite Hcount. reflexivity.
Qed.

(** X24. explore_new_sectors appends two territories already controlled by
    the player, so the territory count rises by exactly 2 at once and
    the territory contribution becomes min(0.05 * (count + 2), 0.3); it
    costs nothing: characters and planets are unchanged, and so are the
    other players' leverage profiles, whatever the transport does. The
    code before the first await writes no leverage profile; on a healthy
    transport the closing state push, when it is not throttled, stores
    the new territory contribution in the player's own profile. *)
Theorem X24_explore_new_sectors_effect (m : manager) (ws : websocket)
    (ci : conn_info) (c : character) (env : handler_env) :
  active_connections m !! ws = Some ci →
  characters m !! client_id ci = Some c →
  let wallet := client_id ci in
  let n := territory_count m wallet in
  let h := explore_new_sectors m ws env in
  territories h.1 = territories m ++ new_sectors wallet n
  ∧ territory_count h.1 wallet = (n + 2)%Z
  ∧ territory_bonus_of h.1 wallet = Qmin (inject_Z (n + 2) * 0.05) 0.3
  ∧ characters h.1 = characters m
  ∧ universe h.1 = universe m
  ∧ (∀ w, w ≠ wallet → leverage_data h.1 !! w = leverage_data m !! w)
  ∧ (he_transport env = Healthy →
     head h.2 = Some (ReplyExploration (new_sectors wallet n)))
  ∧ leverage_data (explore_new_sectors_segment m ws).1 = leverage_data m
  ∧ (he_transport env = Healthy →
     throttled m wallet (he_state_time env) = false →
     is_Some (leverage_data m !! wallet) →
     territory_bonus <$> (leverage_data h.1 !! wallet)
     = Some (Qmin (inject_Z (n + 2) * 0.05) 0.3)).
Proof.
  intros Hc Hch. cbv zeta.
  destruct (explore_new_sectors_segment_effect m ws ci c Hc Hch)
    as (S1 & S2 & S3 & S4 & S5 & S6 & S7).
  assert (Hw : wallet_of m ws = client_id ci)
    by (unfold wallet_of; rewrite Hc; reflexivity).
  destruct (pushing_handler_frame env ws (client_id ci)
              (explore_new_sectors_segment m ws) _ S1)
    as (F1 & F2 & F3 & F4 & F5).
  unfold explore_new_sectors. rewrite Hw.
  assert (Hcount : territory_count
                     (run_handler env (explore_new_sectors_segment m ws)
                        (push_state env ws (client_id ci))).1 (client_id ci)
                   = (territory_count m (client_id ci) + 2)%Z).
  { rewrite <- S3. unfold territory_count. rewrite F2. reflexivity. }
  split; [rewrite F2; exact S2|]. split; [exact Hcount|].
  split; [unfold territory_bonus_of; rewrite Hcount; reflexivity|].
  split; [rewrite F1; exact S5|]. split; [rewrite F3; exact S7|].
  split; [intros w Hw'; rewrite (F4 w Hw'), S6; reflexivity|].
  split; [exact F5|]. split; [exact S6|].
  intros Ht Hth [data Hd].
  unfold run_handler. rewrite S1, Ht.
  assert (Hb : territory_bonus_of (explore_new_sectors_segment m ws).1
                 (client_id ci)
               = Qmin (inject_Z (territory_count m (client_id ci) + 2) * 0.05)
                   0.3) by exact S4.
  revert Hb. unfold explore_new_sectors_segment. rewrite Hc, Hch.
  cbn [fst snd]. intros Hb.
  unfold push_state, send_game_state. cbn [fst snd].
  replace (throttled _ (client_id ci) (he_state_time env)) with false
    by (symmetry; exact Hth).
  cbn [active_connections set_world characters]. rewrite Hc, Hch.
  unfold calculate_leverage_multiplier.
  cbn [leverage_data set_world characters]. rewrite Hd, Hch.
  destruct (is_connected ci); [destruct (he_state_send_ok env)|];
    cbn [fst snd leverage_data set_last_game_state_send set_leverage_data];
    rewrite lookup_insert_eq; cbn [fmap option_fmap option_map update_profile
                                   territory_bonus];
    rewrite Hb; reflexivity.
Qed.

(** ** Sessions *)

Lemma disconnect_lookup (m : manager) (ws w : websocket) :
  active_connections (disconnect m ws).1 !! w
  = if decide (w = ws) then None else active_connections m !! w.
Proof.
  unfold disconnect. destruct (active_connections m !! ws) as [ci|] eqn:E;
    simpl.
  - rewrite delete_insert_eq. destruct (decide (w = ws)) as [->|Hne].
    + apply lookup_delete_eq.
    + apply lookup_delete_ne. congruence.
  - destruct (decide (w = ws)) as [->|Hne]; [exact E | reflexivity].
Qed.

Lemma disconnect_game_data (m : manager) (ws : websocket) :
  game_data (disconnect m ws).1 = game_data m
  ∧ last_game_state_send (disconnect m ws).1 = last_game_state_send m.
Proof.
  unfold disconnect. destruct (active_connections m !! ws); split; reflexivity.
Qed.

Lemma disconnect_counter (m : manager) (ws : websocket) :
  counter_ok m → counter_ok (disconnect m ws).1.
Proof.
  unfold counter_ok, disconnect. intros H.
  destruct (active_connections m !! ws) as [ci|] eqn:E; simpl; [|exact H].
  rewrite delete_insert_eq, map_size_delete, E, H.
  assert (size (active_connections m) ≠ 0%nat).
  { intros Hz. apply map_size_empty_iff in Hz. rewrite Hz in E.
    rewrite lookup_empty in E. discriminate. }
  lia.
Qed.

(** X25. disconnect touches nothing but the session it is given: other
    sessions, all game data and the throttle times are unchanged; it
    keeps the session counter equal to the number of registered
    sessions, leaves the counter non-negative, and does nothing at all
    for an unregistered socket. *)
Theorem X25_disconnect_frame (m : manager) (ws : websocket) :
  let m' := (disconnect m ws).1 in
  (∀ w, w ≠ ws → active_connections m' !! w = active_connections m !! w)
  ∧ game_data m' = game_data m
  ∧ last_game_state_send m' = last_game_state_send m
  ∧ (counter_ok m → counter_ok m')
  ∧ (is_Some (active_connections m !! ws) → (0 <= connection_count m')%Z)
  ∧ (active_connections m !! ws = None → m' = m).
Proof.
  cbv zeta. split; [|split; [|split; [|split; [|split]]]].
  - intros w Hw. rewrite disconnect_lookup.
    destruct (decide (w = ws)); [contradiction | reflexivity].
  - apply disconnect_game_data.
  - apply disconnect_game_data.
  - apply disconnect_counter.
  - intros [ci E]. unfold disconnect. rewrite E. simpl. lia.
  - intros H. unfold disconnect. rewrite H. reflexivity.
Qed.

Lemma disconnect_all_lookup (l : list websocket) (m : manager) (w : websocket) :
  active_connections (disconnect_all m l).1 !! w
  = if decide (w ∈ l) then None else active_connections m !! w.
Proof.
  revert m. induction l as [|x l IH]; intros m; simpl.
  - destruct (decide (w ∈ [])) as [H|_]; [inversion H | reflexivity].
  - rewrite IH, disconnect_lookup.
    destruct (decide (w ∈ l)) as [Hl|Hl].
    + destruct (decide (w ∈ x :: l)) as [_|Hn]; [reflexivity|].
      exfalso. apply Hn. right. exact Hl.
    + destruct (decide (w = x)) as [->|Hx].
      * destruct (decide (x ∈ x :: l)) as [_|Hn]; [reflexivity|].
        exfalso. apply Hn. left.
      * destruct (decide (w ∈ x :: l)) as [Hin|_]; [|reflexivity].
        apply elem_of_cons in Hin as [?|?]; contradiction.
Qed.

Lemma disconnect_all_game_data (l : list websocket) (m : manager) :
  game_data (disconnect_all m l).1 = game_data m
  ∧ last_game_state_send (disconnect_all m l).1 = last_game_state_send m.
Proof.
  revert m. induction l as [|x l IH]; intros m; simpl; [split; reflexivity|].
  destruct (IH (disconnect m x).1) as [H1 H2].
  destruct (disconnect_game_data m x) as [G1 G2].
  split; congruence.
Qed.

Lemma disconnect_all_counter (l : list websocket) (m : manager) :
  counter_ok m → counter_ok (disconnect_all m l).1.
Proof.
  revert m. induction l as [|x l IH]; intros m H; simpl; [exact H|].
  apply IH, disconnect_counter, H.
Qed.

(** After the eviction loop no other session carries the client id. *)
Lemma evicted_unique (m : manager) (cid : string) (ws w : websocket)
    (ci : conn_info) :
  active_connections
    (disconnect_all m (existing_connections m cid ws)).1 !! w = Some ci →
  client_id ci = cid → w = ws.
Proof.
  intros Hl Hc. rewrite disconnect_all_lookup in Hl.
  destruct (decide (w ∈ existing_connections m cid ws)) as [_|Hn];
    [discriminate|].
  destruct (decide (w = ws)) as [->|Hne]; [reflexivity|].
  exfalso. apply Hn. unfold existing_connections.
  apply list_elem_of_fmap. exists (w, ci). split; [reflexivity|].
  apply list_elem_of_filter. split; [split; assumption|].
  apply elem_of_map_to_list, Hl.
Qed.

Lemma calculate_connections (m : manager) (now_ts : Z) (wallet : string) :
  active_connections (calculate_leverage_multiplier m now_ts wallet).1
  = active_connections m
  ∧ connection_count (calculate_leverage_multiplier m now_ts wallet).1
    = connection_count m.
Proof.
  unfold calculate_leverage_multiplier.
  destruct (leverage_data m !! wallet); [|split; reflexivity].
  destruct (characters m !! wallet); split; reflexivity.
Qed.

Lemma send_game_state_connections (m : manager) (ws : websocket)
    (wallet : string) (t : Q) (now_ts : Z) (ok : bool) :
  active_connections (send_game_state m ws wallet t now_ts ok).1
  = active_connections m
  ∧ connection_count (send_game_state m ws wallet t now_ts ok).1
    = connection_count m
  ∧ characters (send_game_state m ws wallet t now_ts ok).1 = characters m
  ∧ territories (send_game_state m ws wallet t now_ts ok).1 = territories m
  ∧ universe (send_game_state m ws wallet t now_ts ok).1 = universe m.
Proof.
  unfold send_game_state.
  destruct (throttled m wallet t); [repeat split|].
  destruct (active_connections m !! ws) as [ci|]; [|repeat split].
  destruct (characters m !! wallet) as [c|]; [|repeat split].
  destruct (calculate_connections m now_ts wallet) as [H1 H2].
  destruct (calculate_frame m now_ts wallet)
    as (_ & _ & H3 & H4 & _ & _ & H5 & _).
  destruct (calculate_leverage_multiplier m now_ts wallet) as [m1 lev].
  simpl in *. destruct (is_connected ci); [destruct ok|]; simpl;
    repeat split; assumption.
Qed.

Lemma ensure_home_connections (m : manager) (wallet : string) :
  active_connections (_ensure_player_home_planet m wallet)
  = active_connections m
  ∧ connection_count (_ensure_player_home_planet m wallet)
    = connection_count m
  ∧ characters (_ensure_player_home_planet m wallet) = characters m
  ∧ leverage_data (_ensure_player_home_planet m wallet) = leverage_data m.
Proof.
  unfold _ensure_player_home_planet.
  destruct (owns_planet m wallet); [repeat split|].
  destruct (first_unclaimed_from 0 (universe m)) as [[i p]|]; repeat split.
Qed.

Lemma handshake_connections (m : manager) (ws : websocket) (env : connect_env)
    (effects : list effect) :
  active_connections m !! ws = None →
  let r := connect_handshake m ws env effects in
  (∀ w, w ≠ ws →
     active_connections (cr_manager r) !! w = active_connections m !! w)
  ∧ (counter_ok m → counter_ok (cr_manager r))
  ∧ (cr_ok r = true →
     ∃ ci, active_connections (cr_manager r) !! ws = Some ci
           ∧ is_connected ci = true
           ∧ client_id ci = ce_client_id env)
  ∧ (cr_ok r = false → active_connections (cr_manager r) !! ws = None).
Proof.
  intros Hfree. cbv zeta. unfold connect_handshake.
  destruct (ce_accept_ok env).
  2:{ simpl. rewrite (disconnect_unregistered m ws Hfree). simpl.
      repeat split; auto; discriminate. }
  set (m1 := set_connections m _ _).
  assert (C1 : counter_ok m → counter_ok m1).
  { unfold counter_ok. subst m1. simpl. intros H.
    rewrite map_size_insert_None by exact Hfree. lia. }
  assert (L1 : ∀ w, w ≠ ws →
               active_connections m1 !! w = active_connections m !! w).
  { intros w Hw. subst m1. simpl. apply lookup_insert_ne. congruence. }
  destruct (ce_status_ok env).
  2:{ simpl. split; [|split; [|split]].
      - intros w Hw. rewrite disconnect_lookup.
        destruct (decide (w = ws)); [contradiction | apply L1, Hw].
      - intros H. apply disconnect_counter, C1, H.
      - discriminate.
      - intros _. apply disconnect_removes. }
  destruct (characters m1 !! ce_client_id env) as [c|]; simpl.
  - split; [exact L1|]. split; [exact C1|]. split; [|discriminate].
    intros _. eexists. split; [apply lookup_insert_eq|]. split; reflexivity.
  - destruct (send_game_state_connections
                (provision m1 (ce_client_id env) (ce_mission_ts env)) ws
                (ce_client_id env) (ce_state_time env) (ce_state_now_ts env)
                (ce_state_send_ok env)) as (S1 & S2 & _).
    assert (P1 : active_connections
                   (provision m1 (ce_client_id env) (ce_mission_ts env))
                 = active_connections m1
                 ∧ connection_count
                     (provision m1 (ce_client_id env) (ce_mission_ts env))
                   = connection_count m1).
    { unfold provision.
      match goal with
      | |- context [_ensure_player_home_planet ?a ?b] =>
          destruct (ensure_home_connections a b) as (E1 & E2 & _)
      end.
      rewrite E1, E2. split; reflexivity. }
    destruct P1 as [P1 P2]. rewrite S1, P1.
    split; [exact L1|]. split.
    { unfold counter_ok. rewrite S1, S2, P1, P2. exact C1. }
    split; [|discriminate].
    intros _. eexists. split; [apply lookup_insert_eq|]. split; reflexivity.
Qed.

Lemma connect_keeps_counter (m : manager) (ws : websocket)
    (env : connect_env) :
  counter_ok m → counter_ok (cr_manager (connect m ws env)).
Proof.
  intros H. unfold connect.
  set (m0 := (disconnect_all m (existing_connections m (ce_client_id env) ws)).1).
  assert (C0 : counter_ok m0) by (apply disconnect_all_counter, H).
  destruct (active_connections m0 !! ws) as [ci0|] eqn:E0.
  - destruct (is_connected ci0); simpl; [exact C0|].
    apply (handshake_connections (disconnect m0 ws).1 ws env _
             (disconnect_removes m0 ws)).
    apply disconnect_counter, C0.
  - apply (handshake_connections m0 ws env _ E0), C0.
Qed.

(** X26. Whatever its outcome, connect leaves at most one session for the
    client id, namely the connecting socket; it succeeds only with that
    socket registered and marked connected, fails only with it
    unregistered, creates no other session, and keeps the session
    counter equal to the number of registered sessions. *)
Theorem X26_connect_registry (m : manager) (ws : websocket)
    (env : connect_env) :
  let r := connect m ws env in
  (counter_ok m → counter_ok (cr_manager r))
  ∧ (∀ w ci, active_connections (cr_manager r) !! w = Some ci →
     client_id ci = ce_client_id env → w = ws)
  ∧ (cr_ok r = true →
     ∃ ci, active_connections (cr_manager r) !! ws = Some ci
           ∧ is_connected ci = true)
  ∧ (cr_ok r = false → active_connections (cr_manager r) !! ws = None)
  ∧ (∀ w ci, active_connections (cr_manager r) !! w = Some ci → w ≠ ws →
     active_connections m !! w = Some ci).
Proof.
  cbv zeta. split; [apply connect_keeps_counter|]. unfold connect.
  set (m0 := (disconnect_all m (existing_connections m (ce_client_id env) ws)).1).
  assert (U0 : ∀ w ci, active_connections m0 !! w = Some ci →
               client_id ci = ce_client_id env → w = ws).
  { intros w ci. apply evicted_unique. }
  assert (O0 : ∀ w ci, active_connections m0 !! w = Some ci →
               active_connections m !! w = Some ci).
  { intros w ci H. subst m0. rewrite disconnect_all_lookup in H.
    destruct (decide (w ∈ _)); [discriminate | exact H]. }
  destruct (active_connections m0 !! ws) as [ci0|] eqn:E0.
  - destruct (is_connected ci0) eqn:Ei; simpl.
    + split; [exact U0|]. split; [intros _; eauto|].
      split; [discriminate|]. intros w ci H _. apply O0, H.
    + pose proof (handshake_connections (disconnect m0 ws).1 ws env
                    ((disconnect_all m
                        (existing_connections m (ce_client_id env) ws)).2
                     ++ (disconnect m0 ws).2)
                    (disconnect_removes m0 ws)) as HH.
      cbv zeta in HH. destruct HH as (L & _ & Ok & Ko).
      assert (Lw : ∀ w ci,
                 active_connections
                   (cr_manager (connect_handshake (disconnect m0 ws).1 ws env
                      ((disconnect_all m
                          (existing_connections m (ce_client_id env) ws)).2
                       ++ (disconnect m0 ws).2))) !! w = Some ci →
                 w ≠ ws → active_connections m0 !! w = Some ci).
      { intros w ci H Hw. rewrite (L w Hw), disconnect_lookup in H.
        destruct (decide (w = ws)); [contradiction | exact H]. }
      split; [|split; [|split]].
      * intros w ci H Hc. destruct (decide (w = ws)) as [|Hw]; [assumption|].
        eapply U0; [apply Lw|]; eassumption.
      * intros H. destruct (Ok H) as (ci & H1 & H2 & _). eauto.
      * exact Ko.
      * intros w ci H Hw. apply O0, Lw; assumption.
  - pose proof (handshake_connections m0 ws env
                  (disconnect_all m
                     (existing_connections m (ce_client_id env) ws)).2 E0)
      as HH.
    cbv zeta in HH. destruct HH as (L & _ & Ok & Ko).
    split; [|split; [|split]].
    + intros w ci H Hc. destruct (decide (w = ws)) as [|Hw]; [assumption|].
      rewrite (L w Hw) in H. eapply U0; eassumption.
    + intros H. destruct (Ok H) as (ci & H1 & H2 & _). eauto.
    + exact Ko.
    + intros w ci H Hw. rewrite (L w Hw) in H. apply O0, H.
Qed.



Lemma game_data_characters (a b : manager) :
  game_data a = game_data b → characters a = characters b.
Proof. unfold game_data. congruence. Qed.

Lemma handshake_known_player (m : manager) (ws : websocket)
    (env : connect_env) (effects : list effect) :
  is_Some (characters m !! ce_client_id env) →
  game_data (cr_manager (connect_handshake m ws env effects)) = game_data m.
Proof.
  intros [c Hc]. unfold connect_handshake.
  destruct (ce_accept_ok env); [|apply disconnect_game_data].
  destruct (ce_status_ok env).
  - simpl. rewrite Hc. reflexivity.
  - simpl. etransitivity; [apply disconnect_game_data | reflexivity].
Qed.

(** X28. connect for a client id that already has a character changes no
    game data (characters, territories, missions, profiles, planets,
    battles), whether the handshake succeeds or fails. *)
Theorem X28_reconnect_keeps_progress (m : manager) (ws : websocket)
    (env : connect_env) :
  is_Some (characters m !! ce_client_id env) →
  game_data (cr_manager (connect m ws env)) = game_data m.
Proof.
  intros Hc. unfold connect.
  set (l := existing_connections m (ce_client_id env) ws).
  destruct (disconnect_all_game_data l m) as [G0 _].
  assert (Hc0 : is_Some (characters (disconnect_all m l).1 !! ce_client_id env)).
  { rewrite (game_data_characters _ _ G0). exact Hc. }
  destruct (active_connections (disconnect_all m l).1 !! ws) as [ci0|].
  - destruct (is_connected ci0); simpl; [exact G0|].
    destruct (disconnect_game_data (disconnect_all m l).1 ws) as [G1 _].
    rewrite handshake_known_player; [congruence|].
    rewrite (game_data_characters _ _ G1). exact Hc0.
  - rewrite handshake_known_player; assumption.
Qed.

Lemma filter_length_insert_ge {A : Type} (P : A → Prop)
    `{∀ x, Decision (P x)} (l : list A) (i : nat) (y : A) :
  P y → (length (filter P l) <= length (filter P (<[i := y]> l)))%nat.
Proof.
  intros Hy. revert i. induction l as [|a l IH]; intros i; [simpl; lia|].
  destruct i as [|i]; simpl.
  - rewrite !filter_cons. destruct (decide (P y)); [|contradiction].
    destruct (decide (P a)); simpl; lia.
  - rewrite !filter_cons. specialize (IH i).
    destruct (decide (P a)); simpl; lia.
Qed.

Lemma ensure_home_territories (m : manager) (wallet : string) :
  (territory_count m wallet
   <= territory_count (_ensure_player_home_planet m wallet) wallet)%Z.
Proof.
  unfold _ensure_player_home_planet.
  destruct (owns_planet m wallet); [lia|].
  destruct (first_unclaimed_from 0 (universe m)) as [[i p]|]; [|lia].
  unfold territory_count. simpl.
  destruct (find_territory_from 0 (p_id p) (territories m)) as [[j t]|].
  - apply inj_le. apply filter_length_insert_ge. reflexivity.
  - rewrite filter_app, length_app. lia.
Qed.

Lemma send_game_state_keeps_profiles (m : manager) (ws : websocket)
    (wallet w : string) (t : Q) (now_ts : Z) (ok : bool) :
  is_Some (leverage_data m !! w) →
  is_Some (leverage_data (send_game_state m ws wallet t now_ts ok).1 !! w).
Proof.
  intros H. unfold send_game_state.
  destruct (throttled m wallet t); [exact H|].
  destruct (active_connections m !! ws) as [ci|]; [|exact H].
  destruct (characters m !! wallet) as [c|]; [|exact H].
  pose proof (calculate_frame m now_ts wallet) as HF. cbv zeta in HF.
  destruct HF as (_ & _ & _ & _ & _ & _ & _ & _ & _ & _ & _ & HS).
  apply HS in H.
  destruct (calculate_leverage_multiplier m now_ts wallet) as [m1 lev].
  simpl in H. destruct (is_connected ci); [destruct ok|]; simpl; exact H.
Qed.

(** X29. A first connection of an unknown client id on a fresh socket, with
    a handshake that goes through, succeeds and provisions the player: a
    level 1 character with 1000 energy, 500 minerals, 250 crystals and
    100 gas, a leverage profile, and at least two more controlled
    territories; other players' characters are untouched and the first
    event delivered is connection_status. *)
Theorem X29_first_connection_provisions (m : manager) (ws : websocket)
    (env : connect_env) :
  active_connections m !! ws = None →
  characters m !! ce_client_id env = None →
  ce_accept_ok env = true →
  ce_status_ok env = true →
  let cid := ce_client_id env in
  let r := connect m ws env in
  cr_ok r = true
  ∧ (∃ c, characters (cr_manager r) !! cid = Some c
          ∧ ch_level c = 1%Z
          ∧ ch_resources c
            = [("energy"%string, 1000); ("minerals"%string, 500);
               ("crystals"%string, 250); ("gas"%string, 100)])
  ∧ is_Some (leverage_data (cr_manager r) !! cid)
  ∧ (territory_count m cid + 2 <= territory_count (cr_manager r) cid)%Z
  ∧ (∀ w, w ≠ cid →
       characters (cr_manager r) !! w = characters m !! w)
  ∧ (∃ rest, cr_replies r = ReplyConnectionStatus cid :: rest).
Proof.
  intros Hfree Hnew Hacc Hst. cbv zeta. unfold connect.
  set (l := existing_connections m (ce_client_id env) ws).
  destruct (disconnect_all_game_data l m) as [G0 _].
  assert (Hl : active_connections (disconnect_all m l).1 !! ws = None).
  { rewrite disconnect_all_lookup. destruct (decide (ws ∈ l)); auto. }
  rewrite Hl. unfold connect_handshake. rewrite Hacc, Hst.
  set (m0 := (disconnect_all m l).1) in *.
  pose proof (game_data_characters _ _ G0) as Gc.
  assert (Gt : territories m0 = territories m)
    by (unfold game_data in G0; congruence).
  cbn [characters set_connections]. rewrite Gc, Hnew.
  set (m1 := set_connections m0 _ _).
  match goal with
  | |- context [send_game_state ?a ?b ?c ?d ?e ?f] =>
      destruct (send_game_state_connections a b c d e f)
        as (_ & _ & Sc & St & _);
      set (sg := send_game_state a b c d e f) in *
  end.
  cbn [cr_ok cr_manager cr_replies].
  assert (Pc : characters (provision m1 (ce_client_id env) (ce_mission_ts env))
               = <[ce_client_id env := default_character m1]> (characters m)).
  { unfold provision.
    match goal with
    | |- context [_ensure_player_home_planet ?a ?b] =>
        destruct (ensure_home_connections a b) as (_ & _ & E & _)
    end.
    rewrite E. simpl. rewrite Gc. reflexivity. }
  split; [reflexivity|]. split.
  { exists (default_character m1). rewrite Sc, Pc, lookup_insert_eq.
    repeat split. }
  split.
  { subst sg. apply send_game_state_keeps_profiles.
    unfold provision.
    match goal with
    | |- context [_ensure_player_home_planet ?a ?b] =>
        destruct (ensure_home_connections a b) as (_ & _ & _ & E)
    end.
    rewrite E. simpl. rewrite lookup_insert_eq. eauto. }
  split.
  { rewrite (f_equal (fun ts => Z.of_nat (length (filter
               (fun t => t_controlledBy t = Some (ce_client_id env)) ts))) St
             : territory_count sg.1 (ce_client_id env) = _).
    unfold provision.
    match goal with
    | |- context [_ensure_player_home_planet ?a ?b] =>
        pose proof (ensure_home_territories a b) as HE
    end.
    eapply Z.le_trans; [|exact HE].
    unfold territory_count. simpl. rewrite Gt, filter_app, length_app.
    unfold starter_territories. rewrite !filter_cons. simpl.
    destruct (decide (Some (ce_client_id env) = Some (ce_client_id env)));
      [|contradiction].
    simpl. lia. }
  split.
  { intros w Hw. rewrite Sc, Pc. apply lookup_insert_ne. congruence. }
  eauto.
Qed.

Lemma first_unclaimed_lookup (i0 : nat) (ps : list planet) (i : nat)
    (p : planet) :
  first_unclaimed_from i0 ps = Some (i, p) →
  (i0 <= i)%nat ∧ ps !! (i - i0)%nat = Some p
  ∧ owned (p_controlledBy p) = false.
Proof.
  revert i0. induction ps as [|q ps IH]; intros i0 H; simpl in H;
    [discriminate|].
  destruct (owned (p_controlledBy q)) eqn:E.
  - apply IH in H as (H1 & H2 & H3). split; [lia|]. split; [|exact H3].
    replace (i - i0)%nat with (S (i - S i0)) by lia. exact H2.
  - injection H as <- <-. replace (i0 - i0)%nat with 0%nat by lia.
    split; [lia|]. split; [reflexivity | exact E].
Qed.

Lemma first_unclaimed_none (i0 : nat) (ps : list planet) :
  first_unclaimed_from i0 ps = None →
  ∀ p, p ∈ ps → owned (p_controlledBy p) = true.
Proof.
  revert i0. induction ps as [|q ps IH]; intros i0 H p Hp; [inversion Hp|].
  simpl in H. destruct (owned (p_controlledBy q)) eqn:E; [|discriminate].
  apply elem_of_cons in Hp as [->|Hp]; [exact E | eapply IH; eassumption].
Qed.

Lemma owns_planet_spec (m : manager) (wallet : string) :
  owns_planet m wallet = true
  ↔ ∃ i p, universe m !! i = Some p ∧ p_controlledBy p = Some wallet.
Proof.
  unfold owns_planet. rewrite existsb_exists. split.
  - intros (p & Hin & Hp). apply bool_decide_eq_true in Hp.
    apply list_elem_of_In, list_elem_of_lookup in Hin as [i Hi]. eauto.
  - intros (i & p & Hi & Hp). exists p. split.
    + apply list_elem_of_In, list_elem_of_lookup. eauto.
    + apply bool_decide_eq_true. exact Hp.
Qed.

(** X27. _ensure_player_home_planet is idempotent, keeps the number of
    planets, never changes a planet that has an owner, gives any planet
    it changes to the player with a defense of at least 3, and leaves
    the player owning a planet whenever the player owned one or an
    unowned planet existed. *)
Theorem X27_home_planet (m : manager) (wallet : string) :
  let m' := _ensure_player_home_planet m wallet in
  _ensure_player_home_planet m' wallet = m'
  ∧ length (universe m') = length (universe m)
  ∧ (∀ i p, universe m !! i = Some p → owned (p_controlledBy p) = true →
       universe m' !! i = Some p)
  ∧ (∀ i p', universe m' !! i = Some p' → universe m !! i ≠ Some p' →
       p_controlledBy p' = Some wallet
       ∧ ∃ d, p_defense p' = Some d ∧ (3 <= d)%Z)
  ∧ ((∃ i p, universe m !! i = Some p
             ∧ (p_controlledBy p = Some wallet
                ∨ owned (p_controlledBy p) = false)) →
     owns_planet m' wallet = true).
Proof.
  cbv zeta. unfold _ensure_player_home_planet at 2 3 4 5 6 7.
  destruct (owns_planet m wallet) eqn:Eo.
  { unfold _ensure_player_home_planet. rewrite Eo.
    split; [reflexivity|]. split; [reflexivity|]. split; [auto|].
    split; [intros j q H1 H2; contradiction | intros _; reflexivity]. }
  destruct (first_unclaimed_from 0 (universe m)) as [[i p]|] eqn:Ef.
  2:{ unfold _ensure_player_home_planet. rewrite Eo, Ef.
      split; [reflexivity|]. split; [reflexivity|]. split; [auto|].
      split; [intros j q H1 H2; contradiction|].
      intros (j & q & Hi & [Hp|Hp]).
      - assert (Ht : owns_planet m wallet = true)
          by (apply owns_planet_spec; eauto).
        congruence.
      - pose proof (first_unclaimed_none 0 _ Ef q) as Hc.
        rewrite Hc in Hp; [discriminate|].
        apply list_elem_of_lookup. eauto. }
  destruct (first_unclaimed_lookup _ _ _ _ Ef) as (_ & Hl & Hu).
  rewrite Nat.sub_0_r in Hl.
  assert (Hlt : (i < length (universe m))%nat) by (eapply lookup_lt_Some, Hl).
  set (m' := set_world m _ _).
  assert (Hown : owns_planet m' wallet = true).
  { apply owns_planet_spec. exists i, (home_planet p wallet).
    split; [|reflexivity]. subst m'. simpl.
    apply list_lookup_insert_eq, Hlt. }
  split; [unfold _ensure_player_home_planet; rewrite Hown; reflexivity|].
  split; [subst m'; simpl; apply length_insert|]. split.
  { intros j q Hj Hq. subst m'. simpl.
    rewrite list_lookup_insert_ne; [exact Hj|].
    intros ->. rewrite Hl in Hj. injection Hj as ->. congruence. }
  split; [|intros _; exact Hown].
  intros j p' Hj Hne. subst m'. simpl in Hj.
  destruct (decide (i = j)) as [<-|Hij].
  - rewrite list_lookup_insert_eq in Hj by exact Hlt. injection Hj as <-.
    split; [reflexivity|]. eexists. split; [reflexivity|]. lia.
  - rewrite list_lookup_insert_ne in Hj by exact Hij. contradiction.
Qed.

(** X30. At the keep-alive check a session whose last pong is at most 15
    seconds old is kept and the loop goes on, with the state unchanged;
    a session whose last pong is older is closed and removed and the
    loop ends. A pong recorded at most 15 seconds before the check keeps
    the session, and a ping that cannot be sent removes it. *)
Theorem X30_keep_alive_check (m : manager) (ws : websocket) (ci : conn_info)
    (t : Q) :
  active_connections m !! ws = Some ci →
  (t - last_pong ci <= ping_timeout →
   keep_alive_check m ws t = (m, true, []))
  ∧ (ping_timeout < t - last_pong ci →
     (keep_alive_check m ws t).1.2 = false
     ∧ active_connections (keep_alive_check m ws t).1.1 !! ws = None
     ∧ TransportClosed ws "Normal closure" ∈ (keep_alive_check m ws t).2)
  ∧ (∀ tp, t - tp <= ping_timeout →
       (keep_alive_check (record_pong m ws tp) ws t).1.2 = true
       ∧ is_Some (active_connections
                    (keep_alive_check (record_pong m ws tp) ws t).1.1 !! ws))
  ∧ (is_connected ci = true →
     (keep_alive_ping m ws t false).1.2 = false
     ∧ active_connections (keep_alive_ping m ws t false).1.1 !! ws = None).
Proof.
  intros Hc. split; [|split; [|split]].
  4:{ intros Hi. unfold keep_alive_ping. rewrite Hc, Hi. simpl.
      split; [reflexivity | apply disconnect_removes]. }
  - intros H. unfold keep_alive_check. rewrite Hc.
    apply Qlt_bool_false in H. rewrite H. reflexivity.
  - intros H. unfold keep_alive_check. rewrite Hc.
    apply Qlt_bool_iff in H. rewrite H. simpl.
    split; [reflexivity|]. split; [apply disconnect_removes|].
    unfold disconnect. rewrite Hc. simpl. apply elem_of_app. right. left.
  - intros tp H. unfold keep_alive_check, record_pong. rewrite Hc. simpl.
    rewrite lookup_insert_eq. simpl.
    apply Qlt_bool_false in H. rewrite H. simpl.
    split; [reflexivity|]. rewrite lookup_insert_eq. eauto.
Qed.

(** ** Instances of the handler and session properties *)

Lemma X18_deploy_research_effect_witness :
  (deploy_research_segment dana_manager 9%nat dana_research 1000).2
  = Sends (ReplyResearchDeployed "attack_boost" (0 + 0.05) (0 + 0.05)).
Proof.
  exact (proj1 (proj2 (X18_deploy_research_effect dana_manager 9%nat dana_research
                  1000 dana_conn dana_character 1000 default_profile
                  eq_refl eq_refl eq_refl eq_refl
                  ltac:(vm_compute; discriminate)))).
Defined.

Lemma X19_deployed_buff_lifetime_witness :
  1.05 <= a_total_of
            (calculate_leverage_multiplier
               (deploy_research_segment dana_manager 9%nat dana_research
                  1000).1 1030 "dana").2.
Proof.
  apply (proj1 (X19_deployed_buff_lifetime dana_manager 9%nat dana_research
                  1000 1030 dana_conn dana_character 1000 default_profile
                  eq_refl eq_refl eq_refl eq_refl
                  ltac:(vm_compute; discriminate)
                  (NoDup_nil_2 : NoDup (dict_keys
                                          (default [] (temp_buffs default_profile))))
                  ltac:(intros b H; discriminate H))).
  lia.
Defined.

(** The closing state push does write to the player's own profile: after
    either handler the stored profiles differ from those before. *)
Lemma closing_push_rewrites_profile :
  let env := mk_handler_env Healthy 1000 1000 true 1000 true in
  leverage_data (build_satellite dana_manager 9%nat dana_satellite env).1
  ≠ leverage_data dana_manager
  ∧ leverage_data (explore_new_sectors dana_manager 9%nat env).1
    ≠ leverage_data dana_manager.
Proof.
  cbv zeta. split; intros H;
    apply (f_equal (λ l : gmap string profile, l !! "dana"%string)) in H;
    vm_compute in H; discriminate.
Qed.

Lemma X20_build_satellite_effect_witness :
  universe (build_satellite dana_manager 9%nat dana_satellite
              (mk_handler_env Healthy 1000 1000 true 1000 true)).1 !! 0%nat
  = Some (set_defense dana_home 4).
Proof.
  exact (proj1 (X20_build_satellite_effect dana_manager 9%nat
                  dana_satellite dana_conn 0 dana_home dana_character
                  500 (mk_handler_env Healthy 1000 1000 true 1000 true)
                  eq_refl eq_refl eq_refl eq_refl eq_refl
                  ltac:(vm_compute; discriminate))).
Defined.

Lemma X21_harvest_planet_gain_witness :
  ∃ ge gm c',
    (harvest_planet_segment dana_manager 9%nat dana_satellite 1000 10 7).2
    = Sends (ReplyHarvest "planet-system-1-0" ge gm)
    ∧ (10 <= ge <= 2 * 10)%Z
    ∧ (7 <= gm <= 2 * 7)%Z
    ∧ (8 <= ge <= 36)%Z ∧ (5 <= gm <= 24)%Z
    ∧ characters
        (harvest_planet_segment dana_manager 9%nat dana_satellite 1000 10 7).1
        !! "dana"%string = Some c'
    ∧ dict_get "energy" (ch_resources c') = Some (1000 + inject_Z ge)
    ∧ dict_get "minerals" (ch_resources c') = Some (500 + inject_Z gm)
    ∧ universe
        (harvest_planet_segment dana_manager 9%nat dana_satellite 1000 10 7).1
      = universe dana_manager.
Proof.
  exact (X21_harvest_planet_gain dana_manager 9%nat dana_satellite 1000 10 7
           dana_conn 0 dana_home dana_character 1000 500
           eq_refl eq_refl eq_refl eq_refl eq_refl eq_refl
           ltac:(lia) ltac:(lia)).
Defined.

Lemma X22_claim_territory_effect_witness :
  territory_count (claim_territory_segment dana_manager "dana" "territory-1").1
    "dana"
  = (territory_count dana_manager "dana" + 1)%Z.
Proof.
  exact (proj1 (proj2 (proj2 (proj2
    (X22_claim_territory_effect dana_manager "dana" "territory-1"
       dana_character 1 (mk_territory "territory-1" None None)
       default_profile 0 ltac:(discriminate) eq_refl eq_refl eq_refl
       eq_refl))))).
Defined.

Lemma X23_defend_all_effect_witness :
  universe (defend_all_segment dana_manager 9%nat).1 = universe dana_manager.
Proof.
  exact (proj1 (proj2 (X23_defend_all_effect dana_manager 9%nat dana_conn
                         dana_character 1000 eq_refl eq_refl
                         ltac:(vm_compute; discriminate) eq_refl
                         ltac:(vm_compute; discriminate)))).
Defined.

Lemma X24_explore_new_sectors_effect_witness :
  territory_count
    (explore_new_sectors dana_manager 9%nat
       (mk_handler_env Healthy 1000 1000 true 1000 true)).1 "dana"
  = (territory_count dana_manager "dana" + 2)%Z.
Proof.
  exact (proj1 (proj2
    (X24_explore_new_sectors_effect dana_manager 9%nat dana_conn
       dana_character (mk_handler_env Healthy 1000 1000 true 1000 true)
       eq_refl eq_refl))).
Defined.

Lemma X28_reconnect_keeps_progress_witness :
  game_data (cr_manager (connect dana_manager 10%nat
                           (mk_connect_env "dana" true true 1000 1000 1000
                              4%nat 1000 1000 1000 true)))
  = game_data dana_manager.
Proof.
  apply (X28_reconnect_keeps_progress dana_manager 10%nat
           (mk_connect_env "dana" true true 1000 1000 1000 4%nat 1000 1000
              1000 true)).
  exists dana_character. reflexivity.
Defined.

Lemma X29_first_connection_provisions_witness :
  cr_ok (connect dana_manager 11%nat erin_env) = true
  ∧ is_Some (leverage_data (cr_manager (connect dana_manager 11%nat erin_env))
               !! "erin"%string).
Proof.
  destruct (X29_first_connection_provisions dana_manager 11%nat erin_env
              eq_refl eq_refl eq_refl eq_refl) as (H1 & _ & H3 & _).
  split; assumption.
Defined.

Lemma X30_keep_alive_check_witness :
  keep_alive_check dana_manager 9%nat 1005 = (dana_manager, true, []).
Proof.
  apply (proj1 (X30_keep_alive_check dana_manager 9%nat dana_conn 1005
                  eq_refl)).
  vm_compute. discriminate.
Defined.
